(** * The streaming iterators of the ixp Lua binding (src/ixp/luaixp.c)

    A shallow embedding of the line iterator ([l_ixp_iread_iter]), the
    directory iterator ([l_ixp_idir_iter]), their finalizers and the status
    projection ([pushstat], [build_modestr]) of luaixp.c, and the properties
    of the specification that can be settled on them; then of the one-shot
    operations ([l_ixp_write], [l_ixp_read], [l_ixp_create], [l_ixp_stat])
    and what the code shows of them.

    Conventions.
    - C [char] buffers are [list ascii]; a pointer into a buffer is an
      offset; reading or writing outside the block is [Undefined].
    - [size_t] is 64 bits wide, [int] 32 bits; both are [Z] with the
      wrap-around written out.  Structures lie in memory as on x86-64
      Linux: [time_t] has 64 bits, integers are little-endian.
    - A C function called from Lua returns the values it leaves on top of
      the stack; [return 0] is the empty list, which ends a generic [for].
    - What libc, the Lua runtime and libixp provide is collected in the
      classes [Libc], [LuaRuntime] and [Libixp]. *)

From Stdlib Require Import ZArith Ascii String DecimalString Lia.
From stdpp Require Import base list.

Set Warnings "-register-all".
Open Scope Z_scope.

(** ** Bytes, C strings and blocks of memory *)

Definition NUL : ascii := "000"%char.
Definition LF : ascii := "010"%char.

(** A Lua error raised from C: a failed argument check ([luaL_argerror] on
    argument [narg]), or a call of a value that is no function. *)
Inductive lua_error : Type :=
| BadArgument (narg : nat)
| CallNonFunction.

(** Outcome of a C function: a value, a Lua error, or behaviour that C
    leaves undefined (an access outside a block, a null dereference). *)
Inductive outcome (A : Type) : Type :=
| Ok (a : A)
| Raise (e : lua_error)
| Undefined.
Arguments Ok {A} a.
Arguments Raise {A} e.
Arguments Undefined {A}.

Global Instance outcome_bind : MBind outcome := fun A B k m =>
  match m with
  | Ok a => k a
  | Raise e => Raise e
  | Undefined => Undefined
  end.

Global Instance outcome_ret : MRet outcome := fun A a => Ok a.

Definition defined {A : Type} (o : option A) : outcome A :=
  match o with
  | Some a => Ok a
  | None => Undefined
  end.

(** The C string that starts at the head of [mem]: the bytes before the
    first NUL.  [None] when the block ends before a NUL is met. *)
Fixpoint c_str (mem : list ascii) : option string :=
  match mem with
  | [] => None
  | c :: rest =>
      if Ascii.eqb c NUL then Some EmptyString
      else option_map (String c) (c_str rest)
  end.

(** [strlen]: the number of bytes before the first NUL. *)
Fixpoint strlen (mem : list ascii) : option nat :=
  match mem with
  | [] => None
  | c :: rest =>
      if Ascii.eqb c NUL then Some O else option_map S (strlen rest)
  end.

(** [strchr (s, c)] for [c <> NUL]: the scan stops at the first [c]
    (found, at this offset from [s]), at the first NUL (null pointer), or
    runs off the block. *)
Inductive scan : Type :=
| Found (k : nat)
| NoMatch
| Overrun.

Fixpoint strchr (mem : list ascii) (c : ascii) : scan :=
  match mem with
  | [] => Overrun
  | x :: rest =>
      if Ascii.eqb x c then Found O
      else if Ascii.eqb x NUL then NoMatch
      else match strchr rest c with
           | Found k => Found (S k)
           | NoMatch => NoMatch
           | Overrun => Overrun
           end
  end.

(** Copy [src] into [mem] at offset [off] ([memcpy], [strncpy] of a
    source at least as long as the count).  [None] when it does not fit. *)
Definition write_at (mem : list ascii) (off : nat) (src : list ascii)
  : option (list ascii) :=
  if Nat.leb (off + length src) (length mem)
  then Some (take off mem ++ src ++ drop (off + length src) mem)
  else None.

(** [mem[i] = c].  [None] when [i] is outside the block. *)
Definition poke (mem : list ascii) (i : nat) (c : ascii) : option (list ascii) :=
  if Nat.ltb i (length mem) then Some (<[i := c]> mem) else None.

Definition size_t (x : Z) : Z := x mod 2 ^ 64.
Definition int (x : Z) : Z := (x + 2 ^ 31) mod 2 ^ 32 - 2 ^ 31.

(** ** Lua values *)

(** Lua numbers are modelled by integers: every number the binding reads is
    stored in an [int] at once.  A Lua function is given by the values it
    returns when called without arguments. *)
Inductive lua_value : Type :=
| LNil
| LNumber (n : Z)
| LString (s : string)
| LFunction (returns : list lua_value)
| LTable (fields : list (string * lua_value)).

(** [(lua_Number) x] for the value [x] of an unsigned integer: a Lua number
    is a double, which holds an integer of more than 53 bits only to the
    nearest multiple of a power of two (the even one of two that are
    equally near). *)
Definition lua_Number (x : Z) : Z :=
  if x <? 2 ^ 53 then x
  else
    let e := Z.log2 x - 52 in
    let q := Z.shiftr x e in
    let r := Z.land x (Z.ones e) in
    let half := Z.shiftl 1 (e - 1) in
    Z.shiftl (if (half <? r) || ((r =? half) && Z.odd q) then q + 1 else q) e.

(** What a factory of the binding leaves behind: the userdata it created
    (which the collector finalizes later in either case) and either the
    iterator closure over it or the values of [pusherror]. *)
Inductive created (C : Type) : Type :=
| Iterator (upvalue : C)
| Refused (userdata : C) (values : list lua_value).
Arguments Iterator {C} upvalue.
Arguments Refused {C} userdata values.

(** The stack of a C function: index 1 is the first argument, the top is
    the last element. *)
Definition lua_stack : Type := list lua_value.

Definition index (L : lua_stack) (i : nat) : option lua_value :=
  match i with
  | O => None
  | S j => L !! j
  end.

Definition lua_isfunction (L : lua_stack) (i : nat) : bool :=
  match index L i with
  | Some (LFunction _) => true
  | _ => false
  end.

(** ** External collaborators *)

(** libc.  [EINTR] is positive, as every errno value is.  [ctime_r]
    gives the text it writes to the buffer for a time (without the
    terminating NUL), or [None] when it leaves the buffer alone; what it
    returns is not looked at by the binding. *)
Class Libc : Type := {
  EINTR : Z;
  EINTR_pos : 0 < EINTR;
  strerror : Z -> string;
  ctime_r : Z -> option string;
}.

(** The Lua runtime: [str2number] is the conversion [lua_tonumber] applies
    to a string argument. *)
Class LuaRuntime : Type := {
  str2number : string -> option Z;
}.

(** The state of the C library around one call: [errno], and what
    [malloc] does: fail, or hand out a block whose bytes are [junk]. *)
Record c_world : Type := {
  errno : Z;
  malloc_fails : bool;
  junk : nat -> ascii;
}.

Definition malloc (w : c_world) (n : Z) : option (list ascii) :=
  if malloc_fails w then None
  else Some (map (junk w) (seq 0 (Z.to_nat n))).

(** A reply of the remote file to one read request. *)
Inductive read_reply : Type :=
| Bytes (data : list ascii)
| Failure (rc : Z).

(** An open remote file ([IxpCFid]): its preferred chunk size and the
    replies the transport will give to the coming reads. *)
Record IxpCFid : Type := {
  iounit : Z;
  replies : list read_reply;
}.

Definition with_replies (f : IxpCFid) (rs : list read_reply) : IxpCFid :=
  {| iounit := iounit f; replies := rs |}.

(** Modelled from the spec: the transport's
    [read(handle, maxBytes) -> bytesRead | 0 (EOF) | error] of libixp, which
    is not part of this repository.  A read takes the next reply: at most
    [count] of its bytes are copied to the start of [buf] (the rest of the
    block is left as it was) and their number is returned; bytes beyond
    [count] stay for the next read.  No reply left is end of file. *)
Definition ixp_read (f : IxpCFid) (buf : list ascii) (count : Z)
  : IxpCFid * list ascii * Z :=
  match replies f with
  | [] => (f, buf, 0)
  | Bytes data :: rest =>
      let n := Z.to_nat (Z.min (Z.of_nat (length data)) count) in
      let later := drop n data in
      (with_replies f (match later with [] => rest | _ => Bytes later :: rest end),
       take n data ++ drop n buf,
       Z.of_nat n)
  | Failure rc :: rest => (with_replies f rest, buf, rc)
  end.

(** A [char*] field: a pointer to a C string, a null pointer, or an
    indeterminate pointer, which points to no object. *)
Inductive char_p : Type :=
| Str (s : string)
| Null
| Wild.

(** A file-status record ([IxpStat]) as it lies in memory; the qid is not
    projected.  The numbers are what the unsigned fields hold: 16 bits for
    [type], 64 for [length], 32 for the others.  [mtime] has 32 bits and
    [length], which follows it, is aligned to 8 bytes, so 4 bytes that
    belong to no field lie between them: [st_behind_mtime] is the number
    they hold.  No decoder stores there. *)
Record IxpStat : Type := {
  st_type : Z;
  st_dev : Z;
  st_mode : Z;
  st_atime : Z;
  st_mtime : Z;
  st_behind_mtime : Z;
  st_length : Z;
  st_name : char_p;
  st_uid : char_p;
  st_gid : char_p;
  st_muid : char_p;
}.

(** The [time_t] read at the address of [mtime], which the code casts to a
    pointer to [time_t]: 8 bytes, those of [mtime] and the 4 bytes behind
    it, as a signed number. *)
Definition time_at_mtime (stat : IxpStat) : Z :=
  let raw := (st_mtime stat + 2 ^ 32 * st_behind_mtime stat) mod 2 ^ 64 in
  if raw <? 2 ^ 63 then raw else raw - 2 ^ 64.

(** A message-decoding context ([IxpMsg]) over the reader's buffer: the
    cursor [m_pos] and the limit [m_end] are offsets into that buffer (all
    zero after [memset], when every pointer of it is null). *)
Record IxpMsg : Type := {
  m_pos : Z;
  m_end : Z;
  m_size : Z;
}.

(** Modelled from the spec: [ixp_message (buf, length, MsgUnpack)] of libixp,
    a new message-decoding context established over exactly the bytes
    returned (end = bytes read). *)
Definition ixp_message (length : Z) : IxpMsg :=
  {| m_pos := 0; m_end := length; m_size := length |}.

(** libixp.  [P9_DMDIR] is the directory bit of a mode.  [ixp_pstat (&m,
    &stat)] returns nothing: it reads the bytes of the buffer the context
    points into, stores the fields it decodes in the record it is given,
    leaves the rest of that record as it is, and moves the cursor.  Its
    arguments here are the buffer, the context and the record as it is;
    its results the context and the record afterwards. *)
Class Libixp : Type := {
  P9_DMDIR : Z;
  ixp_pstat : list ascii -> IxpMsg -> IxpStat -> IxpMsg * IxpStat;
}.

(** ** Reader states (luaixp.c, [struct l_ixp_iread_s], [struct l_ixp_idir_s]) *)

(** A null pointer is [None]; [buf], when allocated, is the contents of
    the block. *)
Record l_ixp_iread_s : Type := {
  fid : option IxpCFid;
  buf : option (list ascii);
  buf_pos : Z;
  buf_len : Z;
  buf_size : Z;
}.

Record l_ixp_idir_s : Type := {
  d_fid : option IxpCFid;
  d_buf : option (list ascii);
  m : IxpMsg;
}.

(** The calls a function makes into libc and libixp, in the order they are
    made. *)
Inductive effect : Type :=
| CallSigaction (install : bool)
| CallAlarm (seconds : Z)
| CallRead (count : Z)
| CallClose (f : option IxpCFid)
| CallFree (block : option (list ascii)).

(** The bytes from [buf + off] to the end of the block; a pointer outside
    the block is undefined. *)
Definition at_offset (mem : list ascii) (off : Z) : outcome (list ascii) :=
  if (off <? 0) || (Z.of_nat (length mem) <? off) then Undefined
  else Ok (drop (Z.to_nat off) mem).

(** ** The error helper (luaixp.c, [pusherror]) *)

Section Binding.
Context {libc : Libc} {lua : LuaRuntime} {libixp : Libixp}.

Definition pusherror (w : c_world) (info : option string) : list lua_value :=
  match info with
  | None => [LNil; LString (strerror (errno w)); LNumber (errno w)]
  | Some i =>
      if negb (errno w =? 0)
      then [LNil; LString (i ++ ": " ++ strerror (errno w)); LNumber (errno w)]
      else [LNil; LString i]
  end.

(** [luaL_checknumber (L, narg)], stored in an [int]: a number of the range
    of [int] is stored as it is.  C leaves the conversion of a number
    outside that range undefined; it is taken here as the wrap-around. *)
Definition luaL_checknumber (L : lua_stack) (narg : nat) : outcome Z :=
  match index L narg with
  | Some (LNumber n) => Ok (int n)
  | Some (LString s) =>
      match str2number s with
      | Some n => Ok (int n)
      | None => Raise (BadArgument narg)
      end
  | _ => Raise (BadArgument narg)
  end.

(** [luaL_optnumber (L, narg, def)], stored in an [int]. *)
Definition luaL_optnumber (L : lua_stack) (narg : nat) (def : Z) : outcome Z :=
  match index L narg with
  | None | Some LNil => Ok (int def)
  | Some _ => luaL_checknumber L narg
  end.

(** ** The status projection (luaixp.c, [setrwx] .. [pushstat]) *)

Definition modes : list string :=
  ["---"; "--x"; "-w-"; "-wx"; "r--"; "r-x"; "rw-"; "rwx"]%string.

(** [setrwx (m, &buf[off])]: [strncpy (s, modes[m], 3)]. *)
Definition setrwx (m : Z) (buf : list ascii) (off : nat) : outcome (list ascii) :=
  if m <? 0 then Undefined
  else
    t ← defined (modes !! Z.to_nat m);
    defined (write_at buf off (take 3 (list_ascii_of_string t))).

Definition build_modestr (buf : list ascii) (stat : IxpStat) : outcome (list ascii) :=
  b ← defined (poke buf 0 "-"%char);
  b ← (if negb (Z.land (st_mode stat) P9_DMDIR =? 0)
       then defined (poke b 0 "d"%char) else Ok b);
  b ← defined (poke b 1 "-"%char);
  b ← setrwx (Z.land (Z.shiftr (st_mode stat) 6) 7) b 2;
  b ← setrwx (Z.land (Z.shiftr (st_mode stat) 3) 7) b 5;
  b ← setrwx (Z.land (Z.shiftr (st_mode stat) 0) 7) b 8;
  defined (poke b 11 NUL).

(** [ctime_r (&stat->mtime, buf); buf[strlen (buf) - 1] = 0], the address
    being cast to a pointer to [time_t]: the time converted is the [time_t]
    read at [&stat->mtime].  With an empty string in [buf] the index wraps
    round and the store is outside the block. *)
Definition build_timestr (buf : list ascii) (stat : IxpStat) : outcome (list ascii) :=
  b ← match ctime_r (time_at_mtime stat) with
      | Some t => defined (write_at buf 0 (list_ascii_of_string t ++ [NUL]))
      | None => Ok buf
      end;
  n ← defined (strlen b);
  match n with
  | O => Undefined
  | S i => defined (poke b i NUL)
  end.

(** [lua_pushstring (L, s)]: the C string [s] points to, or nil for a null
    pointer (lapi.c); the string of an indeterminate pointer is read
    outside every object. *)
Definition lua_pushstring (s : char_p) : outcome lua_value :=
  match s with
  | Str text => Ok (LString text)
  | Null => Ok LNil
  | Wild => Undefined
  end.

(** [setfield (type, name, value)] on the table under construction:
    [lua_settable] with a nil value leaves the table without the field. *)
Definition setfield (name : string) (value : lua_value)
    (fields : list (string * lua_value)) : list (string * lua_value) :=
  match value with
  | LNil => fields
  | _ => fields ++ [(name, value)]
  end.

(** [pushstat (L, stat)]: the table pushed, and the contents the function's
    static buffer [buf[32]] is left with; [sbuf] is what it held on
    entry. *)
Definition pushstat (sbuf : list ascii) (stat : IxpStat)
  : outcome (lua_value * list ascii) :=
  let t := setfield "type" (LNumber (lua_Number (st_type stat))) [] in
  let t := setfield "dev" (LNumber (lua_Number (st_dev stat))) t in
  let t := setfield "mode" (LNumber (lua_Number (st_mode stat))) t in
  let t := setfield "atime" (LNumber (lua_Number (st_atime stat))) t in
  let t := setfield "mtime" (LNumber (lua_Number (st_mtime stat))) t in
  let t := setfield "length" (LNumber (lua_Number (st_length stat))) t in
  name ← lua_pushstring (st_name stat);
  let t := setfield "name" name t in
  uid ← lua_pushstring (st_uid stat);
  let t := setfield "uid" uid t in
  gid ← lua_pushstring (st_gid stat);
  let t := setfield "gid" gid t in
  muid ← lua_pushstring (st_muid stat);
  let t := setfield "muid" muid t in
  b ← build_modestr sbuf stat;
  modestr ← defined (c_str b);
  let t := setfield "modestr" (LString modestr) t in
  b ← build_timestr b stat;
  timestr ← defined (c_str b);
  let t := setfield "timestr" (LString timestr) t in
  Ok (LTable t, b).

(** ** The line iterator (luaixp.c, [l_ixp_iread] .. [l_ixp_iread_gc]) *)

(** [l_ixp_iread]: [opened] is what [ixp_open] returned. *)
Definition l_ixp_iread (w : c_world) (opened : option IxpCFid)
  : created l_ixp_iread_s :=
  let ctx := {| fid := opened; buf := None;
                buf_pos := 0; buf_len := 0; buf_size := 0 |} in
  match opened with
  | None => Refused ctx (pusherror w (Some "count not open p9 file"%string))
  | Some _ => Iterator ctx
  end.

(** [lua_call (L, 0, 1)]: the value on top of the stack is called without
    arguments and replaced by its first result ([nil] when it returns
    nothing). *)
Definition lua_call_0_1 (L : lua_stack) : outcome lua_stack :=
  match reverse L with
  | LFunction returns :: below =>
      Ok (reverse below ++ [default LNil (head returns)])
  | _ => Raise CallNonFunction
  end.

Definition lua_pop (L : lua_stack) (n : nat) : lua_stack :=
  take (length L - n) L.

(** The SIGALRM handler; [L] is the global [l_ixp_iread_lua_state]. *)
Definition l_ixp_iread_catcher (L : option lua_stack)
  : outcome (option lua_stack * list effect) :=
  match L with
  | None => Ok (None, [])
  | Some st =>
      timeout ← luaL_optnumber st 1 0;
      let rc := lua_isfunction st 2 in
      if (0 <? timeout) && rc then
        st ← lua_call_0_1 st;
        new_timeout ← luaL_checknumber st 1;
        let st := lua_pop st 1 in
        Ok (Some st, [CallAlarm new_timeout])
      else Ok (Some st, [])
  end.

(** Lines 390-409 of [l_ixp_iread_iter]: the next line of the buffer.
    [mem] is the block [buf ctx] points to. *)
Definition iread_split (ctx : l_ixp_iread_s) (mem : list ascii)
    (calls : list effect)
  : outcome (list lua_value * l_ixp_iread_s * list effect) :=
  s ← at_offset mem (buf_pos ctx);
  match strchr s LF with
  | Overrun => Undefined
  | NoMatch =>
      line ← defined (c_str s);
      Ok ([LString line],
          {| fid := fid ctx; buf := Some mem; buf_pos := buf_pos ctx;
             buf_len := 0; buf_size := buf_size ctx |},
          calls)
  | Found cr =>
      let len := int (Z.of_nat cr + 1) in
      mem ← defined (poke mem (Z.to_nat (buf_pos ctx) + cr) NUL);
      s ← at_offset mem (buf_pos ctx);
      line ← defined (c_str s);
      Ok ([LString line],
          {| fid := fid ctx; buf := Some mem;
             buf_pos := size_t (buf_pos ctx + len);
             buf_len := size_t (buf_len ctx - len);
             buf_size := buf_size ctx |},
          calls)
  end.

(** The calls of a refill: the read, between the arming and the disarming
    of the alarm when [timeout > 0]. *)
Definition refill_calls (timeout count : Z) : list effect :=
  (if 0 <? timeout then [CallSigaction true; CallAlarm timeout] else [])
  ++ [CallRead count]
  ++ (if 0 <? timeout then [CallAlarm 0; CallSigaction false] else []).

(** Lines 350-388 of [l_ixp_iread_iter]: the refill of an empty buffer,
    under an alarm when [timeout > 0].  [rc] is the [int] that [ixp_read]
    returns. *)
Definition iread_refill (timeout : Z) (ctx : l_ixp_iread_s) (mem : list ascii)
  : outcome (list lua_value * l_ixp_iread_s * list effect) :=
  f ← defined (fid ctx);
  let '(f, mem, rc) := ixp_read f mem (buf_size ctx) in
  let calls := refill_calls timeout (buf_size ctx) in
  let ctx := {| fid := Some f; buf := Some mem; buf_pos := 0;
                buf_len := buf_len ctx; buf_size := buf_size ctx |} in
  if rc =? EINTR then Ok ([LString "timeout"%string], ctx, calls)
  else if rc <=? 0 then Ok ([], ctx, calls)
  else
    iread_split {| fid := fid ctx; buf := buf ctx; buf_pos := buf_pos ctx;
                   buf_len := size_t rc; buf_size := buf_size ctx |} mem calls.

(** [l_ixp_iread_iter]: [L] holds the arguments of the call, [ctx] is the
    userdata in the closure's upvalue.  The result is the values returned
    to Lua, the userdata afterwards and the calls made. *)
Definition l_ixp_iread_iter (w : c_world) (L : lua_stack) (ctx : l_ixp_iread_s)
  : outcome (list lua_value * l_ixp_iread_s * list effect) :=
  timeout ← luaL_optnumber L 1 0;
  alloc ←
    match buf ctx with
    | None =>
        f ← defined (fid ctx);
        match malloc w (iounit f) with
        | None => Ok (inl (pusherror w (Some "count not allocate memory"%string)))
        | Some mem =>
            Ok (inr ({| fid := fid ctx; buf := Some mem; buf_pos := buf_pos ctx;
                        buf_len := 0; buf_size := size_t (iounit f) |}, mem))
        end
    | Some mem => Ok (inr (ctx, mem))
    end;
  match alloc with
  | inl values => Ok (values, ctx, [])
  | inr (ctx, mem) =>
      if buf_len ctx =? 0 then iread_refill timeout ctx mem
      else iread_split ctx mem []
  end.

(** [l_ixp_iread_gc]: the userdata is left as it is. *)
Definition l_ixp_iread_gc (ctx : l_ixp_iread_s) : l_ixp_iread_s * list effect :=
  (ctx,
   CallClose (fid ctx)
   :: match buf ctx with
      | Some mem => [CallFree (Some mem)]
      | None => []
      end).

(** ** The directory iterator (luaixp.c, [l_ixp_idir] .. [l_ixp_idir_gc]) *)

Definition l_ixp_idir (w : c_world) (opened : option IxpCFid)
  : created l_ixp_idir_s * list effect :=
  let zero := {| m_pos := 0; m_end := 0; m_size := 0 |} in
  match opened with
  | None =>
      (Refused {| d_fid := None; d_buf := None; m := zero |}
               (pusherror w (Some "count not open p9 file"%string)), [])
  | Some f =>
      match malloc w (iounit f) with
      | None =>
          (Refused {| d_fid := None; d_buf := None; m := zero |}
                   (pusherror w (Some "count not allocate memory"%string)),
           [CallClose (Some f)])
      | Some mem =>
          (Iterator {| d_fid := Some f; d_buf := Some mem; m := zero |}, [])
      end
  end.

(** Lines 596-598 of [l_ixp_idir_iter]: one record is decoded at the
    cursor into the automatic variable [IxpStat stat], and that variable is
    projected.  It is not initialised: [stack] is what it holds when the
    call starts.  [sbuf] is the static buffer of [pushstat]. *)
Definition idir_decode (sbuf : list ascii) (stack : IxpStat) (ctx : l_ixp_idir_s)
  : outcome (list lua_value * l_ixp_idir_s * list ascii) :=
  mem ← defined (d_buf ctx);
  let '(msg, stat) := ixp_pstat mem (m ctx) stack in
  '(table, sbuf) ← pushstat sbuf stat;
  Ok ([table], {| d_fid := d_fid ctx; d_buf := d_buf ctx; m := msg |}, sbuf).

(** [l_ixp_idir_iter]; [stack] is what its variable [stat] holds when the
    call starts.  The result is the values returned to Lua, the userdata
    afterwards and the static buffer afterwards. *)
Definition l_ixp_idir_iter (sbuf : list ascii) (stack : IxpStat)
    (ctx : l_ixp_idir_s)
  : outcome (list lua_value * l_ixp_idir_s * list ascii) :=
  if m_end (m ctx) <=? m_pos (m ctx) then
    f ← defined (d_fid ctx);
    mem ← defined (d_buf ctx);
    let '(f, mem, rc) := ixp_read f mem (iounit f) in
    if rc <=? 0 then
      Ok ([], {| d_fid := Some f; d_buf := Some mem; m := m ctx |}, sbuf)
    else
      let ctx := {| d_fid := Some f; d_buf := Some mem;
                    m := ixp_message rc |} in
      if m_end (m ctx) <=? m_pos (m ctx) then Ok ([], ctx, sbuf)
      else idir_decode sbuf stack ctx
  else idir_decode sbuf stack ctx.

(** Successive calls of the directory iterator, one for each element of
    [stacks], which is what the variable [stat] holds when that call
    starts: the values of each call in order, and the reader afterwards. *)
Fixpoint idir_calls (stacks : list IxpStat) (sbuf : list ascii)
    (ctx : l_ixp_idir_s)
  : outcome (list (list lua_value) * l_ixp_idir_s) :=
  match stacks with
  | [] => Ok ([], ctx)
  | stack :: stacks =>
      '(values, ctx, sbuf) ← l_ixp_idir_iter sbuf stack ctx;
      '(later, ctx) ← idir_calls stacks sbuf ctx;
      Ok (values :: later, ctx)
  end.

(** [l_ixp_idir_gc]: the userdata is left as it is. *)
Definition l_ixp_idir_gc (ctx : l_ixp_idir_s) : l_ixp_idir_s * list effect :=
  (ctx, [CallFree (d_buf ctx); CallClose (d_fid ctx)]).

(** [n] successive calls of the line iterator without arguments: the
    values of each call in order, and the reader afterwards. *)
Fixpoint iread_calls (n : nat) (w : c_world) (ctx : l_ixp_iread_s)
  : outcome (list (list lua_value) * l_ixp_iread_s) :=
  match n with
  | O => Ok ([], ctx)
  | S k =>
      '(values, ctx, _) ← l_ixp_iread_iter w [] ctx;
      '(later, ctx) ← iread_calls k w ctx;
      Ok (values :: later, ctx)
  end.

(** ** The permission string as pushed, and its layout *)

(** The string [setfield (string, "modestr", buf)] pushes once
    [build_modestr] has filled the buffer. *)
Definition modestr_pushed (sbuf : list ascii) (stat : IxpStat) : outcome string :=
  b ← build_modestr sbuf stat;
  defined (c_str b).

(** The template selected by a 3-bit group. *)
Definition rwx (group : Z) : string := default EmptyString (modes !! Z.to_nat group).

(** The layout the code gives the permission string: the directory
    character, a fixed '-', then the templates of the owner, group and
    other groups of the mode, most significant group first. *)
Definition modestr_layout (mode : Z) : string :=
  String (if Z.land mode P9_DMDIR =? 0 then "-"%char else "d"%char)
    (String "-"%char
       (rwx (Z.land (Z.shiftr mode 6) 7)
        ++ rwx (Z.land (Z.shiftr mode 3) 7)
        ++ rwx (Z.land mode 7))).

End Binding.

(** ** Concrete collaborators for the examples *)

(** The errno values and messages of Linux. *)
Definition linux_strerror (e : Z) : string :=
  if e =? 4 then "Interrupted system call"
  else if e =? 12 then "Cannot allocate memory"
  else "Unknown error".

(** The civil date of a day counted from 1 January 1970: the year, the
    month from 1 and the day of the month. *)
Definition civil (days : Z) : Z * Z * Z :=
  let z := days + 719468 in
  let era := z / 146097 in
  let doe := z - era * 146097 in
  let yoe := (doe - doe / 1460 + doe / 36524 - doe / 146096) / 365 in
  let doy := doe - (365 * yoe + yoe / 4 - yoe / 100) in
  let mp := (5 * doy + 2) / 153 in
  let day := doy - (153 * mp + 2) / 5 + 1 in
  let month := if mp <? 10 then mp + 3 else mp - 9 in
  (yoe + era * 400 + (if month <=? 2 then 1 else 0), month, day).

Definition weekday_names : list string :=
  ["Sun"; "Mon"; "Tue"; "Wed"; "Thu"; "Fri"; "Sat"]%string.

Definition month_names : list string :=
  ["Jan"; "Feb"; "Mar"; "Apr"; "May"; "Jun";
   "Jul"; "Aug"; "Sep"; "Oct"; "Nov"; "Dec"]%string.

(** The fields of [asctime]'s format: [%d], [%.2d] and [%3d]. *)
Definition digits (n : Z) : string := NilZero.string_of_int (Z.to_int n).

Definition two_digits (n : Z) : string :=
  (digits (n / 10) ++ digits (n mod 10))%string.

Definition day_field (day : Z) : string :=
  ((if (day <? 10)%Z then "  " else " ") ++ digits day)%string.

(** [ctime_r] of the GNU C library in the time zone UTC.  The time is
    broken down, which fails when the year does not fit an [int]; the text
    ["%.3s %.3s%3d %.2d:%.2d:%.2d %d\n"] is then printed into the 26 bytes
    [ctime_r] is entitled to, so that of a text of 26 characters or more
    the first 25 are written. *)
Definition utc_ctime_r (t : Z) : option string :=
  let days := t / 86400 in
  let secs := t mod 86400 in
  let '(year, month, day) := civil days in
  if (year - 1900 <? - 2 ^ 31) || (2 ^ 31 <=? year) then None
  else
    Some (substring 0 25
            (default EmptyString (weekday_names !! Z.to_nat ((days + 4) mod 7))
             ++ " "
             ++ default EmptyString (month_names !! Z.to_nat (month - 1))
             ++ day_field day ++ " "
             ++ two_digits (secs / 3600) ++ ":"
             ++ two_digits (secs / 60 mod 60) ++ ":"
             ++ two_digits (secs mod 60) ++ " "
             ++ digits year ++ String LF EmptyString)%string).

Definition linux_libc : Libc :=
  {| EINTR := 4; EINTR_pos := eq_refl;
     strerror := linux_strerror; ctime_r := utc_ctime_r |}.

(** Strings of decimal digits convert to numbers, no other string does. *)
Definition digit (c : ascii) : option Z :=
  let n := Z.of_N (N_of_ascii c) in
  if (48 <=? n) && (n <=? 57) then Some (n - 48) else None.

Fixpoint decimal (acc : Z) (s : string) : option Z :=
  match s with
  | EmptyString => Some acc
  | String c rest =>
      match digit c with
      | Some d => decimal (10 * acc + d) rest
      | None => None
      end
  end.

Definition decimal_lua : LuaRuntime :=
  {| str2number := fun s =>
       match s with
       | EmptyString => None
       | _ => decimal 0 s
       end |}.

(** Little-endian integers, as 9P puts them on the wire. *)
Fixpoint le_value (bs : list ascii) : Z :=
  match bs with
  | [] => 0
  | b :: rest => Z.of_N (N_of_ascii b) + 256 * le_value rest
  end.

Fixpoint le_bytes (width : nat) (n : Z) : list ascii :=
  match width with
  | O => []
  | S w => ascii_of_N (Z.to_N (n mod 256)) :: le_bytes w (n / 256)
  end.

(** The length a record declares for itself: the two-byte size at the
    cursor.  The record runs past the limit of the context when the size
    field and the bytes it announces do not fit before [m_end]. *)
Definition declared_size (mem : list ascii) (msg : IxpMsg) : Z :=
  le_value (take 2 (drop (Z.to_nat (m_pos msg)) mem)).

Definition runs_past_end (mem : list ascii) (msg : IxpMsg) : bool :=
  m_end msg <? m_pos msg + 2 + declared_size mem msg.

(** A decoder of the 9P2000 stat layout
    [size[2] type[2] dev[4] qid[13] mode[4] atime[4] mtime[4] length[8]
     name[s] uid[s] gid[s] muid[s]]
    with the bounds-checked readers of libixp: a field is stored only when
    it lies before the limit and is left as it was otherwise, and the
    cursor moves past it in any case.  A string is copied and terminated,
    so that as a C string it ends at its first NUL; its length is read
    into a local variable that is not initialised, and [junk_len] is what
    that variable holds when the length lies behind the limit.  The decoder
    stands for libixp's in the examples; the theorems hold for every
    [ixp_pstat]. *)
Definition advance (msg : IxpMsg) (n : Z) : IxpMsg :=
  {| m_pos := m_pos msg + n; m_end := m_end msg; m_size := m_size msg |}.

Definition window (mem : list ascii) (msg : IxpMsg) (n : Z) : option (list ascii) :=
  if (0 <=? m_pos msg) && (0 <=? n) && (m_pos msg + n <=? m_end msg)
  then Some (take (Z.to_nat n) (drop (Z.to_nat (m_pos msg)) mem))
  else None.

Definition pu (width : Z) (mem : list ascii) (msg : IxpMsg) (old : Z)
  : IxpMsg * Z :=
  (advance msg width, default old (le_value <$> window mem msg width)).

Definition pstring (junk_len : Z) (mem : list ascii) (msg : IxpMsg)
    (old : char_p) : IxpMsg * char_p :=
  let '(msg, len) := pu 2 mem msg junk_len in
  (advance msg len,
   default old
     ((fun text => Str (default EmptyString (c_str (text ++ [NUL]))))
        <$> window mem msg len)).

Definition pstat_9p (junk_len : Z) (mem : list ascii) (msg : IxpMsg)
    (stat : IxpStat) : IxpMsg * IxpStat :=
  let '(msg, _) := pu 2 mem msg 0 in
  let '(msg, type) := pu 2 mem msg (st_type stat) in
  let '(msg, dev) := pu 4 mem msg (st_dev stat) in
  let '(msg, _) := pu 13 mem msg 0 in
  let '(msg, mode) := pu 4 mem msg (st_mode stat) in
  let '(msg, atime) := pu 4 mem msg (st_atime stat) in
  let '(msg, mtime) := pu 4 mem msg (st_mtime stat) in
  let '(msg, len) := pu 8 mem msg (st_length stat) in
  let '(msg, name) := pstring junk_len mem msg (st_name stat) in
  let '(msg, uid) := pstring junk_len mem msg (st_uid stat) in
  let '(msg, gid) := pstring junk_len mem msg (st_gid stat) in
  let '(msg, muid) := pstring junk_len mem msg (st_muid stat) in
  (msg, {| st_type := type; st_dev := dev; st_mode := mode;
           st_atime := atime; st_mtime := mtime;
           st_behind_mtime := st_behind_mtime stat; st_length := len;
           st_name := name; st_uid := uid; st_gid := gid; st_muid := muid |}).

(** libixp with this decoder, on a stack where the length of a string
    that is not read holds 0. *)
Definition wire_9p : Libixp :=
  {| P9_DMDIR := 0x80000000; ixp_pstat := pstat_9p 0 |}.

(** The wire form of a record, for the examples. *)
Definition pointee (s : char_p) : string :=
  match s with
  | Str text => text
  | _ => EmptyString
  end.

Definition pack_string (s : string) : list ascii :=
  le_bytes 2 (Z.of_nat (String.length s)) ++ list_ascii_of_string s.

Definition pack_stat (st : IxpStat) : list ascii :=
  let body :=
    le_bytes 2 (st_type st) ++ le_bytes 4 (st_dev st) ++ le_bytes 13 0
    ++ le_bytes 4 (st_mode st) ++ le_bytes 4 (st_atime st)
    ++ le_bytes 4 (st_mtime st) ++ le_bytes 8 (st_length st)
    ++ pack_string (pointee (st_name st)) ++ pack_string (pointee (st_uid st))
    ++ pack_string (pointee (st_gid st)) ++ pack_string (pointee (st_muid st)) in
  le_bytes 2 (Z.of_nat (length body)) ++ body.

Definition bytes (s : string) : list ascii := list_ascii_of_string s.

(** ** Scenarios *)

(** A record with the mode bits [mode]; everything else at rest. *)
Definition stat_with_mode (mode : Z) : IxpStat :=
  {| st_type := 0; st_dev := 0; st_mode := mode;
     st_atime := 0; st_mtime := 0; st_behind_mtime := 0; st_length := 0;
     st_name := Str "a"; st_uid := Str "u"; st_gid := Str "g";
     st_muid := Str "m" |}.

(** An automatic [IxpStat] that was never written: every number with all
    its bits set, every pointer indeterminate. *)
Definition wild_stack : IxpStat :=
  {| st_type := 2 ^ 16 - 1; st_dev := 2 ^ 32 - 1; st_mode := 2 ^ 32 - 1;
     st_atime := 2 ^ 32 - 1; st_mtime := 2 ^ 32 - 1;
     st_behind_mtime := 2 ^ 32 - 1; st_length := 2 ^ 64 - 1;
     st_name := Wild; st_uid := Wild; st_gid := Wild; st_muid := Wild |}.

(** An automatic [IxpStat] on a part of the stack that holds zeros. *)
Definition zero_stack : IxpStat :=
  {| st_type := 0; st_dev := 0; st_mode := 0; st_atime := 0; st_mtime := 0;
     st_behind_mtime := 0; st_length := 0;
     st_name := Null; st_uid := Null; st_gid := Null; st_muid := Null |}.

(** The static buffer of [pushstat] before its first use. *)
Definition static_buf : list ascii := replicate 32 NUL.

(** The mode bits 0755 and 0644 (octal). *)
Definition mode_0755 : Z := 7 * 64 + 5 * 8 + 5.
Definition mode_0644 : Z := 6 * 64 + 4 * 8 + 4.
Definition mode_dir_0755 : Z := Z.lor (@P9_DMDIR wire_9p) mode_0755.

(** An automatic [IxpStat] that holds what an earlier call decoded there:
    the record of a file [old] of 12 bytes, last modified a day after the
    epoch. *)
Definition earlier_record : IxpStat :=
  {| st_type := 7; st_dev := 9; st_mode := mode_0644; st_atime := 5;
     st_mtime := 86400; st_behind_mtime := 0; st_length := 12;
     st_name := Str "old"; st_uid := Str "u"; st_gid := Str "g";
     st_muid := Str "m" |}.

(** The values a call hands back to Lua. *)
Definition values_of {C E : Type} (o : outcome (list lua_value * C * E))
  : outcome (list lua_value) :=
  '(values, _, _) ← o; Ok values.

(** The reader state a call leaves. *)
Definition state_of {C E : Type} (o : outcome (list lua_value * C * E))
  : outcome C :=
  '(_, ctx, _) ← o; Ok ctx.

(** The next call of the line iterator refills: no buffer yet (and [malloc]
    will not fail), or nothing left in it. *)
Definition refill_due (w : c_world) (ctx : l_ixp_iread_s) : Prop :=
  match buf ctx with
  | None => malloc_fails w = false
  | Some _ => buf_len ctx = 0
  end.

(** The reader over the same buffer with another handle state. *)
Definition with_fid (ctx : l_ixp_iread_s) (f : IxpCFid) : l_ixp_iread_s :=
  {| fid := Some f; buf := buf ctx; buf_pos := buf_pos ctx;
     buf_len := buf_len ctx; buf_size := buf_size ctx |}.

(** The values of each call of a run. *)
Definition yields {C : Type} (o : outcome (list (list lua_value) * C))
  : outcome (list (list lua_value)) :=
  '(values, _) ← o; Ok values.

(** The calls a call makes. *)
Definition calls_of {C : Type} (o : outcome (list lua_value * C * list effect))
  : outcome (list effect) :=
  '(_, _, calls) ← o; Ok calls.

(** The capacity of the buffer once the call has allocated it. *)
Definition capacity (ctx : l_ixp_iread_s) : Z :=
  match buf ctx, fid ctx with
  | None, Some f => size_t (iounit f)
  | _, _ => buf_size ctx
  end.

(** A world whose [malloc] succeeds and hands out blocks of 'x'. *)
Definition calm : c_world :=
  {| errno := 0; malloc_fails := false; junk := fun _ => "x"%char |}.

(** The line reader [l_ixp_iread] creates over a handle of chunk size [n]
    that will give the replies [rs]. *)
Definition fresh_reader (n : Z) (rs : list read_reply) : l_ixp_iread_s :=
  {| fid := Some {| iounit := n; replies := rs |}; buf := None;
     buf_pos := 0; buf_len := 0; buf_size := 0 |}.

(** The same with chunk size 16. *)
Definition reader_over (rs : list read_reply) : l_ixp_iread_s :=
  fresh_reader 16 rs.

(** A line reader in use: a handle of chunk size [n] with the replies [rs]
    to come, a buffer of [n] bytes holding [mem], the consumed offset and
    the valid length. *)
Definition reader (n : Z) (rs : list read_reply) (mem : list ascii)
    (pos len : Z) : l_ixp_iread_s :=
  {| fid := Some {| iounit := n; replies := rs |}; buf := Some mem;
     buf_pos := pos; buf_len := len; buf_size := n |}.

(** A fresh line reader over a handle of chunk size [n] whose reads return
    "a\nbb\n", then "ccc", then 0 bytes. *)
Definition three_reads (n : Z) : l_ixp_iread_s :=
  fresh_reader n [Bytes (bytes "a" ++ [LF] ++ bytes "bb" ++ [LF]);
                  Bytes (bytes "ccc"); Bytes []].

(** The bytes a handle delivers: the data of its replies, in order. *)
Fixpoint delivered (rs : list read_reply) : list ascii :=
  match rs with
  | [] => []
  | Bytes data :: rest => data ++ delivered rest
  | Failure _ :: rest => delivered rest
  end.

(** The lines of a run put together again, up to the end of the
    iteration; [stripped] tells for each line whether a delimiter is put
    back behind it. *)
Fixpoint reassemble (run : list (list lua_value)) (stripped : list bool)
  : list ascii :=
  match run with
  | [LString line] :: later =>
      list_ascii_of_string line
      ++ (if default false (head stripped) then [LF] else [])
      ++ reassemble later (tail stripped)
  | _ => []
  end.

(** The invariant of the line reader state. *)
Definition iread_invariant (ctx : l_ixp_iread_s) : Prop :=
  0 <= buf_pos ctx /\ 0 <= buf_len ctx
  /\ buf_pos ctx + buf_len ctx <= buf_size ctx.

(** The replies "ab\0cd\n", then "xyz". *)
Definition nul_then_short : list read_reply :=
  [Bytes (bytes "ab" ++ [NUL] ++ bytes "cd" ++ [LF]); Bytes (bytes "xyz")].

(** A reader that has returned the line "x" of the read
    "x\nab\0cd\n" and still holds the 6 bytes "ab\0cd\n" at offset 2. *)
Definition nul_buffered : l_ixp_iread_s :=
  reader 16 []
    (bytes "x" ++ [NUL] ++ bytes "ab" ++ [NUL] ++ bytes "cd" ++ [LF]
     ++ replicate 8 "x"%char) 2 6.

(** The reply "ab\0cd\nef\n". *)
Definition nul_before_newline : list read_reply :=
  [Bytes (bytes "ab" ++ [NUL] ++ bytes "cd" ++ [LF] ++ bytes "ef" ++ [LF])].

(** A record cut short: the first 20 bytes of a 53-byte record. *)
Definition truncated_record : list ascii :=
  take 20 (pack_stat (stat_with_mode mode_dir_0755)).

(** A directory handle of chunk size 128 that will give the replies [rs]. *)
Definition dir_handle (rs : list read_reply) : IxpCFid :=
  {| iounit := 128; replies := rs |}.

(** The directory reader [l_ixp_idir] creates over [dir_handle rs] in the
    world [calm]. *)
Definition dir_reader (rs : list read_reply) : l_ixp_idir_s :=
  {| d_fid := Some (dir_handle rs); d_buf := Some (replicate 128 "x"%char);
     m := {| m_pos := 0; m_end := 0; m_size := 0 |} |}.

(** One whole record on the wire (53 bytes). *)
Definition whole_record : list ascii :=
  pack_stat (stat_with_mode mode_dir_0755).

(** The cursor behind a whole record, in a context of 73 bytes. *)
Definition second_record : IxpMsg :=
  {| m_pos := 53; m_end := 73; m_size := 73 |}.

(** A directory reader that has returned the first record of a read of a
    whole record followed by one cut short. *)
Definition at_second_record : l_ixp_idir_s :=
  {| d_fid := Some (dir_handle []);
     d_buf := Some (whole_record ++ truncated_record);
     m := second_record |}.

(** Lines put on the wire, each followed by its delimiter. *)
Fixpoint terminated (lines : list (list ascii)) : list ascii :=
  match lines with
  | [] => []
  | line :: later => line ++ LF :: terminated later
  end.

(** A line of text: no delimiter and no NUL in it. *)
Definition clean (line : list ascii) : Prop := (LF ∉ line) /\ (NUL ∉ line).

(** The values the iterator returns for these lines, one call each. *)
Definition line_values (lines : list (list ascii)) : list (list lua_value) :=
  map (fun line => [LString (string_of_list_ascii line)]) lines.

(** A read of whole clean lines that fits a buffer of [n] bytes and whose
    size is not [EINTR]. *)
Definition chunk_ok `{Libc} (n : Z) (lines : list (list ascii)) : Prop :=
  lines <> [] /\ Forall clean lines
  /\ Z.of_nat (length (terminated lines)) <= n
  /\ Z.of_nat (length (terminated lines)) <> EINTR.

(** The replies of a handle that delivers these reads. *)
Definition chunk_replies (chunks : list (list (list ascii))) : list read_reply :=
  map (fun lines => Bytes (terminated lines)) chunks.

(** ** The one-shot operations (luaixp.c, [write_data] .. [l_ixp_stat]) *)

(** The errno value [write_data] answers with when a write claims more
    bytes than it was given. *)
Class WriteErrno : Type := {
  ENXIO : Z;
  ENXIO_pos : 0 < ENXIO;
}.

Definition linux_enxio : WriteErrno := {| ENXIO := 6; ENXIO_pos := eq_refl |}.

(** One call of [ixp_write]: the bytes offered and the count returned. *)
Record write_call : Type := {
  offered : list ascii;
  returned : Z;
}.

(** The bytes the transport took in a sequence of calls: of each call that
    returned a count within what was offered, the first [returned]
    bytes. *)
Fixpoint accepted (calls : list write_call) : list ascii :=
  match calls with
  | [] => []
  | c :: later =>
      (if (0 <=? returned c) && (returned c <=? Z.of_nat (length (offered c)))
       then take (Z.to_nat (returned c)) (offered c) else [])
      ++ accepted later
  end.

(** [realloc (mem, n)]: fail, or a block of [n] bytes that starts with the
    bytes of [mem] and goes on with the junk of [w]. *)
Definition realloc (w : c_world) (mem : list ascii) (n : Z) : option (list ascii) :=
  if malloc_fails w then None
  else Some (take (Z.to_nat n) mem
             ++ map (junk w) (seq (length mem) (Z.to_nat n - length mem))).

Section OneShot.
Context {libc : Libc} {libixp : Libixp} {werr : WriteErrno}.

(** The [while (left)] loop of [write_data], from the offset [ofs] with
    [left] bytes to go.  libixp's [ixp_write] is a parameter: [script]
    holds the counts its coming calls on the handle return (a count of
    bytes taken, or a negative error).  The result is the value returned,
    the calls made and the counts not used; [None] when the script ends
    while bytes are left. *)
Fixpoint write_loop (script : list Z) (data : list ascii) (data_len ofs left : Z)
  : option (Z * list write_call * list Z) :=
  if left =? 0 then Some (int data_len, [], script)
  else
    match script with
    | [] => None
    | rc :: script =>
        let call := {| offered := take (Z.to_nat left) (drop (Z.to_nat ofs) data);
                       returned := rc |} in
        if rc <? 0 then Some (rc, [call], script)
        else if left <? rc then Some (- ENXIO, [call], script)
        else
          match write_loop script data data_len (ofs + rc) (size_t (left - rc)) with
          | Some (result, calls, script) => Some (result, call :: calls, script)
          | None => None
          end
    end.

(** [write_data (fid, data, data_len)], [data_len] being the length of
    [data]. *)
Definition write_data (script : list Z) (data : list ascii)
  : option (Z * list write_call * list Z) :=
  let data_len := size_t (Z.of_nat (length data)) in
  write_loop script data data_len 0 data_len.

(** [l_ixp_write]: [opened] is what [ixp_open] returned, [data] the string
    argument.  The result is the values returned to Lua, the writes made
    and the other calls. *)
Definition l_ixp_write (w : c_world) (opened : option IxpCFid)
    (script : list Z) (data : list ascii)
  : option (list lua_value * list write_call * list effect) :=
  match opened with
  | None => Some (pusherror w (Some "count not open p9 file"%string), [], [])
  | Some f =>
      match write_data script data with
      | None => None
      | Some (rc, writes, _) =>
          if rc <? 0
          then Some (pusherror w (Some "failed to write to p9 file"%string),
                     writes, [CallClose (Some f)])
          else Some ([], writes, [CallClose (Some f)])
      end
  end.

(** [l_ixp_create]: [made] is what [ixp_create] returned, the handle with
    the type byte of its qid; [data] is the optional string argument
    ([None] when absent). *)
Definition l_ixp_create (w : c_world) (made : option (IxpCFid * Z))
    (script : list Z) (data : option (list ascii))
  : option (list lua_value * list write_call * list effect) :=
  match made with
  | None => Some (pusherror w (Some "count not create file"%string), [], [])
  | Some (f, qid_type) =>
      match data with
      | Some bytes =>
          if negb (Z.of_nat (length bytes) =? 0)
             && (Z.land qid_type P9_DMDIR =? 0)
          then
            match write_data script bytes with
            | None => None
            | Some (rc, writes, _) =>
                if rc <? 0
                then Some (pusherror w (Some "failed to write to p9 file"%string),
                           writes, [CallClose (Some f)])
                else Some ([], writes, [CallClose (Some f)])
            end
          else Some ([], [], [CallClose (Some f)])
      | None => Some ([], [], [CallClose (Some f)])
      end
  end.

(** The end of [l_ixp_read]: [ixp_close], then the C string at the start of
    the buffer is pushed. *)
Definition read_finish (f : IxpCFid) (mem : list ascii) (calls : list effect)
  : outcome (list lua_value * list effect) :=
  line ← defined (c_str mem);
  Ok ([LString line], calls ++ [CallClose (Some f)]).

(** The [for (;;)] loop of [l_ixp_read], at most [fuel] times round.  [w]
    is the world at [malloc], [wr] the world at [realloc].  [None] when
    the fuel runs out. *)
Fixpoint read_loop (fuel : nat) (w wr : c_world) (f : IxpCFid)
    (mem : list ascii) (buf_ofs buf_size buf_left : Z) (calls : list effect)
  : option (outcome (list lua_value * list effect)) :=
  match fuel with
  | O => None
  | S fuel =>
      let '(f, written, rc) := ixp_read f (drop (Z.to_nat buf_ofs) mem) buf_left in
      let mem := take (Z.to_nat buf_ofs) mem ++ written in
      let calls := calls ++ [CallRead buf_left] in
      if rc =? 0 then Some (read_finish f mem calls)
      else if rc <? 0 then
        Some (Ok (pusherror w (Some "failed to read from p9 file"%string),
                  calls ++ [CallClose (Some f)]))
      else
        let buf_ofs := size_t (buf_ofs + rc) in
        let buf_left := size_t (buf_left - rc) in
        if buf_size <=? buf_ofs then
          Some (Ok (pusherror w (Some "internal error while reading"%string),
                    calls))
        else if 4096 <=? buf_size then Some (read_finish f mem calls)
        else
          match realloc wr mem 4096 with
          | None =>
              Some (Ok (pusherror wr (Some "count not allocate memory"%string),
                        calls ++ [CallClose (Some f)]))
          | Some mem => read_loop fuel w wr f mem buf_ofs 4096 buf_left calls
          end
  end.

(** [l_ixp_read]: [opened] is what [ixp_open] returned.  The result is the
    values returned to Lua and the calls made. *)
Definition l_ixp_read (fuel : nat) (w wr : c_world) (opened : option IxpCFid)
  : option (outcome (list lua_value * list effect)) :=
  match opened with
  | None => Some (Ok (pusherror w (Some "count not open p9 file"%string), []))
  | Some f =>
      match malloc w (iounit f) with
      | None =>
          Some (Ok (pusherror w (Some "count not allocate memory"%string),
                    [CallClose (Some f)]))
      | Some mem =>
          read_loop fuel w wr f mem 0 (size_t (iounit f)) (size_t (iounit f)) []
      end
  end.

(** [l_ixp_stat]: [found] is what [ixp_stat] returned; the record is given
    back with [ixp_freestat] once it is projected. *)
Definition l_ixp_stat (w : c_world) (sbuf : list ascii) (found : option IxpStat)
  : outcome (list lua_value * list ascii) :=
  match found with
  | None => Ok (pusherror w (Some "cannot stat file"%string), sbuf)
  | Some stat =>
      '(table, sbuf) ← pushstat sbuf stat;
      Ok ([table], sbuf)
  end.

End OneShot.

(** The table of a projection. *)
Definition table_of (o : outcome (lua_value * list ascii)) : outcome lua_value :=
  '(table, _) ← o; Ok table.

(** The directory iterator decodes the records [stats] one after the
    other in the buffer [mem], from the cursor [msg] to the cursor [last],
    each of them starting before the limit, in calls whose variable [stat]
    holds the elements of [stacks] when they start. *)
Inductive decodes `{Libixp} (mem : list ascii)
  : IxpMsg -> list IxpStat -> list IxpStat -> IxpMsg -> Prop :=
| decodes_nil (msg : IxpMsg) : decodes mem msg [] [] msg
| decodes_cons (msg next last : IxpMsg) (stack stat : IxpStat)
    (stacks stats : list IxpStat) :
    m_pos msg < m_end msg ->
    ixp_pstat mem msg stack = (next, stat) ->
    decodes mem next stacks stats last ->
    decodes mem msg (stack :: stacks) (stat :: stats) last.

(** The tables of the records [stats], each projected on its own from the
    static buffer as it is before its first use. *)
Fixpoint stat_tables `{Libc} `{Libixp} (stats : list IxpStat)
  : outcome (list (list lua_value)) :=
  match stats with
  | [] => Ok []
  | stat :: later =>
      table ← table_of (pushstat static_buf stat);
      tables ← stat_tables later;
      Ok ([table] :: tables)
  end.

(** A world whose [malloc] succeeds and hands out zeroed blocks. *)
Definition zeroed : c_world :=
  {| errno := 0; malloc_fails := false; junk := fun _ => NUL |}.

(** * Properties *)

(** ** The permission string *)

Lemma group_cases (x : Z) :
  0 <= x < 8 ->
  x = 0 \/ x = 1 \/ x = 2 \/ x = 3 \/ x = 4 \/ x = 5 \/ x = 6 \/ x = 7.
Proof. lia. Qed.

Lemma group_range (x : Z) : 0 <= Z.land x 7 < 8.
Proof.
  split.
  - apply Z.land_nonneg. now right.
  - change 7 with (Z.ones 3). rewrite Z.land_ones by lia.
    apply Z.mod_pos_bound. lia.
Qed.

Section Modestr.
Context {libixp : Libixp}.

(** C1, as the code has it: for every record and every 32-byte static
    buffer the string pushed as [modestr] has the layout [modestr_layout]:
    11 characters, 'd' or '-' at position 0, a fixed '-' at position 1, the
    owner, group and other templates at positions 2-4, 5-7 and 8-10. *)
Theorem build_modestr_layout (sbuf : list ascii) (stat : IxpStat) :
  length sbuf = 32%nat ->
  modestr_pushed sbuf stat = Ok (modestr_layout (st_mode stat))
  /\ String.length (modestr_layout (st_mode stat)) = 11%nat.
Proof.
  intros Hlen.
  do 32 (destruct sbuf as [|? sbuf]; [discriminate Hlen|]).
  destruct sbuf; [clear Hlen|discriminate Hlen].
  unfold modestr_pushed, build_modestr, modestr_layout.
  assert (H6 := group_range (Z.shiftr (st_mode stat) 6)).
  assert (H3 := group_range (Z.shiftr (st_mode stat) 3)).
  assert (H0 := group_range (st_mode stat)).
  rewrite Z.shiftr_0_r.
  destruct (group_cases _ H6) as [->|[->|[->|[->|[->|[->|[->| ->]]]]]]];
  destruct (group_cases _ H3) as [->|[->|[->|[->|[->|[->|[->| ->]]]]]]];
  destruct (group_cases _ H0) as [->|[->|[->|[->|[->|[->|[->| ->]]]]]]];
  destruct (Z.land (st_mode stat) P9_DMDIR =? 0); split; reflexivity.
Qed.

End Modestr.

(** C1, witness: mode 0755 with the directory bit gives "d-rwxr-xr-x",
    mode 0644 without it "--rw-r--r--". *)
Lemma build_modestr_layout_witness :
  length static_buf = 32%nat
  /\ modestr_pushed (libixp := wire_9p) static_buf
       (stat_with_mode mode_dir_0755) = Ok "d-rwxr-xr-x"%string
  /\ modestr_pushed (libixp := wire_9p) static_buf
       (stat_with_mode mode_0644) = Ok "--rw-r--r--"%string.
Proof.
  split; [reflexivity|]. split.
  - exact (proj1 (build_modestr_layout (libixp := wire_9p) static_buf
                    (stat_with_mode mode_dir_0755) eq_refl)).
  - exact (proj1 (build_modestr_layout (libixp := wire_9p) static_buf
                    (stat_with_mode mode_0644) eq_refl)).
Defined.

(** C1, as stated, fails: the strings have 11 characters, with a '-'
    between the directory character and the owner template. *)
Lemma build_modestr_counterexample :
  modestr_pushed (libixp := wire_9p) static_buf
    (stat_with_mode mode_dir_0755) <> Ok "drwxr-xr-x"%string
  /\ modestr_pushed (libixp := wire_9p) static_buf
       (stat_with_mode mode_0644) <> Ok "-rw-r--r--"%string.
Proof. split; vm_compute; discriminate. Qed.

(** ** The line iterator: one call *)

Lemma ixp_read_failure (f : IxpCFid) (mem : list ascii) (count rc : Z)
    (rest : list read_reply) :
  replies f = Failure rc :: rest ->
  ixp_read f mem count = (with_replies f rest, mem, rc).
Proof. intros H. unfold ixp_read. now rewrite H. Qed.

Lemma ixp_read_eof (f : IxpCFid) (mem : list ascii) (count : Z) :
  replies f = [] -> ixp_read f mem count = (f, mem, 0).
Proof. intros H. unfold ixp_read. now rewrite H. Qed.

Lemma ixp_read_bytes (f : IxpCFid) (mem data : list ascii) (count : Z)
    (rest : list read_reply) :
  replies f = Bytes data :: rest ->
  Z.of_nat (length data) <= count ->
  ixp_read f mem count
  = (with_replies f rest, data ++ drop (length data) mem, Z.of_nat (length data)).
Proof.
  intros H Hle. unfold ixp_read. rewrite H.
  rewrite Z.min_l by lia. rewrite Nat2Z.id.
  rewrite drop_all, firstn_all. reflexivity.
Qed.

(** *** C strings in a block *)

Lemma at_offset_ok (mem : list ascii) (off : Z) :
  0 <= off <= Z.of_nat (length mem) ->
  at_offset mem off = Ok (drop (Z.to_nat off) mem).
Proof.
  intros H. unfold at_offset.
  destruct (Z.ltb_spec off 0); [lia|].
  destruct (Z.ltb_spec (Z.of_nat (length mem)) off); [lia|reflexivity].
Qed.

Lemma strchr_found_lt (s : list ascii) (c : ascii) (k : nat) :
  strchr s c = Found k -> (k < length s)%nat.
Proof.
  revert k. induction s as [|x s IH]; intros k; simpl; [discriminate|].
  destruct (Ascii.eqb x c).
  - intros [= <-]. lia.
  - destruct (Ascii.eqb x NUL); [discriminate|].
    destruct (strchr s c) as [j| |]; try discriminate.
    intros [= <-]. specialize (IH j eq_refl). lia.
Qed.

(** Once the delimiter found by [strchr] is overwritten with a NUL, the C
    string at [s] is the bytes before the delimiter. *)
Lemma strchr_found_c_str (s : list ascii) (k : nat) :
  strchr s LF = Found k ->
  c_str (<[k := NUL]> s) = Some (string_of_list_ascii (take k s)).
Proof.
  revert k. induction s as [|x s IH]; intros k; simpl; [discriminate|].
  destruct (Ascii.eqb x LF) eqn:Elf.
  - intros [= <-]. reflexivity.
  - destruct (Ascii.eqb x NUL) eqn:Enul; [discriminate|].
    destruct (strchr s LF) as [j| |]; try discriminate.
    intros [= <-]. simpl. rewrite Enul, (IH j eq_refl). reflexivity.
Qed.

(** When [strchr] meets a NUL first, the C string at [s] ends there, before
    any delimiter. *)
Lemma strchr_nomatch_c_str (s : list ascii) :
  strchr s LF = NoMatch ->
  exists line rest,
    s = line ++ NUL :: rest
    /\ c_str s = Some (string_of_list_ascii line)
    /\ (LF ∉ line) /\ (NUL ∉ line).
Proof.
  induction s as [|x s IH]; simpl; [discriminate|].
  destruct (Ascii.eqb_spec x LF) as [->|Hlf]; [discriminate|].
  destruct (Ascii.eqb_spec x NUL) as [->|Hnul].
  - intros _. exists [], s. repeat split; try reflexivity; apply not_elem_of_nil.
  - destruct (strchr s LF) as [j| |]; try discriminate.
    intros _. destruct (IH eq_refl) as (line & rest & -> & Hc & H1 & H2).
    exists (x :: line), rest. rewrite Hc. repeat split.
    + intros [?|?]%elem_of_cons; congruence.
    + intros [?|?]%elem_of_cons; congruence.
Qed.

(** Conversely, a NUL before any delimiter hides the delimiter from
    [strchr]. *)
Lemma strchr_nul_first (line rest : list ascii) :
  LF ∉ line -> NUL ∉ line ->
  strchr (line ++ NUL :: rest) LF = NoMatch
  /\ c_str (line ++ NUL :: rest) = Some (string_of_list_ascii line).
Proof.
  induction line as [|x line IH]; intros H1 H2; simpl; [split; reflexivity|].
  apply not_elem_of_cons in H1 as [Hx1 H1].
  apply not_elem_of_cons in H2 as [Hx2 H2].
  destruct (IH H1 H2) as [-> ->].
  destruct (Ascii.eqb_spec x LF); [congruence|].
  destruct (Ascii.eqb_spec x NUL); [congruence|].
  split; reflexivity.
Qed.

(** *** Whole lines *)

Lemma strchr_clean (line rest : list ascii) :
  clean line -> strchr (line ++ LF :: rest) LF = Found (length line).
Proof.
  intros [H1 H2]. induction line as [|x line IH]; simpl; [reflexivity|].
  apply not_elem_of_cons in H1 as [Hx1 H1].
  apply not_elem_of_cons in H2 as [Hx2 H2].
  destruct (Ascii.eqb_spec x LF); [congruence|].
  destruct (Ascii.eqb_spec x NUL); [congruence|].
  now rewrite (IH H1 H2).
Qed.

Lemma int_small (x : Z) : - 2 ^ 31 <= x < 2 ^ 31 -> int x = x.
Proof. intros H. unfold int. rewrite Z.mod_small; lia. Qed.

(** Lengths of appended lists, for [lia]. *)
Ltac lens :=
  rewrite ?length_app in *; cbn [length] in *;
  rewrite ?length_app in *; cbn [length] in *; lia.

Lemma terminated_app (xs ys : list (list ascii)) :
  terminated (xs ++ ys) = terminated xs ++ terminated ys.
Proof.
  induction xs as [|x xs IH]; [reflexivity|].
  simpl. now rewrite IH, <- app_assoc.
Qed.

Lemma delivered_chunks (chunks : list (list (list ascii))) :
  delivered (chunk_replies chunks) = terminated (concat chunks).
Proof.
  induction chunks as [|c chunks IH]; [reflexivity|].
  simpl. now rewrite IH, terminated_app.
Qed.

Lemma reassemble_lines (lines : list (list ascii)) :
  reassemble (line_values lines ++ [[]]) (replicate (length lines) true)
  = terminated lines.
Proof.
  induction lines as [|l lines IH]; [reflexivity|].
  simpl. now rewrite IH, list_ascii_of_string_of_list_ascii.
Qed.

Section LineIterator.
Context {libc : Libc} {lua : LuaRuntime}.

(** The split of a buffer in which [strchr] finds a delimiter. *)
Lemma iread_split_found (ctx : l_ixp_iread_s) (mem : list ascii)
    (calls : list effect) (k : nat) :
  0 <= buf_pos ctx <= Z.of_nat (length mem) ->
  strchr (drop (Z.to_nat (buf_pos ctx)) mem) LF = Found k ->
  iread_split ctx mem calls
  = Ok ([LString (string_of_list_ascii
                    (take k (drop (Z.to_nat (buf_pos ctx)) mem)))],
        {| fid := fid ctx;
           buf := Some (<[(Z.to_nat (buf_pos ctx) + k)%nat := NUL]> mem);
           buf_pos := size_t (buf_pos ctx + int (Z.of_nat k + 1));
           buf_len := size_t (buf_len ctx - int (Z.of_nat k + 1));
           buf_size := buf_size ctx |},
        calls).
Proof.
  intros Hpos Hfound. unfold iread_split.
  rewrite at_offset_ok by exact Hpos. simpl. rewrite Hfound.
  pose proof (strchr_found_lt _ _ _ Hfound) as Hk.
  rewrite length_drop in Hk.
  unfold poke.
  destruct (Nat.ltb_spec (Z.to_nat (buf_pos ctx) + k) (length mem)); [|lia].
  simpl. rewrite at_offset_ok by (rewrite length_insert; exact Hpos). simpl.
  rewrite drop_insert_ge by lia.
  replace (Z.to_nat (buf_pos ctx) + k - Z.to_nat (buf_pos ctx))%nat with k by lia.
  rewrite (strchr_found_c_str _ _ Hfound). reflexivity.
Qed.

(** The split of a buffer in which [strchr] meets a NUL first. *)
Lemma iread_split_nomatch (ctx : l_ixp_iread_s) (mem : list ascii)
    (calls : list effect) (line : string) :
  0 <= buf_pos ctx <= Z.of_nat (length mem) ->
  strchr (drop (Z.to_nat (buf_pos ctx)) mem) LF = NoMatch ->
  c_str (drop (Z.to_nat (buf_pos ctx)) mem) = Some line ->
  iread_split ctx mem calls
  = Ok ([LString line],
        {| fid := fid ctx; buf := Some mem; buf_pos := buf_pos ctx;
           buf_len := 0; buf_size := buf_size ctx |},
        calls).
Proof.
  intros Hpos Hno Hline. unfold iread_split.
  rewrite at_offset_ok by exact Hpos. simpl. rewrite Hno, Hline. reflexivity.
Qed.

(** A refill whose read returns [n > 0] bytes, [n] not [EINTR]: the buffer
    is split with [n] valid bytes from offset 0. *)
Lemma iread_refill_bytes (t : Z) (ctx : l_ixp_iread_s) (f : IxpCFid)
    (mem data : list ascii) (rest : list read_reply) :
  fid ctx = Some f ->
  replies f = Bytes data :: rest ->
  0 < Z.of_nat (length data) <= buf_size ctx ->
  Z.of_nat (length data) <> EINTR ->
  iread_refill t ctx mem
  = iread_split {| fid := Some (with_replies f rest);
                   buf := Some (data ++ drop (length data) mem);
                   buf_pos := 0;
                   buf_len := size_t (Z.of_nat (length data));
                   buf_size := buf_size ctx |}
      (data ++ drop (length data) mem) (refill_calls t (buf_size ctx)).
Proof.
  intros Hfid Hrep Hn He. unfold iread_refill. rewrite Hfid. simpl.
  rewrite (ixp_read_bytes f mem data (buf_size ctx) rest Hrep) by lia.
  destruct (Z.eqb_spec (Z.of_nat (length data)) EINTR); [contradiction|].
  destruct (Z.leb_spec (Z.of_nat (length data)) 0); [lia|reflexivity].
Qed.

Lemma optnumber_number (t : Z) (rest : lua_stack) :
  luaL_optnumber (LNumber t :: rest) 1 0 = Ok (int t).
Proof. reflexivity. Qed.

(** With a buffer that still holds bytes, a call is a split of the buffer
    and touches neither the handle nor the alarm. *)
Lemma iread_iter_buffered (w : c_world) (L : lua_stack) (ctx : l_ixp_iread_s)
    (t : Z) (mem : list ascii) :
  luaL_optnumber L 1 0 = Ok t ->
  buf ctx = Some mem ->
  buf_len ctx <> 0 ->
  l_ixp_iread_iter w L ctx = iread_split ctx mem [].
Proof.
  intros Ht Hbuf Hlen. unfold l_ixp_iread_iter. rewrite Ht, Hbuf. simpl.
  destruct (Z.eqb_spec (buf_len ctx) 0); [contradiction|reflexivity].
Qed.

(** With an empty buffer, a call is a refill. *)
Lemma iread_iter_empty (w : c_world) (L : lua_stack) (ctx : l_ixp_iread_s)
    (t : Z) (mem : list ascii) :
  luaL_optnumber L 1 0 = Ok t ->
  buf ctx = Some mem ->
  buf_len ctx = 0 ->
  l_ixp_iread_iter w L ctx = iread_refill t ctx mem.
Proof.
  intros Ht Hbuf Hlen. unfold l_ixp_iread_iter. rewrite Ht, Hbuf. simpl.
  now rewrite Hlen.
Qed.

(** The first call allocates the buffer, then refills. *)
Lemma iread_iter_fresh (w : c_world) (L : lua_stack) (ctx : l_ixp_iread_s)
    (t : Z) (f : IxpCFid) :
  luaL_optnumber L 1 0 = Ok t ->
  buf ctx = None ->
  fid ctx = Some f ->
  malloc_fails w = false ->
  l_ixp_iread_iter w L ctx
  = let mem := map (junk w) (seq 0 (Z.to_nat (iounit f))) in
    iread_refill t {| fid := fid ctx; buf := Some mem; buf_pos := buf_pos ctx;
                      buf_len := 0; buf_size := size_t (iounit f) |} mem.
Proof.
  intros Ht Hbuf Hfid Hm. unfold l_ixp_iread_iter, malloc.
  rewrite Ht, Hbuf, Hfid, Hm. reflexivity.
Qed.

(** A refill whose read returns a count that is not positive ends the
    iteration: no value is returned. *)
Lemma iread_refill_not_positive (t : Z) (ctx : l_ixp_iread_s) (f f' : IxpCFid)
    (mem mem' : list ascii) (rc : Z) :
  fid ctx = Some f ->
  ixp_read f mem (buf_size ctx) = (f', mem', rc) ->
  rc <= 0 ->
  iread_refill t ctx mem
  = Ok ([], {| fid := Some f'; buf := Some mem'; buf_pos := 0;
               buf_len := buf_len ctx; buf_size := buf_size ctx |},
        refill_calls t (buf_size ctx)).
Proof.
  intros Hfid Hread Hrc. unfold iread_refill. rewrite Hfid. simpl.
  rewrite Hread.
  destruct (Z.eqb_spec rc EINTR) as [He|_].
  - pose proof EINTR_pos. lia.
  - destruct (Z.leb_spec rc 0); [reflexivity|lia].
Qed.

(** A call that refills ends the iteration when the read does not return
    a positive count. *)
Lemma iread_iter_not_positive (w : c_world) (L : lua_stack)
    (ctx : l_ixp_iread_s) (t : Z) (f : IxpCFid) :
  luaL_optnumber L 1 0 = Ok t ->
  fid ctx = Some f ->
  refill_due w ctx ->
  (forall mem count, snd (ixp_read f mem count) <= 0) ->
  values_of (l_ixp_iread_iter w L ctx) = Ok []
  /\ calls_of (l_ixp_iread_iter w L ctx) = Ok (refill_calls t (capacity ctx)).
Proof.
  intros Ht Hfid Hdue Hread. unfold refill_due in Hdue. unfold capacity.
  destruct (buf ctx) as [mem|] eqn:Hbuf.
  - rewrite (iread_iter_empty w L ctx t mem Ht Hbuf Hdue).
    destruct (ixp_read f mem (buf_size ctx)) as [[f' mem'] rc] eqn:Hr.
    rewrite (iread_refill_not_positive t ctx f f' mem mem' rc Hfid Hr).
    + split; reflexivity.
    + specialize (Hread mem (buf_size ctx)). now rewrite Hr in Hread.
  - rewrite (iread_iter_fresh w L ctx t f Ht Hbuf Hfid Hdue). cbv zeta.
    rewrite Hfid.
    set (mem := map _ _). set (ctx1 := Build_l_ixp_iread_s _ _ _ _ _).
    destruct (ixp_read f mem (buf_size ctx1)) as [[f' mem'] rc] eqn:Hr.
    rewrite (iread_refill_not_positive t ctx1 f f' mem mem' rc eq_refl Hr).
    + split; reflexivity.
    + specialize (Hread mem (buf_size ctx1)). now rewrite Hr in Hread.
Qed.

(** C3, what the code does: when the read of a refill fails with a negative
    count, the call returns no value, which ends the iteration, exactly as
    it does when the read yields 0 bytes; no error is raised and the cause
    is not handed to the caller. *)
Theorem iread_failed_read_ends_iteration (w : c_world) (L : lua_stack)
    (ctx : l_ixp_iread_s) (t : Z) (f : IxpCFid) (rc : Z)
    (rest : list read_reply) :
  luaL_optnumber L 1 0 = Ok t ->
  fid ctx = Some f ->
  refill_due w ctx ->
  replies f = Failure rc :: rest ->
  rc < 0 ->
  values_of (l_ixp_iread_iter w L ctx) = Ok []
  /\ values_of (l_ixp_iread_iter w L (with_fid ctx (with_replies f []))) = Ok [].
Proof.
  intros Ht Hfid Hdue Hrep Hrc. split.
  - apply (iread_iter_not_positive w L ctx t f Ht Hfid Hdue).
    intros mem count. rewrite (ixp_read_failure f mem count rc rest Hrep).
    simpl. lia.
  - apply (iread_iter_not_positive w L (with_fid ctx (with_replies f [])) t
             (with_replies f []) Ht eq_refl Hdue).
    intros mem count. now rewrite ixp_read_eof.
Qed.

(** The handler re-arms the alarm with the first argument of the
    iterator: the value the callback returned is popped unread. *)
Lemma catcher_rearms (t : Z) (results : list lua_value) :
  0 < int t ->
  l_ixp_iread_catcher (Some [LNumber t; LFunction results])
  = Ok (Some [LNumber t], [CallAlarm (int t)]).
Proof.
  intros Ht. unfold l_ixp_iread_catcher. rewrite optnumber_number. simpl.
  destruct (Z.ltb_spec 0 (int t)); [reflexivity|lia].
Qed.

(** Once the callback has been popped, a further signal finds no function
    at index 2 and arms nothing. *)
Lemma catcher_second_signal (t : Z) :
  l_ixp_iread_catcher (Some [LNumber t]) = Ok (Some [LNumber t], []).
Proof.
  unfold l_ixp_iread_catcher. rewrite optnumber_number. simpl.
  now rewrite andb_false_r.
Qed.

(** X24. A read that returns exactly [EINTR] bytes is reported as "timeout",
    and its bytes are dropped: the valid length stays 0. *)
Lemma iread_eintr_sized_read (w : c_world) (L : lua_stack)
    (ctx : l_ixp_iread_s) (t : Z) (f : IxpCFid) (mem data : list ascii)
    (rest : list read_reply) :
  luaL_optnumber L 1 0 = Ok t ->
  fid ctx = Some f ->
  buf ctx = Some mem ->
  buf_len ctx = 0 ->
  replies f = Bytes data :: rest ->
  Z.of_nat (length data) = EINTR ->
  EINTR <= buf_size ctx ->
  l_ixp_iread_iter w L ctx
  = Ok ([LString "timeout"],
        {| fid := Some (with_replies f rest);
           buf := Some (data ++ drop (length data) mem);
           buf_pos := 0; buf_len := 0; buf_size := buf_size ctx |},
        refill_calls t (buf_size ctx)).
Proof.
  intros Ht Hfid Hbuf Hlen Hrep Hn Hcap.
  rewrite (iread_iter_empty w L ctx t mem Ht Hbuf Hlen).
  unfold iread_refill. rewrite Hfid. simpl.
  rewrite (ixp_read_bytes f mem data (buf_size ctx) rest Hrep) by lia.
  rewrite Hn, Z.eqb_refl, Hlen. reflexivity.
Qed.

(** C2, what the code does: with a positive timeout [t] and a callback,
    the handler calls the callback and re-arms the alarm with [t] itself,
    whatever the callback returned; and when the read under the alarm
    fails with a negative count, as an interrupted read does, the call
    returns no value (the end of the iteration), not "timeout". *)
Theorem iread_timeout_protocol (w : c_world) (ctx : l_ixp_iread_s)
    (f : IxpCFid) (t : Z) (results : list lua_value) (rc : Z)
    (rest : list read_reply) :
  0 < int t ->
  fid ctx = Some f ->
  refill_due w ctx ->
  replies f = Failure rc :: rest ->
  rc < 0 ->
  l_ixp_iread_catcher (Some [LNumber t; LFunction results])
  = Ok (Some [LNumber t], [CallAlarm (int t)])
  /\ values_of (l_ixp_iread_iter w [LNumber t; LFunction results] ctx) = Ok []
  /\ calls_of (l_ixp_iread_iter w [LNumber t; LFunction results] ctx)
     = Ok [CallSigaction true; CallAlarm (int t); CallRead (capacity ctx);
           CallAlarm 0; CallSigaction false].
Proof.
  intros Ht Hfid Hdue Hrep Hrc. split; [now apply catcher_rearms|].
  destruct (iread_iter_not_positive w [LNumber t; LFunction results] ctx
              (int t) f (optnumber_number t _) Hfid Hdue) as [Hv Hc].
  - intros mem count. rewrite (ixp_read_failure f mem count rc rest Hrep).
    simpl. lia.
  - split; [exact Hv|]. rewrite Hc. unfold refill_calls.
    destruct (Z.ltb_spec 0 (int t)); [reflexivity|lia].
Qed.

(** *** The reads "a\nbb\n", "ccc", 0 *)

Lemma malloc_block (w : c_world) (n : Z) :
  5 <= n ->
  exists a0 a1 a2 a3 a4 tail,
    map (junk w) (seq 0 (Z.to_nat n)) = a0 :: a1 :: a2 :: a3 :: a4 :: tail.
Proof.
  intros H. destruct (Z.to_nat n) as [|[|[|[|[|k]]]]] eqn:E; try lia.
  simpl. eauto 10.
Qed.

Lemma size_t_small (x : Z) : 0 <= x < 2 ^ 64 -> size_t x = x.
Proof. intros H. unfold size_t. now apply Z.mod_small. Qed.

(** First call: the buffer is allocated and filled with the five bytes of
    the first read; the line "a" is cut off. *)
Lemma three_reads_call_1 (w : c_world) (n : Z)
    (a0 a1 a2 a3 a4 : ascii) (tail : list ascii) :
  malloc_fails w = false ->
  5 <= n < 2 ^ 64 ->
  EINTR <> 5 ->
  map (junk w) (seq 0 (Z.to_nat n)) = a0 :: a1 :: a2 :: a3 :: a4 :: tail ->
  l_ixp_iread_iter w [] (three_reads n)
  = Ok ([LString "a"],
        reader n [Bytes (bytes "ccc"); Bytes []]
          ("a"%char :: NUL :: "b"%char :: "b"%char :: LF :: tail) 2 3,
        [CallRead n]).
Proof.
  intros Hm Hn H5 Hmem.
  rewrite (iread_iter_fresh w [] (three_reads n) 0 _ eq_refl eq_refl eq_refl Hm).
  cbv zeta. cbn [three_reads fresh_reader iounit fid buf_pos]. rewrite Hmem.
  rewrite size_t_small by lia.
  erewrite iread_refill_bytes;
    [|reflexivity|reflexivity|simpl; lia|simpl; lia].
  erewrite iread_split_found; [|simpl; lia|reflexivity].
  reflexivity.
Qed.

(** Second call: the line "bb" is cut off the buffered bytes; the buffer
    is now used up. *)
Lemma three_reads_call_2 (w : c_world) (n : Z) (tail : list ascii) :
  l_ixp_iread_iter w []
    (reader n [Bytes (bytes "ccc"); Bytes []]
       ("a"%char :: NUL :: "b"%char :: "b"%char :: LF :: tail) 2 3)
  = Ok ([LString "bb"],
        reader n [Bytes (bytes "ccc"); Bytes []]
          ("a"%char :: NUL :: "b"%char :: "b"%char :: NUL :: tail) 5 0,
        []).
Proof.
  erewrite iread_iter_buffered; [|reflexivity|reflexivity|discriminate].
  erewrite iread_split_found; [|simpl; lia|reflexivity].
  reflexivity.
Qed.

(** Third call: the read puts "ccc" over the start of the buffer; the
    bytes behind it are those of the first read, and the C string at the
    start of the buffer runs on to the NUL that replaced the second
    delimiter. *)
Lemma three_reads_call_3 (w : c_world) (n : Z) (tail : list ascii) :
  5 <= n ->
  EINTR <> 3 ->
  l_ixp_iread_iter w []
    (reader n [Bytes (bytes "ccc"); Bytes []]
       ("a"%char :: NUL :: "b"%char :: "b"%char :: NUL :: tail) 5 0)
  = Ok ([LString "cccb"],
        reader n [Bytes []]
          ("c"%char :: "c"%char :: "c"%char :: "b"%char :: NUL :: tail) 0 0,
        [CallRead n]).
Proof.
  intros Hn H3.
  erewrite iread_iter_empty; [|reflexivity|reflexivity|reflexivity].
  erewrite iread_refill_bytes;
    [|reflexivity|reflexivity|simpl; lia|simpl; lia].
  erewrite iread_split_nomatch; [|simpl; lia|reflexivity|reflexivity].
  reflexivity.
Qed.

(** Fourth call: the read returns 0 bytes and the iteration ends. *)
Lemma three_reads_call_4 (w : c_world) (n : Z) (tail : list ascii) :
  5 <= n ->
  l_ixp_iread_iter w []
    (reader n [Bytes []]
       ("c"%char :: "c"%char :: "c"%char :: "b"%char :: NUL :: tail) 0 0)
  = Ok ([],
        reader n []
          ("c"%char :: "c"%char :: "c"%char :: "b"%char :: NUL :: tail) 0 0,
        [CallRead n]).
Proof.
  intros Hn.
  erewrite iread_iter_empty; [|reflexivity|reflexivity|reflexivity].
  erewrite iread_refill_not_positive;
    [|reflexivity
     |apply ixp_read_bytes; [reflexivity|simpl; lia]
     |simpl; lia].
  reflexivity.
Qed.

(** The four calls in a row. *)
Lemma three_reads_run (w : c_world) (n : Z) :
  malloc_fails w = false ->
  5 <= n < 2 ^ 64 ->
  EINTR <> 3 ->
  EINTR <> 5 ->
  yields (iread_calls 4 w (three_reads n))
  = Ok [[LString "a"]; [LString "bb"]; [LString "cccb"]; []].
Proof.
  intros Hm Hn H3 H5.
  destruct (malloc_block w n) as (a0 & a1 & a2 & a3 & a4 & tail & Hmem); [lia|].
  unfold iread_calls.
  rewrite (three_reads_call_1 w n a0 a1 a2 a3 a4 tail Hm Hn H5 Hmem). simpl.
  rewrite three_reads_call_2. simpl.
  rewrite three_reads_call_3 by (lia || assumption). simpl.
  rewrite three_reads_call_4 by lia. reflexivity.
Qed.

(** C4, what the code does: with the reads "a\nbb\n", "ccc" and 0, four
    calls yield "a", "bb", "cccb" and the end of the iteration, for every
    chunk size that lets the first read through and whatever the fresh
    buffer held.  The third line is not "ccc". *)
Theorem iread_three_reads_yield (w : c_world) (n : Z) :
  malloc_fails w = false ->
  5 <= n < 2 ^ 64 ->
  EINTR <> 3 ->
  EINTR <> 5 ->
  yields (iread_calls 4 w (three_reads n))
  = Ok [[LString "a"]; [LString "bb"]; [LString "cccb"]; []]
  /\ yields (iread_calls 4 w (three_reads n))
     <> Ok [[LString "a"]; [LString "bb"]; [LString "ccc"]; []].
Proof.
  intros Hm Hn H3 H5. rewrite (three_reads_run w n Hm Hn H3 H5).
  split; [reflexivity|discriminate].
Qed.

(** C6, what the code does: on the reads "a\nbb\n", "ccc" and 0 the lines
    returned do not give back the bytes delivered, wherever delimiters are
    put back; no line is longer than the buffer. *)
Theorem iread_round_trip_three_reads (w : c_world) (n : Z) :
  malloc_fails w = false ->
  5 <= n < 2 ^ 64 ->
  EINTR <> 3 ->
  EINTR <> 5 ->
  exists run,
    yields (iread_calls 4 w (three_reads n)) = Ok run
    /\ forall stripped,
         reassemble run stripped
         <> delivered [Bytes (bytes "a" ++ [LF] ++ bytes "bb" ++ [LF]);
                       Bytes (bytes "ccc"); Bytes []].
Proof.
  intros Hm Hn H3 H5. eexists. split; [now apply three_reads_run|].
  intros [|[] [|[] [|[] rest]]]; simpl; discriminate.
Qed.

(** *** A NUL in the data *)

(** A NUL before the next delimiter: the line ends at the NUL and the whole
    buffer is given up. *)
Lemma iread_split_nul_first (ctx : l_ixp_iread_s) (mem line rest : list ascii)
    (calls : list effect) :
  0 <= buf_pos ctx <= Z.of_nat (length mem) ->
  drop (Z.to_nat (buf_pos ctx)) mem = line ++ NUL :: rest ->
  LF ∉ line ->
  NUL ∉ line ->
  iread_split ctx mem calls
  = Ok ([LString (string_of_list_ascii line)],
        {| fid := fid ctx; buf := Some mem; buf_pos := buf_pos ctx;
           buf_len := 0; buf_size := buf_size ctx |},
        calls).
Proof.
  intros Hpos Hs H1 H2. destruct (strchr_nul_first line rest H1 H2) as [Hno Hc].
  apply iread_split_nomatch; [exact Hpos|now rewrite Hs|now rewrite Hs].
Qed.

(** C10, as the code has it: when the unconsumed bytes of the buffer, left
    from earlier calls or just read, hold a NUL before the next delimiter,
    the call returns the bytes before the NUL and marks the buffer empty:
    the consumed offset stays where it was and the valid length becomes 0,
    so that what lies behind the NUL, the delimiter and any further line
    included, no longer counts as buffered data. *)
Theorem iread_nul_before_newline :
  (forall w L ctx t mem line rest,
     luaL_optnumber L 1 0 = Ok t ->
     buf ctx = Some mem ->
     buf_len ctx <> 0 ->
     0 <= buf_pos ctx <= Z.of_nat (length mem) ->
     drop (Z.to_nat (buf_pos ctx)) mem = line ++ NUL :: rest ->
     LF ∉ line ->
     NUL ∉ line ->
     l_ixp_iread_iter w L ctx
     = Ok ([LString (string_of_list_ascii line)],
           {| fid := fid ctx; buf := Some mem; buf_pos := buf_pos ctx;
              buf_len := 0; buf_size := buf_size ctx |},
           []))
  /\ (forall w L ctx t f mem line rest rs,
        luaL_optnumber L 1 0 = Ok t ->
        fid ctx = Some f ->
        buf ctx = Some mem ->
        buf_len ctx = 0 ->
        replies f = Bytes (line ++ NUL :: rest) :: rs ->
        Z.of_nat (length (line ++ NUL :: rest)) <= buf_size ctx ->
        Z.of_nat (length (line ++ NUL :: rest)) <> EINTR ->
        LF ∉ line ->
        NUL ∉ line ->
        l_ixp_iread_iter w L ctx
        = Ok ([LString (string_of_list_ascii line)],
              {| fid := Some (with_replies f rs);
                 buf := Some ((line ++ NUL :: rest)
                              ++ drop (length (line ++ NUL :: rest)) mem);
                 buf_pos := 0; buf_len := 0; buf_size := buf_size ctx |},
              refill_calls t (buf_size ctx))).
Proof.
  split.
  - intros w L ctx t mem line rest Ht Hbuf Hlen Hpos Hs H1 H2.
    rewrite (iread_iter_buffered w L ctx t mem Ht Hbuf Hlen).
    now apply (iread_split_nul_first ctx mem line rest).
  - intros w L ctx t f mem line rest rs Ht Hfid Hbuf Hlen Hrep Hfit He H1 H2.
    rewrite (iread_iter_empty w L ctx t mem Ht Hbuf Hlen).
    rewrite (iread_refill_bytes t ctx f mem _ rs Hfid Hrep); [|lens|exact He].
    rewrite (iread_split_nul_first _ _ line
               (rest ++ drop (length (line ++ NUL :: rest)) mem));
      [reflexivity|simpl; lia| |exact H1|exact H2].
    simpl. now rewrite <- app_assoc.
Qed.

(** *** The reads "ab\0cd\n", "xyz" *)

Lemma l_ixp_iread_fresh (w : c_world) (n : Z) (rs : list read_reply) :
  l_ixp_iread w (Some {| iounit := n; replies := rs |})
  = Iterator (fresh_reader n rs).
Proof. reflexivity. Qed.

Lemma fresh_reader_invariant (n : Z) (rs : list read_reply) :
  iread_invariant (fresh_reader n rs).
Proof. unfold iread_invariant. simpl. lia. Qed.

Lemma malloc_length (w : c_world) (n : Z) :
  length (map (junk w) (seq 0 (Z.to_nat n))) = Z.to_nat n.
Proof. now rewrite length_map, length_seq. Qed.

(** First call: the six bytes of the first read are buffered; the scan
    stops at the NUL, "ab" is returned and the buffer is marked empty, with
    "cd\n" still in it. *)
Lemma nul_then_short_call_1 (w : c_world) (n : Z) :
  malloc_fails w = false ->
  6 <= n < 2 ^ 64 ->
  EINTR <> 6 ->
  l_ixp_iread_iter w [] (fresh_reader n nul_then_short)
  = Ok ([LString "ab"],
        reader n [Bytes (bytes "xyz")]
          (bytes "ab" ++ [NUL] ++ bytes "cd" ++ [LF]
           ++ drop 6 (map (junk w) (seq 0 (Z.to_nat n)))) 0 0,
        [CallRead n]).
Proof.
  intros Hm Hn H6.
  rewrite (iread_iter_fresh w [] (fresh_reader n nul_then_short) 0 _
             eq_refl eq_refl eq_refl Hm).
  cbv zeta. cbn [fresh_reader iounit fid buf_pos].
  rewrite size_t_small by lia.
  erewrite iread_refill_bytes;
    [|reflexivity|reflexivity|simpl; lia|simpl; lia].
  erewrite iread_split_nomatch; [|simpl; lia|reflexivity|reflexivity].
  reflexivity.
Qed.

(** Second call: "xyz" is read over "ab\0"; the scan runs through the three
    valid bytes and on to the delimiter of the first read, three bytes
    behind them.  The valid length, 3 - 6 in [size_t], wraps round. *)
Lemma nul_then_short_call_2 (w : c_world) (n : Z) (tail : list ascii) :
  6 <= n ->
  EINTR <> 3 ->
  l_ixp_iread_iter w []
    (reader n [Bytes (bytes "xyz")]
       (bytes "ab" ++ [NUL] ++ bytes "cd" ++ [LF] ++ tail) 0 0)
  = Ok ([LString "xyzcd"],
        reader n [] (bytes "xyzcd" ++ [NUL] ++ tail) 6 (2 ^ 64 - 3),
        [CallRead n]).
Proof.
  intros Hn H3.
  erewrite iread_iter_empty; [|reflexivity|reflexivity|reflexivity].
  erewrite iread_refill_bytes;
    [|reflexivity|reflexivity|simpl; lia|simpl; lia].
  erewrite iread_split_found; [|simpl; lia|reflexivity].
  reflexivity.
Qed.

(** C9, what the code does: the invariant holds for the reader as created,
    and after the reads "ab\0cd\n" and "xyz" the second call leaves
    [buf_pos = 6] and [buf_len = 2^64 - 3] in a buffer of [n] bytes: the
    valid length is no length within the buffer, and the invariant is
    broken. *)
Theorem iread_invariant_broken (w : c_world) (n : Z) :
  malloc_fails w = false ->
  6 <= n < 2 ^ 64 ->
  EINTR <> 3 ->
  EINTR <> 6 ->
  iread_invariant (fresh_reader n nul_then_short)
  /\ exists ctx,
       iread_calls 2 w (fresh_reader n nul_then_short)
       = Ok ([[LString "ab"]; [LString "xyzcd"]], ctx)
       /\ buf_pos ctx = 6 /\ buf_len ctx = 2 ^ 64 - 3 /\ buf_size ctx = n
       /\ buf_size ctx < buf_pos ctx + buf_len ctx
       /\ ~ iread_invariant ctx.
Proof.
  intros Hm Hn H3 H6. split; [apply fresh_reader_invariant|].
  eexists. split.
  - unfold iread_calls.
    rewrite (nul_then_short_call_1 w n Hm Hn H6).
    pose proof (nul_then_short_call_2 w n
                  (drop 6 (map (junk w) (seq 0 (Z.to_nat n))))
                  ltac:(lia) H3) as H2.
    cbn [bytes list_ascii_of_string app] in H2 |- *.
    cbn [mbind outcome_bind]. rewrite H2. reflexivity.
  - repeat split; [simpl; lia|]. unfold iread_invariant. simpl. lia.
Qed.

(** With a buffer of 6 bytes the third call scans from the end of the
    block: its behaviour is undefined. *)
Lemma nul_then_short_overrun (w : c_world) :
  malloc_fails w = false ->
  EINTR <> 3 ->
  EINTR <> 6 ->
  iread_calls 3 w (fresh_reader 6 nul_then_short) = Undefined.
Proof.
  intros Hm H3 H6. unfold iread_calls.
  rewrite (nul_then_short_call_1 w 6 Hm ltac:(lia) H6).
  pose proof (nul_then_short_call_2 w 6 [] ltac:(lia) H3) as H2.
  cbn [bytes list_ascii_of_string app] in H2 |- *.
  cbn [mbind outcome_bind]. change (drop 6 _) with (@nil ascii).
  rewrite H2. reflexivity.
Qed.

(** *** Reads of whole lines *)

(** The split at a clean line that is followed by its delimiter. *)
Lemma split_line (n : Z) (rs : list read_reply) (pre line rest : list ascii)
    (len : Z) (calls : list effect) :
  clean line ->
  Z.of_nat (length pre + length line + 1) < 2 ^ 31 ->
  Z.of_nat (length line) + 1 <= len < 2 ^ 64 ->
  iread_split (reader n rs (pre ++ line ++ LF :: rest) (Z.of_nat (length pre)) len)
    (pre ++ line ++ LF :: rest) calls
  = Ok ([LString (string_of_list_ascii line)],
        reader n rs ((pre ++ line ++ [NUL]) ++ rest)
          (Z.of_nat (length (pre ++ line ++ [NUL])))
          (len - (Z.of_nat (length line) + 1)),
        calls).
Proof.
  intros Hclean Hpos Hlen.
  rewrite (iread_split_found _ _ _ (length line)).
  - cbn [reader buf_pos buf_len buf_size fid].
    rewrite Nat2Z.id, drop_app_length, take_app_length.
    rewrite insert_app_r.
    rewrite <- (Nat.add_0_r (length line)) at 1.
    rewrite insert_app_r. cbn [insert list_insert].
    rewrite int_small by lia.
    rewrite !size_t_small by lens.
    unfold reader.
    replace ((pre ++ line ++ [NUL]) ++ rest) with (pre ++ line ++ NUL :: rest)
      by (rewrite <- !app_assoc; reflexivity).
    replace (Z.of_nat (length (pre ++ line ++ [NUL])))
      with (Z.of_nat (length pre) + (Z.of_nat (length line) + 1)) by lens.
    reflexivity.
  - cbn [reader buf_pos]. lens.
  - cbn [reader buf_pos]. rewrite Nat2Z.id, drop_app_length.
    now apply strchr_clean.
Qed.

(** The lines left in the buffer come out one per call. *)
Lemma buffered_lines (w : c_world) (n : Z) (rs : list read_reply)
    (tail : list ascii) (lines : list (list ascii)) :
  Forall clean lines ->
  forall pre : list ascii,
    Z.of_nat (length (pre ++ terminated lines)) < 2 ^ 31 ->
    exists pre',
      length pre' = (length pre + length (terminated lines))%nat
      /\ iread_calls (length lines) w
           (reader n rs (pre ++ terminated lines ++ tail)
              (Z.of_nat (length pre)) (Z.of_nat (length (terminated lines))))
         = Ok (line_values lines,
               reader n rs (pre' ++ tail) (Z.of_nat (length pre')) 0).
Proof.
  intros Hclean. induction Hclean as [|line lines Hline _ IH]; intros pre Hfit.
  - exists pre. split; [simpl; lia|]. reflexivity.
  - cbn [terminated] in *.
    destruct (IH (pre ++ line ++ [NUL])) as (pre' & Hlen & Hrun); [lens|].
    exists pre'. split; [lens|].
    cbn [iread_calls length].
    erewrite iread_iter_buffered;
      [|reflexivity|reflexivity|cbn [reader buf_len]; lens].
    rewrite <- (app_assoc line), <- app_comm_cons.
    rewrite split_line; [|exact Hline|lens|split; [|lens]].
    + cbn [mbind outcome_bind].
      replace (Z.of_nat (length (line ++ LF :: terminated lines)) - (Z.of_nat (length line) + 1))
        with (Z.of_nat (length (terminated lines))) by lens.
      rewrite Hrun. reflexivity.
    + rewrite length_app. cbn [length]. lia.
Qed.

Lemma iread_calls_app (w : c_world) (a b : nat) (ctx : l_ixp_iread_s) :
  iread_calls (a + b) w ctx
  = '(first, ctx) ← iread_calls a w ctx;
    '(later, ctx) ← iread_calls b w ctx;
    Ok (first ++ later, ctx).
Proof.
  revert ctx. induction a as [|a IH]; intros ctx.
  - simpl. now destruct (iread_calls b w ctx) as [[? ?]| |].
  - cbn [Nat.add iread_calls].
    destruct (l_ixp_iread_iter w [] ctx) as [[[values ctx1] calls]| |];
      [|reflexivity|reflexivity].
    cbn [mbind outcome_bind]. rewrite IH.
    destruct (iread_calls a w ctx1) as [[first ctx2]| |];
      [|reflexivity|reflexivity].
    cbn [mbind outcome_bind].
    now destruct (iread_calls b w ctx2) as [[later ctx3]| |].
Qed.

(** The first call on a fresh reader allocates the buffer and goes on as a
    call on a reader with an empty buffer. *)
Lemma fresh_as_empty (w : c_world) (n : Z) (rs : list read_reply) :
  malloc_fails w = false ->
  0 <= n < 2 ^ 64 ->
  l_ixp_iread_iter w [] (fresh_reader n rs)
  = l_ixp_iread_iter w []
      (reader n rs (map (junk w) (seq 0 (Z.to_nat n))) 0 0).
Proof.
  intros Hm Hn.
  rewrite (iread_iter_fresh w [] (fresh_reader n rs) 0 _ eq_refl eq_refl eq_refl Hm).
  erewrite (iread_iter_empty w []); [|reflexivity|reflexivity|reflexivity].
  cbv zeta. cbn [fresh_reader iounit fid buf_pos].
  rewrite size_t_small by lia. reflexivity.
Qed.

(** A read of whole lines: they come out one per call, and the buffer is
    empty again afterwards. *)
Lemma chunk_lines (w : c_world) (n : Z) (rs : list read_reply)
    (lines : list (list ascii)) (block : list ascii) (pos : Z) :
  n < 2 ^ 31 ->
  chunk_ok n lines ->
  exists block' pos',
    iread_calls (length lines) w
      (reader n (Bytes (terminated lines) :: rs) block pos 0)
    = Ok (line_values lines, reader n rs block' pos' 0).
Proof.
  intros Hn (Hne & Hclean & Hfit & He).
  destruct lines as [|line lines]; [contradiction|].
  apply Forall_cons in Hclean as [Hline Hclean].
  cbn [terminated] in *.
  set (tail := drop (length (line ++ LF :: terminated lines)) block).
  destruct (buffered_lines w n rs tail lines Hclean ([] ++ line ++ [NUL]))
    as (pre' & _ & Hrun); [lens|].
  exists (pre' ++ tail), (Z.of_nat (length pre')).
  cbn [iread_calls length].
  erewrite iread_iter_empty; [|reflexivity|reflexivity|reflexivity].
  erewrite iread_refill_bytes; [|reflexivity|reflexivity| |exact He].
  2:{ cbn [reader buf_size]. lens. }
  fold tail. rewrite <- (app_assoc line), <- app_comm_cons.
  cbn [reader buf_size with_replies iounit].
  rewrite size_t_small by lens.
  pose proof (split_line n rs [] line (terminated lines ++ tail)
                (Z.of_nat (length (line ++ LF :: terminated lines)))
                (refill_calls 0 n) Hline ltac:(lens) ltac:(lens)) as Hsplit.
  cbn [app length] in Hsplit. unfold reader in Hsplit.
  change (Z.of_nat 0) with 0 in Hsplit.
  unfold with_replies. cbn [iounit app]. change (int 0) with 0.
  rewrite Hsplit.
  cbn [mbind outcome_bind].
  replace (Z.of_nat (length (line ++ LF :: terminated lines))
           - (Z.of_nat (length line) + 1))
    with (Z.of_nat (length (terminated lines))) by lens.
  unfold reader in Hrun. cbn [app] in Hrun. rewrite Hrun. reflexivity.
Qed.


(** Reads of whole lines, then the end of the file: every line comes out,
    in order, and then the iteration ends. *)
Lemma stream_lines (w : c_world) (n : Z) (chunks : list (list (list ascii))) :
  n < 2 ^ 31 ->
  Forall (chunk_ok n) chunks ->
  forall (block : list ascii) (pos : Z),
    yields (iread_calls (length (concat chunks) + 1) w
              (reader n (chunk_replies chunks) block pos 0))
    = Ok (line_values (concat chunks) ++ [[]]).
Proof.
  intros Hn Hok. induction Hok as [|lines chunks Hlines _ IH]; intros block pos.
  - cbn [concat length Nat.add iread_calls chunk_replies map].
    erewrite iread_iter_empty; [|reflexivity|reflexivity|reflexivity].
    erewrite iread_refill_not_positive;
      [|reflexivity|now apply ixp_read_eof|lia].
    reflexivity.
  - cbn [concat chunk_replies map]. fold (chunk_replies chunks).
    rewrite length_app, <- Nat.add_assoc, iread_calls_app.
    destruct (chunk_lines w n (chunk_replies chunks) lines block pos Hn Hlines)
      as (block' & pos' & ->).
    cbn [mbind outcome_bind].
    specialize (IH block' pos'). unfold yields in IH |- *.
    destruct (iread_calls (length (concat chunks) + 1) w
                (reader n (chunk_replies chunks) block' pos' 0))
      as [[later ctx]| |]; try discriminate.
    cbn [mbind outcome_bind] in IH |- *. injection IH as ->.
    unfold line_values. now rewrite map_app, <- app_assoc.
Qed.

(** X23. The round trip for whole lines: when every read delivers whole lines
    (each ended by its delimiter, none holding a NUL), fits the buffer and
    does not have [EINTR] bytes, the lines returned, each with its
    delimiter put back, are the bytes delivered. *)
Lemma iread_round_trip_whole_lines (w : c_world) (n : Z)
    (chunks : list (list (list ascii))) :
  malloc_fails w = false ->
  0 <= n < 2 ^ 31 ->
  Forall (chunk_ok n) chunks ->
  yields (iread_calls (length (concat chunks) + 1) w
            (fresh_reader n (chunk_replies chunks)))
  = Ok (line_values (concat chunks) ++ [[]])
  /\ reassemble (line_values (concat chunks) ++ [[]])
       (replicate (length (concat chunks)) true)
     = delivered (chunk_replies chunks).
Proof.
  intros Hm Hn Hok. split.
  - rewrite <- (stream_lines w n chunks ltac:(lia) Hok
                  (map (junk w) (seq 0 (Z.to_nat n))) 0).
    rewrite Nat.add_1_r. cbn [iread_calls].
    now rewrite (fresh_as_empty w n _ Hm) by lia.
  - now rewrite reassemble_lines, delivered_chunks.
Qed.

End LineIterator.

(** C2, witness: a timeout of 2 seconds, a callback that returns 5, a read
    that fails with -1.  The alarm is re-armed with 2, and the call ends
    the iteration. *)
Lemma iread_timeout_protocol_witness :
  l_ixp_iread_catcher (lua := decimal_lua)
    (Some [LNumber 2; LFunction [LNumber 5]])
  = Ok (Some [LNumber 2], [CallAlarm 2])
  /\ values_of (l_ixp_iread_iter (libc := linux_libc) (lua := decimal_lua)
                  calm [LNumber 2; LFunction [LNumber 5]]
                  (reader_over [Failure (-1)])) = Ok []
  /\ calls_of (l_ixp_iread_iter (libc := linux_libc) (lua := decimal_lua)
                 calm [LNumber 2; LFunction [LNumber 5]]
                 (reader_over [Failure (-1)]))
     = Ok [CallSigaction true; CallAlarm 2; CallRead 16;
           CallAlarm 0; CallSigaction false].
Proof.
  exact (iread_timeout_protocol (libc := linux_libc) (lua := decimal_lua)
           calm (reader_over [Failure (-1)])
           {| iounit := 16; replies := [Failure (-1)] |} 2 [LNumber 5] (-1) []
           eq_refl eq_refl eq_refl eq_refl eq_refl).
Defined.

Ltac not_among :=
  let H := fresh in
  intros H;
  repeat (apply elem_of_cons in H as [H|H]; [discriminate H|]);
  exact (not_elem_of_nil _ H).

(** C4, witness: chunk size 16 on Linux. *)
Lemma iread_three_reads_yield_witness :
  yields (iread_calls (libc := linux_libc) (lua := decimal_lua)
            4 calm (three_reads 16))
  = Ok [[LString "a"]; [LString "bb"]; [LString "cccb"]; []]
  /\ yields (iread_calls (libc := linux_libc) (lua := decimal_lua)
               4 calm (three_reads 16))
     <> Ok [[LString "a"]; [LString "bb"]; [LString "ccc"]; []].
Proof.
  apply (iread_three_reads_yield (libc := linux_libc) (lua := decimal_lua)
           calm 16 eq_refl).
  - split; [discriminate|reflexivity].
  - discriminate.
  - discriminate.
Defined.

(** C6, witness: chunk size 16 on Linux. *)
Lemma iread_round_trip_three_reads_witness :
  exists run,
    yields (iread_calls (libc := linux_libc) (lua := decimal_lua)
              4 calm (three_reads 16)) = Ok run
    /\ forall stripped,
         reassemble run stripped
         <> delivered [Bytes (bytes "a" ++ [LF] ++ bytes "bb" ++ [LF]);
                       Bytes (bytes "ccc"); Bytes []].
Proof.
  apply (iread_round_trip_three_reads (libc := linux_libc)
           (lua := decimal_lua) calm 16 eq_refl).
  - split; [discriminate|reflexivity].
  - discriminate.
  - discriminate.
Defined.

(** C9, witness: chunk size 16 on Linux. *)
Lemma iread_invariant_broken_witness :
  iread_invariant (fresh_reader 16 nul_then_short)
  /\ exists ctx,
       iread_calls (libc := linux_libc) (lua := decimal_lua)
         2 calm (fresh_reader 16 nul_then_short)
       = Ok ([[LString "ab"]; [LString "xyzcd"]], ctx)
       /\ buf_pos ctx = 6 /\ buf_len ctx = 2 ^ 64 - 3 /\ buf_size ctx = 16
       /\ buf_size ctx < buf_pos ctx + buf_len ctx
       /\ ~ iread_invariant ctx.
Proof.
  apply (iread_invariant_broken (libc := linux_libc) (lua := decimal_lua)
           calm 16 eq_refl).
  - split; [discriminate|reflexivity].
  - discriminate.
  - discriminate.
Defined.

(** C10, witness: the bytes "ab\0cd\n" buffered at offset 2, and the read
    "ab\0cd\nef\n" into an empty buffer. *)
Lemma iread_nul_before_newline_witness :
  l_ixp_iread_iter (libc := linux_libc) (lua := decimal_lua)
    calm [] nul_buffered
  = Ok ([LString "ab"],
        reader 16 []
          (bytes "x" ++ [NUL] ++ bytes "ab" ++ [NUL] ++ bytes "cd" ++ [LF]
           ++ replicate 8 "x"%char) 2 0,
        [])
  /\ l_ixp_iread_iter (libc := linux_libc) (lua := decimal_lua)
       calm [] (reader 16 nul_before_newline (replicate 16 "x"%char) 0 0)
     = Ok ([LString "ab"],
           reader 16 []
             (bytes "ab" ++ [NUL] ++ bytes "cd" ++ [LF] ++ bytes "ef" ++ [LF]
              ++ replicate 7 "x"%char) 0 0,
           [CallRead 16]).
Proof.
  destruct (iread_nul_before_newline (libc := linux_libc) (lua := decimal_lua))
    as [Hbuffered Hrefill].
  split.
  - apply (Hbuffered calm [] nul_buffered 0 _ (bytes "ab")
             (bytes "cd" ++ [LF] ++ replicate 8 "x"%char) eq_refl eq_refl).
    + discriminate.
    + split; [discriminate|]. vm_compute. discriminate.
    + reflexivity.
    + not_among.
    + not_among.
  - apply (Hrefill calm []
             (reader 16 nul_before_newline (replicate 16 "x"%char) 0 0) 0
             {| iounit := 16; replies := nul_before_newline |}
             (replicate 16 "x"%char) (bytes "ab")
             (bytes "cd" ++ [LF] ++ bytes "ef" ++ [LF]) []
             eq_refl eq_refl eq_refl eq_refl eq_refl).
    + vm_compute. discriminate.
    + vm_compute. discriminate.
    + not_among.
    + not_among.
Defined.

(** C10, as stated, fails: with "ab\0cd\n" buffered at offset 2 the call
    returns "ab" and leaves the consumed offset at 2, not at 2 + 6; and of
    the read "ab\0cd\nef\n" the calls yield "ab" and then the end of the
    iteration, never "ef". *)
Lemma iread_nul_before_newline_counterexample :
  state_of (l_ixp_iread_iter (libc := linux_libc) (lua := decimal_lua)
              calm [] nul_buffered)
  <> Ok (reader 16 []
           (bytes "x" ++ [NUL] ++ bytes "ab" ++ [NUL] ++ bytes "cd" ++ [NUL]
            ++ replicate 8 "x"%char) (2 + 6) 0)
  /\ (exists ctx,
        state_of (l_ixp_iread_iter (libc := linux_libc) (lua := decimal_lua)
                    calm [] nul_buffered) = Ok ctx
        /\ buf_pos ctx = 2 /\ buf_len ctx = 0)
  /\ yields (iread_calls (libc := linux_libc) (lua := decimal_lua)
               3 calm (reader_over nul_before_newline))
     = Ok [[LString "ab"]; []; []].
Proof.
  split; [|split].
  - vm_compute. discriminate.
  - eexists. split; [vm_compute; reflexivity|]. split; reflexivity.
  - vm_compute. reflexivity.
Qed.

(** C3, witness: a read that fails with -1 on a fresh reader. *)
Lemma iread_failed_read_ends_iteration_witness :
  values_of (l_ixp_iread_iter (libc := linux_libc) (lua := decimal_lua)
               calm [] (reader_over [Failure (-1)])) = Ok [].
Proof.
  exact (proj1 (iread_failed_read_ends_iteration
                  (libc := linux_libc) (lua := decimal_lua)
                  calm [] (reader_over [Failure (-1)]) 0
                  {| iounit := 16; replies := [Failure (-1)] |} (-1) []
                  eq_refl eq_refl eq_refl eq_refl eq_refl)).
Defined.

(** C3, the same failure on the paths beside it: on a read that fails with
    -1 the line iterator returns what it returns at the end of the file,
    while [l_ixp_read] returns the values of [pusherror] for the same
    reply, as the line iterator itself does when [malloc] fails. *)
Lemma iread_failed_read_siblings :
  values_of (l_ixp_iread_iter (libc := linux_libc) (lua := decimal_lua)
               calm [] (reader_over [Failure (-1)])) = Ok []
  /\ values_of (l_ixp_iread_iter (libc := linux_libc) (lua := decimal_lua)
                  calm [] (reader_over [])) = Ok []
  /\ l_ixp_read (libc := linux_libc) 1 calm calm
       (Some {| iounit := 16; replies := [Failure (-1)] |})
     = Some (Ok ([LNil; LString "failed to read from p9 file"],
                 [CallRead 16;
                  CallClose (Some {| iounit := 16; replies := [] |})]))
  /\ values_of (l_ixp_iread_iter (libc := linux_libc) (lua := decimal_lua)
                  {| errno := 12; malloc_fails := true;
                     junk := fun _ => "x"%char |}
                  [] (reader_over [Failure (-1)]))
     = Ok [LNil; LString "count not allocate memory: Cannot allocate memory";
           LNumber 12].
Proof. repeat split; vm_compute; reflexivity. Qed.

(** ** The finalizers *)

Section Finalizers.
Context {libc : Libc}.

(** C7, what the code does with a reader whose handle field is null: the
    finalizers call [ixp_close] on the handle field without looking at
    it.  So the userdata of a line reader whose open failed, which keeps
    its metatable, has its one finalizer run call [ixp_close] with the
    null handle (and, the buffer being looked at first, nothing else); so
    has the userdata of a directory reader whose open or whose allocation
    failed, behind [free] with the null buffer.  After a creation that
    succeeded the run closes the handle that was opened. *)
Theorem gc_closes_null_handle :
  (forall w opened,
     match l_ixp_iread w opened with
     | Refused ctx _ =>
         opened = None /\ l_ixp_iread_gc ctx = (ctx, [CallClose None])
     | Iterator ctx => l_ixp_iread_gc ctx = (ctx, [CallClose opened])
     end)
  /\ (forall w opened,
        match fst (l_ixp_idir w opened) with
        | Refused ctx _ =>
            l_ixp_idir_gc ctx = (ctx, [CallFree None; CallClose None])
        | Iterator ctx =>
            exists f mem,
              opened = Some f
              /\ l_ixp_idir_gc ctx
                 = (ctx, [CallFree (Some mem); CallClose (Some f)])
        end).
Proof.
  split.
  - intros w [f|]; cbn; [reflexivity|split; reflexivity].
  - intros w [f|]; unfold l_ixp_idir, malloc; [|reflexivity].
    destruct (malloc_fails w); [reflexivity|].
    cbn. eexists _, _. split; reflexivity.
Qed.

End Finalizers.

(** ** The one-shot operations *)

(** *** Writing ([write_data], [l_ixp_write]) *)

Section Writing.
Context {libc : Libc} {werr : WriteErrno}.

(** The loop takes the bytes in order: what the transport accepted is a
    prefix of what was left to write, all of it when the loop ends with the
    length, less when it ends with an error. *)
Lemma write_loop_prefix (script : list Z) (data : list ascii) (data_len : Z) :
  0 <= int data_len ->
  forall ofs left result calls rest,
    0 <= ofs -> 0 <= left < 2 ^ 64 ->
    ofs + left = Z.of_nat (length data) ->
    write_loop script data data_len ofs left = Some (result, calls, rest) ->
    exists k,
      0 <= k <= left
      /\ accepted calls = take (Z.to_nat k) (drop (Z.to_nat ofs) data)
      /\ (0 <= result -> k = left /\ result = int data_len)
      /\ (result < 0 -> k < left).
Proof.
  intros Hlen. induction script as [|rc script IH];
    intros ofs left result calls rest Hofs Hleft Hsum; cbn [write_loop].
  - destruct (Z.eqb_spec left 0) as [->|Hne]; [|discriminate].
    intros [= <- <- <-]. exists 0. repeat split; try lia. 
  - destruct (Z.eqb_spec left 0) as [->|Hne].
    { intros [= <- <- <-]. exists 0. repeat split; try lia. }
    destruct (Z.ltb_spec rc 0) as [Hneg|Hpos].
    { intros [= <- <- <-]. exists 0. cbn [accepted returned].
      destruct (Z.leb_spec 0 rc); [lia|]. repeat split; try lia. }
    destruct (Z.ltb_spec left rc) as [Hbig|Hfit].
    { intros [= <- <- <-]. exists 0. cbn [accepted returned offered].
      rewrite length_take, length_drop.
      destruct (Z.leb_spec rc (Z.of_nat (Z.to_nat left `min` (length data - Z.to_nat ofs))));
        [lia|].
      rewrite andb_false_r. pose proof ENXIO_pos. repeat split; try lia. }
    unfold size_t. rewrite Z.mod_small by lia.
    destruct (write_loop script data data_len (ofs + rc) (left - rc))
      as [[[result' calls'] rest']|] eqn:Hrec; [|discriminate].
    intros [= <- <- <-].
    destruct (IH (ofs + rc) (left - rc) result' calls' rest'
                ltac:(lia) ltac:(lia) ltac:(lia) Hrec)
      as (k & Hk & Hacc & Hok & Herr).
    exists (rc + k). cbn [accepted returned offered].
    rewrite length_take, length_drop.
    destruct (Z.leb_spec 0 rc); [|lia].
    destruct (Z.leb_spec rc (Z.of_nat (Z.to_nat left `min` (length data - Z.to_nat ofs))));
      [|lia].
    cbn [andb]. rewrite Hacc, take_take.
    replace (Z.to_nat rc `min` Z.to_nat left)%nat with (Z.to_nat rc) by lia.
    replace (Z.to_nat (ofs + rc)) with (Z.to_nat ofs + Z.to_nat rc)%nat by lia.
    rewrite <- drop_drop, take_take_drop.
    replace (Z.to_nat (rc + k)) with (Z.to_nat rc + Z.to_nat k)%nat by lia.
    repeat split; lia.
Qed.

(** Every call before the last returned a count within what it was
    offered; a negative result is the negative count of the last call, or
    [- ENXIO] for a last call that returned more than it was offered. *)
Lemma write_loop_calls (script : list Z) (data : list ascii) (data_len : Z) :
  0 <= int data_len ->
  forall ofs left result calls rest,
    0 <= ofs -> 0 <= left < 2 ^ 64 ->
    ofs + left = Z.of_nat (length data) ->
    write_loop script data data_len ofs left = Some (result, calls, rest) ->
    script = map returned calls ++ rest
    /\ (0 <= result ->
        Forall (fun c => 0 <= returned c <= Z.of_nat (length (offered c))) calls)
    /\ (result < 0 ->
        exists earlier last,
          calls = earlier ++ [last]
          /\ Forall (fun c => 0 <= returned c <= Z.of_nat (length (offered c)))
               earlier
          /\ ((returned last < 0 /\ result = returned last)
              \/ (Z.of_nat (length (offered last)) < returned last
                  /\ result = - ENXIO))).
Proof.
  intros Hlen. induction script as [|rc script IH];
    intros ofs left result calls rest Hofs Hleft Hsum; cbn [write_loop].
  - destruct (Z.eqb_spec left 0) as [->|Hne]; [|discriminate].
    intros [= <- <- <-]. split; [reflexivity|]. split; [constructor|lia].
  - destruct (Z.eqb_spec left 0) as [->|Hne].
    { intros [= <- <- <-]. split; [reflexivity|]. split; [constructor|lia]. }
    assert (Hoff : Z.of_nat (length (take (Z.to_nat left)
                                       (drop (Z.to_nat ofs) data))) = left).
    { rewrite length_take, length_drop. lia. }
    destruct (Z.ltb_spec rc 0) as [Hneg|Hpos].
    { intros [= <- <- <-]. split; [reflexivity|]. split; [lia|].
      intros _. eexists [], _. split; [reflexivity|]. split; [constructor|].
      left. cbn [returned]. lia. }
    destruct (Z.ltb_spec left rc) as [Hbig|Hfit].
    { intros [= <- <- <-]. split; [reflexivity|].
      pose proof ENXIO_pos. split; [lia|].
      intros _. eexists [], _. split; [reflexivity|]. split; [constructor|].
      right. cbn [returned offered]. lia. }
    unfold size_t. rewrite Z.mod_small by lia.
    destruct (write_loop script data data_len (ofs + rc) (left - rc))
      as [[[result' calls'] rest']|] eqn:Hrec; [|discriminate].
    intros [= <- <- <-].
    destruct (IH (ofs + rc) (left - rc) result' calls' rest'
                ltac:(lia) ltac:(lia) ltac:(lia) Hrec)
      as (Hscript & Hok & Herr).
    split; [cbn [map app returned]; now rewrite Hscript|]. split.
    + intros H. constructor; [cbn [returned offered]; lia|now apply Hok].
    + intros H. destruct (Herr H) as (earlier & last & -> & Hall & Hlast).
      eexists (_ :: earlier), last. split; [reflexivity|]. split; [|exact Hlast].
      constructor; [cbn [returned offered]; lia|exact Hall].
Qed.

(** While the transport accepts no byte the loop goes on: it has not
    returned when the script is used up. *)
Lemma write_loop_stalls (script : list Z) (data : list ascii)
    (data_len ofs left : Z) :
  Forall (fun rc => rc = 0) script ->
  0 < left < 2 ^ 64 ->
  write_loop script data data_len ofs left = None.
Proof.
  intros Hall Hleft. revert ofs.
  induction Hall as [|rc script -> _ IH]; intros ofs; cbn [write_loop].
  - destruct (Z.eqb_spec left 0); [lia|reflexivity].
  - destruct (Z.eqb_spec left 0); [lia|].
    destruct (Z.ltb_spec 0 0); [lia|].
    destruct (Z.ltb_spec left 0); [lia|].
    rewrite Z.sub_0_r. unfold size_t. rewrite Z.mod_small by lia.
    now rewrite IH.
Qed.

(** A transport that never returns 0 lets the loop end within as many
    calls as there are bytes left. *)
Lemma write_loop_returns (data : list ascii) (data_len : Z) (script : list Z) :
  Forall (fun rc => rc <> 0) script ->
  forall ofs left,
    0 <= left < 2 ^ 64 ->
    left <= Z.of_nat (length script) ->
    exists result calls rest,
      write_loop script data data_len ofs left = Some (result, calls, rest)
      /\ Z.of_nat (length calls) <= left.
Proof.
  intros Hall. induction Hall as [|rc script Hrc _ IH];
    intros ofs left Hleft Hfuel; cbn [write_loop].
  - cbn [length] in Hfuel. replace left with 0 by lia.
    eexists _, _, _. split; [reflexivity|]. cbn [length]. lia.
  - destruct (Z.eqb_spec left 0) as [->|Hne].
    { eexists _, _, _. split; [reflexivity|]. cbn [length]. lia. }
    destruct (Z.ltb_spec rc 0) as [Hneg|Hpos].
    { eexists _, _, _. split; [reflexivity|]. cbn [length]. lia. }
    destruct (Z.ltb_spec left rc) as [Hbig|Hfit].
    { eexists _, _, _. split; [reflexivity|]. cbn [length]. lia. }
    unfold size_t. rewrite Z.mod_small by lia.
    cbn [length] in Hfuel.
    destruct (IH (ofs + rc) (left - rc) ltac:(lia) ltac:(lia))
      as (result & calls & rest & -> & Hcalls).
    eexists _, _, _. split; [reflexivity|]. cbn [length]. lia.
Qed.

Lemma size_t_length (data : list ascii) :
  Z.of_nat (length data) < 2 ^ 64 ->
  size_t (Z.of_nat (length data)) = Z.of_nat (length data).
Proof. intros H. unfold size_t. apply Z.mod_small. lia. Qed.

(** X1. [write_data], the bytes: what the transport accepted is a prefix of the
    data, in order and without gaps; all of it when the length is returned,
    a shorter prefix when an error is returned. *)
Theorem write_data_accepts_prefix (script : list Z) (data : list ascii)
    (result : Z) (calls : list write_call) (rest : list Z) :
  Z.of_nat (length data) < 2 ^ 31 ->
  write_data script data = Some (result, calls, rest) ->
  (0 <= result -> accepted calls = data /\ result = Z.of_nat (length data))
  /\ (result < 0 ->
      exists k, (k < length data)%nat /\ accepted calls = take k data).
Proof.
  intros Hlen. unfold write_data. rewrite size_t_length by lia. intros Hrun.
  assert (Hint : int (Z.of_nat (length data)) = Z.of_nat (length data)).
  { unfold int. rewrite Z.mod_small; lia. }
  destruct (write_loop_prefix script data (Z.of_nat (length data))
              ltac:(lia) 0 (Z.of_nat (length data)) result calls rest
              ltac:(lia) ltac:(lia) ltac:(lia) Hrun)
    as (k & Hk & Hacc & Hok & Herr).
  rewrite drop_0 in Hacc. split.
  - intros H. destruct (Hok H) as [-> ->]. split; [|exact Hint].
    rewrite Hacc, Nat2Z.id. apply firstn_all.
  - intros H. specialize (Herr H). exists (Z.to_nat k). split; [lia|exact Hacc].
Qed.

(** X2. [write_data], the errors: a negative result comes from the last call
    made, which returned either that negative count or more bytes than it
    was offered (the result is then [- ENXIO]); every call before it
    returned a count within what it was offered, and no call follows it. *)
Theorem write_data_error_cause (script : list Z) (data : list ascii)
    (result : Z) (calls : list write_call) (rest : list Z) :
  Z.of_nat (length data) < 2 ^ 31 ->
  write_data script data = Some (result, calls, rest) ->
  result < 0 ->
  exists earlier last,
    calls = earlier ++ [last]
    /\ script = map returned earlier ++ returned last :: rest
    /\ Forall (fun c => 0 <= returned c <= Z.of_nat (length (offered c))) earlier
    /\ ((returned last < 0 /\ result = returned last)
        \/ (Z.of_nat (length (offered last)) < returned last
            /\ result = - ENXIO)).
Proof.
  intros Hlen. unfold write_data. rewrite size_t_length by lia.
  intros Hrun Hneg.
  assert (Hint : int (Z.of_nat (length data)) = Z.of_nat (length data)).
  { unfold int. rewrite Z.mod_small; lia. }
  destruct (write_loop_calls script data (Z.of_nat (length data))
              ltac:(lia) 0 (Z.of_nat (length data)) result calls rest
              ltac:(lia) ltac:(lia) ltac:(lia) Hrun)
    as (Hscript & _ & Herr).
  destruct (Herr Hneg) as (earlier & last & -> & Hall & Hlast).
  exists earlier, last. split; [reflexivity|]. split; [|now split].
  rewrite Hscript, map_app, <- app_assoc. reflexivity.
Qed.

(** X3. [write_data] has no retry limit: on data that is not empty, as long as
    the transport accepts 0 bytes per call the function does not return,
    however many calls it has made. *)
Theorem write_data_zero_progress (script : list Z) (data : list ascii) :
  data <> [] ->
  Z.of_nat (length data) < 2 ^ 64 ->
  Forall (fun rc => rc = 0) script ->
  write_data script data = None.
Proof.
  intros Hne Hlen Hall. unfold write_data. rewrite size_t_length by lia.
  apply write_loop_stalls; [exact Hall|].
  destruct data; [congruence|]. cbn [length] in *. lia.
Qed.

(** X4. [write_data] returns: when the transport never answers 0, the function
    returns after at most as many calls as the data has bytes. *)
Theorem write_data_returns (script : list Z) (data : list ascii) :
  Z.of_nat (length data) < 2 ^ 64 ->
  Forall (fun rc => rc <> 0) script ->
  (length data <= length script)%nat ->
  exists result calls rest,
    write_data script data = Some (result, calls, rest)
    /\ (length calls <= length data)%nat.
Proof.
  intros Hlen Hall Hfuel. unfold write_data. rewrite size_t_length by lia.
  destruct (write_loop_returns data (Z.of_nat (length data)) script Hall 0
              (Z.of_nat (length data)) ltac:(lia) ltac:(lia))
    as (result & calls & rest & Hrun & Hcalls).
  exists result, calls, rest. split; [exact Hrun|lia].
Qed.


End Writing.

(** X1, witness: "hello" written by a call that accepts 2 bytes and a call
    that accepts 3. *)
Lemma write_data_accepts_prefix_witness :
  accepted [{| offered := bytes "hello"; returned := 2 |};
            {| offered := bytes "llo"; returned := 3 |}] = bytes "hello"
  /\ 5 = Z.of_nat (length (bytes "hello")).
Proof.
  refine (proj1 (write_data_accepts_prefix (werr := linux_enxio)
                   [2; 3] (bytes "hello") 5 _ [] _ _) _);
    [reflexivity|reflexivity|discriminate].
Defined.

(** X2, witness: the second call fails with -1 after the first took 2 bytes. *)
Lemma write_data_error_cause_witness :
  exists earlier last,
    [{| offered := bytes "hello"; returned := 2 |};
     {| offered := bytes "llo"; returned := -1 |}] = earlier ++ [last]
    /\ [2; -1] = map returned earlier ++ returned last :: []
    /\ Forall (fun c => 0 <= returned c <= Z.of_nat (length (offered c))) earlier
    /\ ((returned last < 0 /\ -1 = returned last)
        \/ (Z.of_nat (length (offered last)) < returned last
            /\ -1 = - @ENXIO linux_enxio)).
Proof.
  exact (write_data_error_cause (werr := linux_enxio) [2; -1] (bytes "hello")
           (-1) _ [] eq_refl eq_refl eq_refl).
Defined.

(** X3, witness: three calls that accept nothing of "a". *)
Lemma write_data_zero_progress_witness :
  write_data (werr := linux_enxio) [0; 0; 0] (bytes "a") = None.
Proof.
  apply (write_data_zero_progress (werr := linux_enxio) [0; 0; 0] (bytes "a"));
    [discriminate|reflexivity|repeat constructor].
Defined.

(** X4, witness: "hello" against a transport that takes 2 bytes, then 3. *)
Lemma write_data_returns_witness :
  exists result calls rest,
    write_data (werr := linux_enxio) [2; 3; 1; 1; 1] (bytes "hello")
    = Some (result, calls, rest)
    /\ (length calls <= length (bytes "hello"))%nat.
Proof.
  apply (write_data_returns (werr := linux_enxio) [2; 3; 1; 1; 1] (bytes "hello"));
    [reflexivity|repeat constructor; discriminate|simpl; lia].
Defined.


(** *** Creating ([l_ixp_create]) *)

Lemma land_byte_high (q d : Z) :
  0 <= q < 256 -> d mod 256 = 0 -> Z.land q d = 0.
Proof.
  intros Hq Hd.
  rewrite <- (Z.mod_small q 256) by lia.
  change 256 with (2 ^ 8) in *.
  rewrite <- Z.land_ones, <- Z.land_assoc, (Z.land_comm (Z.ones 8)) by lia.
  rewrite Z.land_ones, Hd by lia. apply Z.land_0_r.
Qed.

Lemma write_loop_first_call `{WriteErrno} (script : list Z) (data : list ascii)
    (data_len ofs left result : Z) (rest : list Z) :
  write_loop script data data_len ofs left = Some (result, [], rest) ->
  left = 0 /\ result = int data_len.
Proof.
  destruct script as [|rc script]; cbn [write_loop].
  - destruct (Z.eqb_spec left 0); [|discriminate]. now intros [= <- <-].
  - destruct (Z.eqb_spec left 0); [now intros [= <- <-]|].
    destruct (rc <? 0); [discriminate|].
    destruct (left <? rc); [discriminate|].
    destruct (write_loop _ _ _ _ _) as [[[? ?] ?]|]; discriminate.
Qed.

Section Creating.
Context {libc : Libc} {libixp : Libixp} {werr : WriteErrno}.

(** X6. [l_ixp_create], the directory test: the type of a qid is one byte and
    [P9_DMDIR] is a bit of a mode above the low byte, so
    [fid->qid.type & P9_DMDIR] is 0 for every handle; a create with data
    that is not empty goes on as [l_ixp_write] does on the created handle,
    whatever was created. *)
Theorem l_ixp_create_directory_test (w : c_world) (f : IxpCFid) (qid_type : Z)
    (script : list Z) (data : list ascii) :
  0 <= qid_type < 256 ->
  P9_DMDIR mod 256 = 0 ->
  data <> [] ->
  l_ixp_create w (Some (f, qid_type)) script (Some data)
  = l_ixp_write w (Some f) script data.
Proof.
  intros Hq Hd Hne. unfold l_ixp_create, l_ixp_write.
  rewrite (land_byte_high qid_type P9_DMDIR Hq Hd). cbn [Z.eqb andb].
  destruct (Z.eqb_spec (Z.of_nat (length data)) 0) as [H0|_].
  - destruct data; [congruence|discriminate H0].
  - reflexivity.
Qed.

(** X7. [l_ixp_create] on a created handle: on every path that returns the
    handle is closed exactly once, as the last call; and when nothing was
    written (no data, empty data, or the directory test) the call returns
    no value. *)
Theorem l_ixp_create_closes_once (w : c_world) (f : IxpCFid) (qid_type : Z)
    (script : list Z) (data : option (list ascii)) (values : list lua_value)
    (writes : list write_call) (calls : list effect) :
  l_ixp_create w (Some (f, qid_type)) script data = Some (values, writes, calls) ->
  calls = [CallClose (Some f)] /\ (writes = [] -> values = []).
Proof.
  unfold l_ixp_create. destruct data as [bytes|]; [|now intros [= <- <- <-]].
  destruct (negb _ && _); [|now intros [= <- <- <-]].
  destruct (write_data script bytes) as [[[rc ws] rest]|] eqn:Hrun; [|discriminate].
  destruct (Z.ltb_spec rc 0) as [Hneg|Hpos]; intros [= <- <- <-];
    (split; [reflexivity|]); [|reflexivity].
  intros ->. unfold write_data in Hrun.
  apply write_loop_first_call in Hrun as [H0 ->].
  rewrite H0 in Hneg. discriminate Hneg.
Qed.

End Creating.

(** X6, witness: a created directory (qid type 0x80) and the data "hello". *)
Lemma l_ixp_create_directory_test_witness :
  l_ixp_create (libc := linux_libc) (libixp := wire_9p) (werr := linux_enxio)
    calm (Some (dir_handle [], 128)) [5] (Some (bytes "hello"))
  = l_ixp_write (libc := linux_libc) (werr := linux_enxio)
      calm (Some (dir_handle [])) [5] (bytes "hello").
Proof.
  apply (l_ixp_create_directory_test (libc := linux_libc) (libixp := wire_9p)
           (werr := linux_enxio));
    [split; [discriminate|reflexivity]|reflexivity|discriminate].
Defined.

(** X7, witness: a create without data. *)
Lemma l_ixp_create_closes_once_witness :
  [CallClose (Some (dir_handle []))] = [CallClose (Some (dir_handle []))]
  /\ (@nil write_call = [] -> @nil lua_value = []).
Proof.
  exact (l_ixp_create_closes_once (libc := linux_libc) (libixp := wire_9p)
           (werr := linux_enxio) calm (dir_handle []) 0 [] None [] [] _ eq_refl).
Defined.

(** *** Reading ([l_ixp_read]) *)

(** The C string at the head of a block that holds [line], then a NUL. *)
Lemma c_str_app (line rest : list ascii) :
  NUL ∉ line ->
  c_str (line ++ NUL :: rest) = Some (string_of_list_ascii line).
Proof.
  induction line as [|x line IH]; intros Hnul; [reflexivity|].
  apply not_elem_of_cons in Hnul as [Hx Hnul]. cbn [app c_str].
  destruct (Ascii.eqb_spec x NUL); [congruence|].
  now rewrite (IH Hnul).
Qed.

Lemma drop_junk (w : c_world) (k n : nat) :
  drop k (map (junk w) (seq 0 n)) = map (junk w) (seq k (n - k)).
Proof. now rewrite skipn_map, drop_seq. Qed.

Section Reading.
Context {libc : Libc}.

(** X8. [l_ixp_read], a first read that fills the buffer: the call returns the
    values of [pusherror] ("internal error while reading") after that one
    read, and the handle is not closed. *)
Theorem l_ixp_read_full_buffer (fuel : nat) (w wr : c_world) (f : IxpCFid)
    (data : list ascii) (rest : list read_reply) :
  malloc_fails w = false ->
  0 < iounit f < 2 ^ 31 ->
  replies f = Bytes data :: rest ->
  iounit f <= Z.of_nat (length data) ->
  l_ixp_read (S fuel) w wr (Some f)
  = Some (Ok (pusherror w (Some "internal error while reading"%string),
              [CallRead (iounit f)])).
Proof.
  intros Hm Hn Hrep Hfull. unfold l_ixp_read, malloc. rewrite Hm.
  unfold size_t. rewrite Z.mod_small by lia. cbn [read_loop].
  unfold ixp_read. rewrite Hrep. rewrite Z.min_r by lia.
  rewrite Z2Nat.id by lia.
  destruct (Z.eqb_spec (iounit f) 0); [lia|].
  destruct (Z.ltb_spec (iounit f) 0); [lia|].
  unfold size_t. rewrite Z.add_0_l, Z.mod_small by lia.
  destruct (Z.leb_spec (iounit f) (iounit f)); [|lia].
  reflexivity.
Qed.

(** Once the buffer has 4096 bytes a round of the loop is the last. *)
Lemma read_loop_last_round (fuel : nat) (w wr : c_world) (f : IxpCFid)
    (mem : list ascii) (buf_ofs buf_left : Z) (calls : list effect) :
  read_loop (S fuel) w wr f mem buf_ofs 4096 buf_left calls
  = read_loop 1 w wr f mem buf_ofs 4096 buf_left calls
  /\ is_Some (read_loop 1 w wr f mem buf_ofs 4096 buf_left calls).
Proof.
  cbn [read_loop].
  destruct (ixp_read f (drop (Z.to_nat buf_ofs) mem) buf_left) as [[f' written] rc].
  destruct (rc =? 0); [split; [reflexivity|eexists; reflexivity]|].
  destruct (rc <? 0); [split; [reflexivity|eexists; reflexivity]|].
  destruct (4096 <=? size_t (buf_ofs + rc));
    [split; [reflexivity|eexists; reflexivity]|].
  change (4096 <=? 4096) with true.
  split; [reflexivity|eexists; reflexivity].
Qed.

(** X9. [l_ixp_read] returns: the loop goes round twice at most (once to fill
    the block of [iounit] bytes, once more after the block has grown to
    4096 bytes), so two rounds of fuel give the result of any longer
    run. *)
Theorem l_ixp_read_rounds (fuel : nat) (w wr : c_world)
    (opened : option IxpCFid) :
  (2 <= fuel)%nat ->
  l_ixp_read fuel w wr opened = l_ixp_read 2 w wr opened
  /\ is_Some (l_ixp_read 2 w wr opened).
Proof.
  intros Hfuel. destruct fuel as [|[|fuel]]; [lia|lia|clear Hfuel].
  unfold l_ixp_read. destruct opened as [f|]; [|split; [reflexivity|eexists; reflexivity]].
  destruct (malloc w (iounit f)) as [mem|];
    [|split; [reflexivity|eexists; reflexivity]].
  cbn [read_loop].
  destruct (ixp_read f (drop (Z.to_nat 0) mem) (size_t (iounit f)))
    as [[f' written] rc].
  destruct (rc =? 0); [split; [reflexivity|eexists; reflexivity]|].
  destruct (rc <? 0); [split; [reflexivity|eexists; reflexivity]|].
  destruct (size_t (iounit f) <=? size_t (0 + rc));
    [split; [reflexivity|eexists; reflexivity]|].
  destruct (4096 <=? size_t (iounit f));
    [split; [reflexivity|eexists; reflexivity]|].
  destruct (realloc wr _ 4096) as [mem'|];
    [|split; [reflexivity|eexists; reflexivity]].
  apply read_loop_last_round.
Qed.

(** The values of [pusherror] are no single string. *)
Ltac not_a_string :=
  let H := fresh in
  intros H; exfalso; revert H; unfold pusherror; destruct (negb _); discriminate.

Lemma read_finish_calls (f : IxpCFid) (mem : list ascii) (calls : list effect)
    (values : list lua_value) (calls' : list effect) :
  read_finish f mem calls = Ok (values, calls') ->
  calls' = calls ++ [CallClose (Some f)].
Proof.
  unfold read_finish. destruct (c_str mem); [|discriminate].
  now intros [= <- <-].
Qed.

(** X10. [l_ixp_read], the requests: a call that returns a string has asked the
    transport for [iounit] bytes, and, when that read delivered fewer and
    the block was grown to 4096 bytes, once more for no more than what
    was left of the first block: [iounit] less the number of bytes the
    first read delivered.  [buf_left] does not grow with the block, so the
    call never asks for more than [iounit] bytes in all.  The handle is
    then closed once. *)
Theorem l_ixp_read_requests (fuel : nat) (w wr : c_world) (f : IxpCFid)
    (line : string) (calls : list effect) :
  0 <= iounit f < 2 ^ 64 ->
  (forall rc rest, replies f = Failure rc :: rest -> rc < 0) ->
  l_ixp_read fuel w wr (Some f) = Some (Ok ([LString line], calls)) ->
  exists f',
    calls = [CallRead (iounit f); CallClose (Some f')]
    \/ exists data rest,
         replies f = Bytes data :: rest
         /\ 0 < Z.of_nat (length data) < iounit f
         /\ iounit f < 4096
         /\ calls = [CallRead (iounit f);
                     CallRead (iounit f - Z.of_nat (length data));
                     CallClose (Some f')].
Proof.
  intros Hn Hfail. unfold l_ixp_read.
  destruct (malloc w (iounit f)) as [mem|]; [|not_a_string].
  unfold size_t at 1 2. rewrite Z.mod_small by lia.
  destruct fuel as [|fuel]; [discriminate|]. cbn [read_loop].
  unfold ixp_read at 1.
  destruct (replies f) as [|[data|rc] rest] eqn:Hrep.
  - cbn [Z.eqb]. intros [= Hrun]. apply read_finish_calls in Hrun as ->.
    exists f. now left.
  - set (k := Z.to_nat (Z.min (Z.of_nat (length data)) (iounit f))).
    destruct (Z.eqb_spec (Z.of_nat k) 0) as [H0|H0].
    { intros [= Hrun]. apply read_finish_calls in Hrun as ->. eexists. now left. }
    destruct (Z.ltb_spec (Z.of_nat k) 0); [lia|].
    rewrite Z.add_0_l. unfold size_t at 1 2.
    rewrite (Z.mod_small (Z.of_nat k)) by lia.
    destruct (Z.leb_spec (iounit f) (Z.of_nat k)) as [Hfull|Hroom];
      [not_a_string|].
    assert (Hk : Z.of_nat k = Z.of_nat (length data)) by lia.
    destruct (Z.leb_spec 4096 (iounit f)) as [Hbig|Hsmall].
    { intros [= Hrun]. apply read_finish_calls in Hrun as ->. eexists. now left. }
    destruct (realloc wr _ 4096) as [mem'|]; [|not_a_string].
    unfold size_t at 1. rewrite Z.mod_small by lia.
    destruct fuel as [|fuel]; [discriminate|]. cbn [read_loop].
    destruct (ixp_read _ _ _) as [[f2 written2] rc2].
    assert (Hcalls : forall values calls',
               read_finish f2 (take (Z.to_nat (Z.of_nat k)) mem' ++ written2)
                 (([] ++ [CallRead (iounit f)])
                  ++ [CallRead (iounit f - Z.of_nat k)])
               = Ok (values, calls') ->
               calls' = [CallRead (iounit f);
                         CallRead (iounit f - Z.of_nat (length data));
                         CallClose (Some f2)]).
    { intros values calls' Hrun. apply read_finish_calls in Hrun as ->.
      rewrite Hk. reflexivity. }
    destruct (rc2 =? 0).
    { intros [= Hrun]. apply Hcalls in Hrun as ->. exists f2. right.
      exists data, rest. repeat split; try lia. }
    destruct (rc2 <? 0); [not_a_string|].
    destruct (4096 <=? size_t (Z.of_nat k + rc2)); [not_a_string|].
    change (4096 <=? 4096) with true.
    intros [= Hrun]. apply Hcalls in Hrun as ->. exists f2. right.
    exists data, rest. repeat split; try lia.
  - pose proof (Hfail rc rest eq_refl) as Hneg.
    destruct (Z.eqb_spec rc 0); [lia|].
    destruct (Z.ltb_spec rc 0); [|lia]. not_a_string.
Qed.

(** The run of [l_ixp_read] on a file of [data], shorter than the block,
    that is delivered by one read. *)
Lemma l_ixp_read_short_run (fuel : nat) (w wr : c_world) (f : IxpCFid)
    (data : list ascii) :
  malloc_fails w = false ->
  malloc_fails wr = false ->
  iounit f < 4096 ->
  0 < Z.of_nat (length data) < iounit f ->
  replies f = [Bytes data] ->
  l_ixp_read (S (S fuel)) w wr (Some f)
  = Some (read_finish (with_replies f [])
            (data
             ++ map (junk w) (seq (length data)
                                (Z.to_nat (iounit f) - length data))
             ++ map (junk wr) (seq (Z.to_nat (iounit f))
                                 (4096 - Z.to_nat (iounit f))))
            [CallRead (iounit f);
             CallRead (iounit f - Z.of_nat (length data))]).
Proof.
  intros Hm Hmr Hn Hlen Hrep. unfold l_ixp_read, malloc. rewrite Hm.
  unfold size_t. rewrite Z.mod_small by lia. cbn [read_loop].
  rewrite (ixp_read_bytes f _ data (iounit f) [] Hrep) by lia.
  destruct (Z.eqb_spec (Z.of_nat (length data)) 0); [lia|].
  destruct (Z.ltb_spec (Z.of_nat (length data)) 0); [lia|].
  unfold size_t. rewrite Z.add_0_l, !Z.mod_small by lia.
  destruct (Z.leb_spec (iounit f) (Z.of_nat (length data))); [lia|].
  destruct (Z.leb_spec 4096 (iounit f)); [lia|].
  change (Z.to_nat 0) with 0%nat. rewrite take_0, drop_0, drop_junk.
  cbn [app]. unfold realloc. rewrite Hmr.
  assert (Hblock : length (data ++ map (junk w)
                             (seq (length data)
                                (Z.to_nat (iounit f) - length data)))
                   = Z.to_nat (iounit f)).
  { rewrite length_app, length_map, length_seq. lia. }
  rewrite Hblock, take_ge by lia.
  cbn [read_loop].
  rewrite ixp_read_eof by reflexivity. cbn [Z.eqb].
  rewrite take_drop, <- app_assoc. reflexivity.
Qed.

(** X11. [l_ixp_read], the string returned: read by one read into a block it
    does not fill, the data of the file are not terminated, so the string
    pushed is the C string of the data followed by what the block held
    behind them (the bytes [malloc] handed out, then those [realloc]
    added): it runs to the first NUL met there, and the behaviour is
    undefined when there is none in the 4096 bytes. *)
Theorem l_ixp_read_unterminated (fuel : nat) (w wr : c_world) (f : IxpCFid)
    (data : list ascii) :
  malloc_fails w = false ->
  malloc_fails wr = false ->
  iounit f < 4096 ->
  0 < Z.of_nat (length data) < iounit f ->
  replies f = [Bytes data] ->
  l_ixp_read (S (S fuel)) w wr (Some f)
  = Some (line ← defined
                   (c_str (data
                           ++ map (junk w)
                                (seq (length data)
                                   (Z.to_nat (iounit f) - length data))
                           ++ map (junk wr)
                                (seq (Z.to_nat (iounit f))
                                   (4096 - Z.to_nat (iounit f)))));
          Ok ([LString line],
              [CallRead (iounit f);
               CallRead (iounit f - Z.of_nat (length data));
               CallClose (Some (with_replies f []))])).
Proof.
  intros Hm Hmr Hn Hlen Hrep.
  now rewrite (l_ixp_read_short_run fuel w wr f data Hm Hmr Hn Hlen Hrep).
Qed.

(** X12. [l_ixp_read], the round trip: the data of a file without a NUL in it,
    read by one read into a block it does not fill, are returned as they
    are when the block [malloc] handed out happened to hold a NUL right
    behind them. *)
Theorem l_ixp_read_round_trip (fuel : nat) (w wr : c_world) (f : IxpCFid)
    (data : list ascii) :
  malloc_fails w = false ->
  malloc_fails wr = false ->
  iounit f < 4096 ->
  0 < Z.of_nat (length data) < iounit f ->
  replies f = [Bytes data] ->
  NUL ∉ data ->
  junk w (length data) = NUL ->
  l_ixp_read (S (S fuel)) w wr (Some f)
  = Some (Ok ([LString (string_of_list_ascii data)],
              [CallRead (iounit f);
               CallRead (iounit f - Z.of_nat (length data));
               CallClose (Some (with_replies f []))])).
Proof.
  intros Hm Hmr Hn Hlen Hrep Hnul Hjunk.
  rewrite (l_ixp_read_short_run fuel w wr f data Hm Hmr Hn Hlen Hrep).
  unfold read_finish.
  destruct (Z.to_nat (iounit f) - length data)%nat as [|k] eqn:Hk; [lia|].
  cbn [seq map app]. rewrite Hjunk, c_str_app by exact Hnul. reflexivity.
Qed.

(** X13. [l_ixp_read] of an empty file: the first read returns 0 and nothing
    was written to the block, so the string pushed is the C string of the
    bytes [malloc] handed out, not the empty string (and the behaviour is
    undefined when the block holds no NUL). *)
Theorem l_ixp_read_empty_file (fuel : nat) (w wr : c_world) (f : IxpCFid) :
  malloc_fails w = false ->
  0 <= iounit f < 2 ^ 64 ->
  replies f = [] ->
  l_ixp_read (S fuel) w wr (Some f)
  = Some (line ← defined (c_str (map (junk w) (seq 0 (Z.to_nat (iounit f)))));
          Ok ([LString line], [CallRead (iounit f); CallClose (Some f)])).
Proof.
  intros Hm Hn Hrep. unfold l_ixp_read, malloc. rewrite Hm.
  unfold size_t. rewrite Z.mod_small by lia. cbn [read_loop].
  rewrite ixp_read_eof by exact Hrep. cbn [Z.eqb].
  change (Z.to_nat 0) with 0%nat. now rewrite take_drop.
Qed.

(** X14. [l_ixp_read], the handle: of the calls of a run that returns, the
    reads come first, two at most, and the handle is then closed once --
    except when a read has filled the block, where the call returns the
    values of [pusherror] ("internal error while reading") and leaves the
    handle open.  No other call is made: the block is not given back. *)
Theorem l_ixp_read_closes (fuel : nat) (w wr : c_world) (f : IxpCFid)
    (values : list lua_value) (calls : list effect) :
  l_ixp_read fuel w wr (Some f) = Some (Ok (values, calls)) ->
  exists counts,
    (length counts <= 2)%nat
    /\ ((exists f', calls = map CallRead counts ++ [CallClose (Some f')])
        \/ (calls = map CallRead counts
            /\ counts <> []
            /\ values = pusherror w (Some "internal error while reading"%string))).
Proof.
  unfold l_ixp_read.
  destruct (malloc w (iounit f)) as [mem|].
  { destruct fuel as [|fuel]; [discriminate|]. cbn [read_loop].
    destruct (ixp_read f (drop (Z.to_nat 0) mem) (size_t (iounit f)))
      as [[f1 written] rc].
    destruct (rc =? 0).
    { intros [= H]. apply read_finish_calls in H as ->.
      exists [size_t (iounit f)]. split; [cbn; lia|]. left. now exists f1. }
    destruct (rc <? 0).
    { intros [= <- <-]. exists [size_t (iounit f)]. split; [cbn; lia|].
      left. now exists f1. }
    destruct (size_t (iounit f) <=? size_t (0 + rc)).
    { intros [= <- <-]. exists [size_t (iounit f)]. split; [cbn; lia|].
      right. repeat split. discriminate. }
    destruct (4096 <=? size_t (iounit f)).
    { intros [= H]. apply read_finish_calls in H as ->.
      exists [size_t (iounit f)]. split; [cbn; lia|]. left. now exists f1. }
    destruct (realloc wr _ 4096) as [mem'|].
    2:{ intros [= <- <-]. exists [size_t (iounit f)]. split; [cbn; lia|].
        left. now exists f1. }
    destruct fuel as [|fuel]; [discriminate|]. cbn [read_loop].
    destruct (ixp_read f1 _ _) as [[f2 written2] rc2].
    destruct (rc2 =? 0).
    { intros [= H]. apply read_finish_calls in H as ->.
      exists [size_t (iounit f); size_t (size_t (iounit f) - rc)].
      split; [cbn; lia|]. left. now exists f2. }
    destruct (rc2 <? 0).
    { intros [= <- <-].
      exists [size_t (iounit f); size_t (size_t (iounit f) - rc)].
      split; [cbn; lia|]. left. now exists f2. }
    destruct (4096 <=? size_t (size_t (0 + rc) + rc2)).
    { intros [= <- <-].
      exists [size_t (iounit f); size_t (size_t (iounit f) - rc)].
      split; [cbn; lia|]. right. repeat split. discriminate. }
    change (4096 <=? 4096) with true.
    intros [= H]. apply read_finish_calls in H as ->.
    exists [size_t (iounit f); size_t (size_t (iounit f) - rc)].
    split; [cbn; lia|]. left. now exists f2. }
  intros [= <- <-]. exists []. split; [cbn; lia|]. left. now exists f.
Qed.

End Reading.

(** X8, witness: a file of 4 bytes read through a handle of chunk size 4. *)
Lemma l_ixp_read_full_buffer_witness :
  l_ixp_read (libc := linux_libc) 1 calm calm
    (Some {| iounit := 4; replies := [Bytes (bytes "abcd")] |})
  = Some (Ok ([LNil; LString "internal error while reading"], [CallRead 4])).
Proof.
  exact (l_ixp_read_full_buffer (libc := linux_libc) 0 calm calm
           {| iounit := 4; replies := [Bytes (bytes "abcd")] |}
           (bytes "abcd") [] eq_refl (conj eq_refl eq_refl) eq_refl
           (Z.le_refl 4)).
Defined.

(** X9, witness: five rounds of fuel on a file read by two reads. *)
Lemma l_ixp_read_rounds_witness :
  l_ixp_read (libc := linux_libc) 5 zeroed zeroed
    (Some {| iounit := 8; replies := [Bytes (bytes "abc"); Bytes (bytes "de")] |})
  = l_ixp_read (libc := linux_libc) 2 zeroed zeroed
      (Some {| iounit := 8; replies := [Bytes (bytes "abc"); Bytes (bytes "de")] |})
  /\ is_Some (l_ixp_read (libc := linux_libc) 2 zeroed zeroed
                (Some {| iounit := 8;
                         replies := [Bytes (bytes "abc"); Bytes (bytes "de")] |})).
Proof.
  apply (l_ixp_read_rounds (libc := linux_libc) 5 zeroed zeroed). lia.
Defined.

(** X10, witness: a file read by a read of 3 bytes and a read of 2 bytes
    through a handle of chunk size 8. *)
Lemma l_ixp_read_requests_witness :
  exists f',
    [CallRead 8; CallRead 5; CallClose (Some {| iounit := 8; replies := [] |})]
    = [CallRead 8; CallClose (Some f')]
    \/ exists data rest,
         [Bytes (bytes "abc"); Bytes (bytes "de")] = Bytes data :: rest
         /\ 0 < Z.of_nat (length data) < 8
         /\ 8 < 4096
         /\ [CallRead 8; CallRead 5;
             CallClose (Some {| iounit := 8; replies := [] |})]
            = [CallRead 8; CallRead (8 - Z.of_nat (length data));
               CallClose (Some f')].
Proof.
  apply (l_ixp_read_requests (libc := linux_libc) 2 zeroed zeroed
           {| iounit := 8; replies := [Bytes (bytes "abc"); Bytes (bytes "de")] |}
           "abcde");
    [split; [discriminate|reflexivity]
    |intros rc rest; discriminate
    |vm_compute; reflexivity].
Defined.

(** X11, witness: "abc" read into a block of 'x': no NUL follows in the 4096
    bytes. *)
Lemma l_ixp_read_unterminated_witness :
  l_ixp_read (libc := linux_libc) 2 calm calm
    (Some {| iounit := 8; replies := [Bytes (bytes "abc")] |})
  = Some Undefined.
Proof.
  exact (l_ixp_read_unterminated (libc := linux_libc) 0 calm calm
           {| iounit := 8; replies := [Bytes (bytes "abc")] |} (bytes "abc")
           eq_refl eq_refl eq_refl (conj eq_refl eq_refl) eq_refl).
Defined.

(** X12, witness: "abc" read into a zeroed block. *)
Lemma l_ixp_read_round_trip_witness :
  l_ixp_read (libc := linux_libc) 2 zeroed zeroed
    (Some {| iounit := 8; replies := [Bytes (bytes "abc")] |})
  = Some (Ok ([LString "abc"],
              [CallRead 8; CallRead 5;
               CallClose (Some {| iounit := 8; replies := [] |})])).
Proof.
  apply (l_ixp_read_round_trip (libc := linux_libc) 0 zeroed zeroed
           {| iounit := 8; replies := [Bytes (bytes "abc")] |} (bytes "abc")
           eq_refl eq_refl eq_refl (conj eq_refl eq_refl) eq_refl);
    [not_among|reflexivity].
Defined.

(** X13, witness: an empty file read into a block that holds "xy" and a NUL:
    the call returns "xy". *)
Lemma l_ixp_read_empty_file_witness :
  l_ixp_read (libc := linux_libc) 1
    {| errno := 0; malloc_fails := false;
       junk := fun i => nth i (bytes "xy") NUL |}
    calm (Some {| iounit := 8; replies := [] |})
  = Some (Ok ([LString "xy"],
              [CallRead 8; CallClose (Some {| iounit := 8; replies := [] |})])).
Proof.
  apply (l_ixp_read_empty_file (libc := linux_libc) 0
           {| errno := 0; malloc_fails := false;
              junk := fun i => nth i (bytes "xy") NUL |}
           calm {| iounit := 8; replies := [] |});
    [reflexivity|split; [discriminate|reflexivity]|reflexivity].
Defined.

(** X14, witness: a file of 3 bytes read through a handle of chunk size 8. *)
Lemma l_ixp_read_closes_witness :
  exists counts,
    (length counts <= 2)%nat
    /\ ((exists f',
           [CallRead 8; CallRead 5;
            CallClose (Some {| iounit := 8; replies := [] |})]
           = map CallRead counts ++ [CallClose (Some f')])
        \/ ([CallRead 8; CallRead 5;
             CallClose (Some {| iounit := 8; replies := [] |})]
            = map CallRead counts
            /\ counts <> []
            /\ [LString "abc"]
               = pusherror (libc := linux_libc) zeroed
                   (Some "internal error while reading"%string))).
Proof.
  apply (l_ixp_read_closes (libc := linux_libc) 2 zeroed zeroed
           {| iounit := 8; replies := [Bytes (bytes "abc")] |}).
  vm_compute. reflexivity.
Defined.

(** ** The status projection, every record ([pushstat], [l_ixp_stat]) *)

(** A block that holds a NUL within [src]: [strlen] finds it there. *)
Lemma strlen_prefix (src rest : list ascii) :
  NUL ∈ src ->
  exists n,
    strlen src = Some n /\ strlen (src ++ rest) = Some n
    /\ (n < length src)%nat.
Proof.
  induction src as [|x src IH]; intros Hin; [now apply elem_of_nil in Hin|].
  cbn [app strlen]. destruct (Ascii.eqb_spec x NUL) as [->|Hx].
  - exists 0%nat. cbn [length]. repeat split; lia.
  - apply elem_of_cons in Hin as [Hin|Hin]; [congruence|].
    destruct (IH Hin) as (n & -> & -> & Hn).
    exists (S n). cbn [length option_map]. repeat split; lia.
Qed.

(** With the byte before the NUL that [strlen] found set to NUL, the C
    string is the bytes before that byte. *)
Lemma c_str_chopped (src rest : list ascii) (i : nat) :
  strlen src = Some (S i) ->
  c_str (<[i := NUL]> src ++ rest) = Some (string_of_list_ascii (take i src)).
Proof.
  revert i. induction src as [|x src IH]; intros i; cbn [strlen]; [discriminate|].
  destruct (Ascii.eqb_spec x NUL) as [->|Hx]; [discriminate|].
  destruct (strlen src) as [n|] eqn:Hn; [|discriminate].
  cbn [option_map]. intros [= <-]. destruct n as [|j].
  - destruct src as [|y src]; [discriminate|].
    cbn [strlen] in Hn. destruct (Ascii.eqb_spec y NUL) as [->|];
      [|destruct (strlen src); discriminate].
    cbn. destruct (Ascii.eqb_spec x NUL); [congruence|]. reflexivity.
  - change (<[S j := NUL]> (x :: src)) with (x :: <[j := NUL]> src).
    cbn [app c_str take string_of_list_ascii].
    destruct (Ascii.eqb_spec x NUL); [congruence|].
    now rewrite (IH j eq_refl).
Qed.

Lemma strlen_clean (line rest : list ascii) :
  NUL ∉ line -> strlen (line ++ NUL :: rest) = Some (length line).
Proof.
  induction line as [|x line IH]; intros Hnul; [reflexivity|].
  apply not_elem_of_cons in Hnul as [Hx Hnul]. cbn [app strlen length].
  destruct (Ascii.eqb_spec x NUL); [congruence|].
  now rewrite (IH Hnul).
Qed.

(** [buf[strlen (buf) - 1] = 0] on a block that holds a NUL within
    [src]. *)
Lemma chop_block (src rest : list ascii) :
  NUL ∈ src ->
  (n ← defined (strlen (src ++ rest));
   match n with
   | O => Undefined
   | S i => defined (poke (src ++ rest) i NUL)
   end)
  = match strlen src with
    | Some (S i) => Ok (<[i := NUL]> src ++ rest)
    | _ => Undefined
    end.
Proof.
  intros Hin. destruct (strlen_prefix src rest Hin) as (n & -> & -> & Hn).
  cbn [defined mbind outcome_bind]. destruct n as [|i]; [reflexivity|].
  unfold poke. rewrite length_app.
  destruct (Nat.ltb_spec i (length src + length rest)); [|lia].
  cbn [defined]. now rewrite insert_app_l by lia.
Qed.

Lemma modes_lookup (g : Z) :
  0 <= g < 8 ->
  (g <? 0) = false
  /\ exists a b c,
       modes !! Z.to_nat g = Some (String a (String b (String c EmptyString)))
       /\ a <> NUL /\ b <> NUL /\ c <> NUL.
Proof.
  intros Hg.
  destruct (group_cases g Hg) as [->|[->|[->|[->|[->|[->|[->| ->]]]]]]];
    (split; [reflexivity|]); eexists _, _, _;
    (split; [reflexivity|]); repeat split; discriminate.
Qed.

Section Projection.
Context {libc : Libc} {libixp : Libixp}.

(** [build_modestr] writes the 11 characters of the layout and a NUL at
    the start of the block and leaves the rest of it. *)
Lemma build_modestr_block (sbuf : list ascii) (stat : IxpStat) :
  (12 <= length sbuf)%nat ->
  exists M,
    list_ascii_of_string (modestr_layout (st_mode stat)) = M
    /\ length M = 11%nat /\ (NUL ∉ M)
    /\ build_modestr sbuf stat = Ok (M ++ NUL :: drop 12 sbuf).
Proof.
  intros Hlen.
  do 12 (destruct sbuf as [|? sbuf]; [cbn [length] in Hlen; lia|]).
  clear Hlen. unfold build_modestr, setrwx, modestr_layout, rwx.
  rewrite Z.shiftr_0_r.
  destruct (modes_lookup _ (group_range (Z.shiftr (st_mode stat) 6)))
    as (-> & ra1 & rb1 & rc1 & -> & Hra1 & Hrb1 & Hrc1).
  destruct (modes_lookup _ (group_range (Z.shiftr (st_mode stat) 3)))
    as (-> & ra2 & rb2 & rc2 & -> & Hra2 & Hrb2 & Hrc2).
  destruct (modes_lookup _ (group_range (st_mode stat)))
    as (-> & ra3 & rb3 & rc3 & -> & Hra3 & Hrb3 & Hrc3).
  eexists. split; [reflexivity|].
  destruct (Z.land (st_mode stat) P9_DMDIR =? 0);
    (split; [reflexivity|]);
    (split; [|reflexivity]);
    cbn; rewrite !not_elem_of_cons; repeat split;
    try (apply not_elem_of_nil); try discriminate; congruence.
Qed.

(** X15. [build_modestr] needs 12 bytes and touches no more: on a block of at
    least 12 bytes it writes the 11 characters of the layout and a NUL and
    leaves the bytes behind them as they were; on a shorter block a store
    falls outside the block. *)
Theorem build_modestr_frame (sbuf : list ascii) (stat : IxpStat) :
  build_modestr sbuf stat
  = if Nat.leb 12 (length sbuf)
    then Ok (list_ascii_of_string (modestr_layout (st_mode stat))
             ++ NUL :: drop 12 sbuf)
    else Undefined.
Proof.
  destruct (Nat.leb_spec 12 (length sbuf)) as [Hlen|Hlen].
  - destruct (build_modestr_block sbuf stat Hlen) as (M & -> & _ & _ & ->).
    reflexivity.
  - unfold build_modestr, setrwx. rewrite Z.shiftr_0_r.
    destruct (modes_lookup _ (group_range (Z.shiftr (st_mode stat) 6)))
      as (-> & ra1 & rb1 & rc1 & -> & _).
    destruct (modes_lookup _ (group_range (Z.shiftr (st_mode stat) 3)))
      as (-> & ra2 & rb2 & rc2 & -> & _).
    destruct (modes_lookup _ (group_range (st_mode stat)))
      as (-> & ra3 & rb3 & rc3 & -> & _).
    do 12 (destruct sbuf as [|? sbuf];
           [destruct (Z.land (st_mode stat) P9_DMDIR =? 0); reflexivity|]).
    cbn [length] in Hlen. lia.
Qed.

(** The four strings of a record are pushed, or one of its pointers is
    indeterminate and the projection is undefined whatever the buffer. *)
Lemma pushstat_strings (stat : IxpStat) :
  (exists name uid gid muid,
     lua_pushstring (st_name stat) = Ok name
     /\ lua_pushstring (st_uid stat) = Ok uid
     /\ lua_pushstring (st_gid stat) = Ok gid
     /\ lua_pushstring (st_muid stat) = Ok muid)
  \/ (forall sbuf, pushstat sbuf stat = Undefined).
Proof.
  unfold pushstat.
  destruct (st_name stat); [| |right; reflexivity];
    (destruct (st_uid stat); [| |right; reflexivity]);
    (destruct (st_gid stat); [| |right; reflexivity]);
    (destruct (st_muid stat); [| |right; reflexivity]);
    left; eexists _, _, _, _; repeat split; reflexivity.
Qed.

(** One run of [pushstat] on its 32-byte buffer.  [src] is what the block
    holds up to the first NUL once [ctime_r] has run: the text it wrote,
    or the permission string when it failed. *)
Lemma pushstat_run (sbuf : list ascii) (stat : IxpStat) (src : list ascii)
    (name uid gid muid : lua_value) :
  length sbuf = 32%nat ->
  lua_pushstring (st_name stat) = Ok name ->
  lua_pushstring (st_uid stat) = Ok uid ->
  lua_pushstring (st_gid stat) = Ok gid ->
  lua_pushstring (st_muid stat) = Ok muid ->
  src = match ctime_r (time_at_mtime stat) with
        | Some t => list_ascii_of_string t ++ [NUL]
        | None => list_ascii_of_string (modestr_layout (st_mode stat)) ++ [NUL]
        end ->
  pushstat sbuf stat
  = if Nat.leb (length src) 32
    then match strlen src with
         | Some (S i) =>
             Ok (LTable
                   (setfield "timestr"
                      (LString (string_of_list_ascii (take i src)))
                      (setfield "modestr"
                         (LString (modestr_layout (st_mode stat)))
                         (setfield "muid" muid
                            (setfield "gid" gid
                               (setfield "uid" uid
                                  (setfield "name" name
                                     [("type", LNumber (lua_Number (st_type stat)));
                                      ("dev", LNumber (lua_Number (st_dev stat)));
                                      ("mode", LNumber (lua_Number (st_mode stat)));
                                      ("atime", LNumber (lua_Number (st_atime stat)));
                                      ("mtime", LNumber (lua_Number (st_mtime stat)));
                                      ("length",
                                       LNumber (lua_Number (st_length stat)))
                                     ])))))%string),
                 <[i := NUL]> src
                 ++ drop (length src)
                      (list_ascii_of_string (modestr_layout (st_mode stat))
                       ++ NUL :: drop 12 sbuf))
         | _ => Undefined
         end
    else Undefined.
Proof.
  intros Hlen Hname Huid Hgid Hmuid Hsrc. unfold pushstat.
  rewrite Hname, Huid, Hgid, Hmuid.
  destruct (build_modestr_block sbuf stat ltac:(lia)) as (M & HM & HlenM & Hnul & ->).
  cbn [mbind outcome_bind]. rewrite c_str_app by exact Hnul.
  cbn [defined]. rewrite HM in Hsrc |- *.
  assert (Hblock : length (M ++ NUL :: drop 12 sbuf) = 32%nat).
  { rewrite length_app. cbn [length]. rewrite length_drop. lia. }
  assert (Hin : NUL ∈ src).
  { rewrite Hsrc. destruct (ctime_r _); apply elem_of_app; right;
      apply list_elem_of_here. }
  assert (Hrun : build_timestr (M ++ NUL :: drop 12 sbuf) stat
                 = if Nat.leb (length src) 32
                   then match strlen src with
                        | Some (S i) =>
                            Ok (<[i := NUL]> src
                                ++ drop (length src) (M ++ NUL :: drop 12 sbuf))
                        | _ => Undefined
                        end
                   else Undefined).
  { unfold build_timestr. destruct (ctime_r (time_at_mtime stat)) as [t|].
    - unfold write_at. rewrite Hblock, Nat.add_0_l, <- Hsrc.
      destruct (Nat.leb (length src) 32); [|reflexivity].
      cbn [defined mbind outcome_bind take app].
      apply (chop_block src _ Hin).
    - assert (Hfit : length src = 12%nat).
      { rewrite Hsrc, length_app. cbn [length]. lia. }
      rewrite Hfit. cbn [Nat.leb mbind outcome_bind].
      replace (M ++ NUL :: drop 12 sbuf) with (src ++ drop 12 sbuf)
        by (rewrite Hsrc, <- app_assoc; reflexivity).
      rewrite (drop_app_length' src _ 12) by (symmetry; exact Hfit).
      apply (chop_block src _ Hin). }
  rewrite Hrun. destruct (Nat.leb (length src) 32); [|reflexivity].
  destruct (strlen_prefix src [] Hin) as (n & Hn & _ & Hlt).
  rewrite Hn. destruct n as [|i]; [reflexivity|].
  cbn [mbind outcome_bind]. rewrite (c_str_chopped src _ i Hn).
  cbn [defined]. rewrite <- HM, string_of_list_ascii_of_string. reflexivity.
Qed.

(** A successful run leaves the static buffer with its 32 bytes. *)
Lemma pushstat_buffer (sbuf sbuf' : list ascii) (stat : IxpStat)
    (table : lua_value) :
  length sbuf = 32%nat ->
  pushstat sbuf stat = Ok (table, sbuf') ->
  length sbuf' = 32%nat.
Proof.
  intros Hlen.
  destruct (pushstat_strings stat)
    as [(name & uid & gid & muid & H1 & H2 & H3 & H4)|Hwild];
    [|rewrite Hwild; discriminate].
  rewrite (pushstat_run sbuf stat _ name uid gid muid Hlen H1 H2 H3 H4 eq_refl).
  destruct (build_modestr_block sbuf stat ltac:(lia)) as (M & HM & HlenM & _).
  rewrite HM.
  set (src := match ctime_r (time_at_mtime stat) with
              | Some t => _
              | None => _
              end).
  destruct (Nat.leb_spec (length src) 32) as [Hfit|]; [|discriminate].
  destruct (strlen src) as [[|i]|]; try discriminate.
  intros [= _ <-].
  rewrite length_app, length_insert, length_drop, length_app.
  cbn [length]. rewrite length_drop. lia.
Qed.

(** Whatever the static buffer holds, the table is the one a call on the
    buffer before its first use returns. *)
Lemma pushstat_from_static_buf (sbuf : list ascii) (stat : IxpStat) :
  length sbuf = 32%nat ->
  table_of (pushstat sbuf stat) = table_of (pushstat static_buf stat).
Proof.
  intros Hlen.
  destruct (pushstat_strings stat)
    as [(name & uid & gid & muid & H1 & H2 & H3 & H4)|Hwild];
    [|now rewrite !Hwild].
  rewrite (pushstat_run sbuf stat _ name uid gid muid Hlen H1 H2 H3 H4 eq_refl).
  rewrite (pushstat_run static_buf stat _ name uid gid muid eq_refl
             H1 H2 H3 H4 eq_refl).
  set (src := match ctime_r (time_at_mtime stat) with
              | Some t => _
              | None => _
              end).
  destruct (Nat.leb (length src) 32); [|reflexivity].
  destruct (strlen src) as [[|i]|]; reflexivity.
Qed.

(** The text [ctime_r] wrote, the character cut off and the terminator:
    they fit the buffer when the text has at most 30 characters, and the
    string left is the text. *)
Lemma chopped_text (text : list ascii) (c : ascii) :
  NUL ∉ text ->
  c <> NUL ->
  (length text <= 30)%nat ->
  Nat.leb (length ((text ++ [c]) ++ [NUL])) 32 = true
  /\ strlen ((text ++ [c]) ++ [NUL]) = Some (S (length text))
  /\ take (length text) ((text ++ [c]) ++ [NUL]) = text.
Proof.
  intros Hnul Hc Hfit.
  assert (Hclean : NUL ∉ text ++ [c]).
  { intros [H|H]%elem_of_app; [now apply Hnul|].
    apply list_elem_of_singleton in H. congruence. }
  split; [|split].
  - apply Nat.leb_le. rewrite !length_app. cbn [length]. lia.
  - change ((text ++ [c]) ++ [NUL]) with ((text ++ [c]) ++ NUL :: []).
    rewrite (strlen_clean _ [] Hclean), length_app. cbn [length].
    f_equal. lia.
  - rewrite <- app_assoc. apply take_app_length.
Qed.

(** The table of a record whose four strings are C strings and whose time
    [ctime_r] converts to a text that fits the buffer. *)
Lemma pushstat_record (sbuf : list ascii) (stat : IxpStat)
    (name uid gid muid t : string) (text : list ascii) (c : ascii) :
  length sbuf = 32%nat ->
  st_name stat = Str name ->
  st_uid stat = Str uid ->
  st_gid stat = Str gid ->
  st_muid stat = Str muid ->
  ctime_r (time_at_mtime stat) = Some t ->
  list_ascii_of_string t = text ++ [c] ->
  NUL ∉ text ->
  c <> NUL ->
  (length text <= 30)%nat ->
  exists sbuf',
    length sbuf' = 32%nat
    /\ pushstat sbuf stat
       = Ok (LTable [("type", LNumber (lua_Number (st_type stat)));
                     ("dev", LNumber (lua_Number (st_dev stat)));
                     ("mode", LNumber (lua_Number (st_mode stat)));
                     ("atime", LNumber (lua_Number (st_atime stat)));
                     ("mtime", LNumber (lua_Number (st_mtime stat)));
                     ("length", LNumber (lua_Number (st_length stat)));
                     ("name", LString name);
                     ("uid", LString uid);
                     ("gid", LString gid);
                     ("muid", LString muid);
                     ("modestr", LString (modestr_layout (st_mode stat)));
                     ("timestr", LString (string_of_list_ascii text))]%string,
             sbuf').
Proof.
  intros Hlen Hname Huid Hgid Hmuid Ht Htext Hnul Hc Hfit.
  destruct (chopped_text text c Hnul Hc Hfit) as (Hleb & Hstr & Htake).
  assert (Hrun := pushstat_run sbuf stat _ (LString name) (LString uid)
                    (LString gid) (LString muid) Hlen
                    ltac:(now rewrite Hname) ltac:(now rewrite Huid)
                    ltac:(now rewrite Hgid) ltac:(now rewrite Hmuid) eq_refl).
  rewrite Ht, Htext, Hleb, Hstr, Htake in Hrun.
  eexists. split; [|exact Hrun].
  apply (pushstat_buffer sbuf _ stat _ Hlen Hrun).
Qed.

(** X16. [pushstat] does not depend on what its static buffer holds: two calls
    on the same record return the same table (or are both undefined)
    whatever the earlier calls, of [l_ixp_stat] or of the directory
    iterator, left in the buffer. *)
Theorem pushstat_static_buffer (sbuf1 sbuf2 : list ascii) (stat : IxpStat) :
  length sbuf1 = 32%nat ->
  length sbuf2 = 32%nat ->
  table_of (pushstat sbuf1 stat) = table_of (pushstat sbuf2 stat).
Proof.
  intros H1 H2.
  now rewrite (pushstat_from_static_buf sbuf1 stat H1),
              (pushstat_from_static_buf sbuf2 stat H2).
Qed.

(** X17. [pushstat], the table of a record whose four strings are C strings:
    the six numbers as [lua_pushnumber] converts them to a double (exact
    below 2^53, rounded above, which only [length] can be), the four
    strings, the permission string in its layout, and as [timestr] the text
    [ctime_r] wrote for the [time_t] read at the address of [mtime] (the
    32 bits of [mtime] and the 32 bits behind it), without its last
    character (the newline), when that text holds no NUL and fits the 32
    bytes of the buffer with its terminator. *)
Theorem pushstat_table (sbuf : list ascii) (stat : IxpStat)
    (name uid gid muid t : string) (text : list ascii) (c : ascii) :
  length sbuf = 32%nat ->
  st_name stat = Str name ->
  st_uid stat = Str uid ->
  st_gid stat = Str gid ->
  st_muid stat = Str muid ->
  ctime_r (time_at_mtime stat) = Some t ->
  list_ascii_of_string t = text ++ [c] ->
  NUL ∉ text ->
  c <> NUL ->
  (length text <= 30)%nat ->
  table_of (pushstat sbuf stat)
  = Ok (LTable [("type", LNumber (lua_Number (st_type stat)));
                ("dev", LNumber (lua_Number (st_dev stat)));
                ("mode", LNumber (lua_Number (st_mode stat)));
                ("atime", LNumber (lua_Number (st_atime stat)));
                ("mtime", LNumber (lua_Number (st_mtime stat)));
                ("length", LNumber (lua_Number (st_length stat)));
                ("name", LString name);
                ("uid", LString uid);
                ("gid", LString gid);
                ("muid", LString muid);
                ("modestr", LString (modestr_layout (st_mode stat)));
                ("timestr", LString (string_of_list_ascii text))]%string).
Proof.
  intros Hlen Hname Huid Hgid Hmuid Ht Htext Hnul Hc Hfit.
  destruct (pushstat_record sbuf stat name uid gid muid t text c
              Hlen Hname Huid Hgid Hmuid Ht Htext Hnul Hc Hfit)
    as (sbuf' & _ & ->).
  reflexivity.
Qed.

(** X18. [pushstat] when [ctime_r] fails on the [time_t] read at the address
    of [mtime]: its result is not looked at and the buffer still holds the
    permission string, whose last character is cut off instead: [timestr]
    is the first 10 characters of [modestr]. *)
Theorem pushstat_ctime_failure (sbuf : list ascii) (stat : IxpStat)
    (name uid gid muid : string) :
  length sbuf = 32%nat ->
  st_name stat = Str name ->
  st_uid stat = Str uid ->
  st_gid stat = Str gid ->
  st_muid stat = Str muid ->
  ctime_r (time_at_mtime stat) = None ->
  table_of (pushstat sbuf stat)
  = Ok (LTable [("type", LNumber (lua_Number (st_type stat)));
                ("dev", LNumber (lua_Number (st_dev stat)));
                ("mode", LNumber (lua_Number (st_mode stat)));
                ("atime", LNumber (lua_Number (st_atime stat)));
                ("mtime", LNumber (lua_Number (st_mtime stat)));
                ("length", LNumber (lua_Number (st_length stat)));
                ("name", LString name);
                ("uid", LString uid);
                ("gid", LString gid);
                ("muid", LString muid);
                ("modestr", LString (modestr_layout (st_mode stat)));
                ("timestr",
                 LString (substring 0 10 (modestr_layout (st_mode stat))))]%string).
Proof.
  intros Hlen Hname Huid Hgid Hmuid Ht.
  rewrite (pushstat_run sbuf stat _ (LString name) (LString uid)
             (LString gid) (LString muid) Hlen
             ltac:(now rewrite Hname) ltac:(now rewrite Huid)
             ltac:(now rewrite Hgid) ltac:(now rewrite Hmuid) eq_refl).
  rewrite Ht.
  destruct (build_modestr_block sbuf stat ltac:(lia)) as (M & HM & HlenM & Hnul & _).
  assert (Hs : modestr_layout (st_mode stat) = string_of_list_ascii M)
    by (now rewrite <- HM, string_of_list_ascii_of_string).
  rewrite Hs, list_ascii_of_string_of_list_ascii.
  change (M ++ [NUL]) with (M ++ NUL :: []).
  rewrite (strlen_clean _ [] Hnul), length_app, HlenM.
  cbn [length Nat.add Nat.leb table_of mbind outcome_bind].
  do 11 (destruct M as [|? M]; [discriminate HlenM|]).
  destruct M; [|discriminate HlenM]. reflexivity.
Qed.

End Projection.

(** X16, witness: the buffer before its first use and a buffer full of 'x'. *)
Lemma pushstat_static_buffer_witness :
  table_of (pushstat (libc := linux_libc) (libixp := wire_9p)
              static_buf (stat_with_mode mode_dir_0755))
  = table_of (pushstat (libc := linux_libc) (libixp := wire_9p)
                (replicate 32 "x"%char) (stat_with_mode mode_dir_0755)).
Proof.
  exact (pushstat_static_buffer (libc := linux_libc) (libixp := wire_9p)
           static_buf (replicate 32 "x"%char) (stat_with_mode mode_dir_0755)
           eq_refl eq_refl).
Defined.

(** X17, witness: a file of mode 0644 and of 2^53 + 1 bytes, last modified
    at the epoch, in a record whose 4 bytes behind [mtime] hold the number
    1: the length is rounded, and the time converted is 2^32 seconds after
    the epoch. *)
Lemma pushstat_table_witness :
  table_of (pushstat (libc := linux_libc) (libixp := wire_9p) static_buf
              {| st_type := 0; st_dev := 0; st_mode := mode_0644;
                 st_atime := 0; st_mtime := 0; st_behind_mtime := 1;
                 st_length := 2 ^ 53 + 1;
                 st_name := Str "a"; st_uid := Str "u"; st_gid := Str "g";
                 st_muid := Str "m" |})
  = Ok (LTable [("type", LNumber 0); ("dev", LNumber 0);
                ("mode", LNumber mode_0644); ("atime", LNumber 0);
                ("mtime", LNumber 0); ("length", LNumber (2 ^ 53));
                ("name", LString "a"); ("uid", LString "u");
                ("gid", LString "g"); ("muid", LString "m");
                ("modestr", LString "--rw-r--r--");
                ("timestr", LString "Sun Feb  7 06:28:16 2106")]%string).
Proof.
  apply (pushstat_table (libc := linux_libc) (libixp := wire_9p)
           static_buf
           {| st_type := 0; st_dev := 0; st_mode := mode_0644;
              st_atime := 0; st_mtime := 0; st_behind_mtime := 1;
              st_length := 2 ^ 53 + 1;
              st_name := Str "a"; st_uid := Str "u"; st_gid := Str "g";
              st_muid := Str "m" |}
           "a" "u" "g" "m"
           ("Sun Feb  7 06:28:16 2106" ++ String LF EmptyString)%string
           (bytes "Sun Feb  7 06:28:16 2106") LF);
    [reflexivity|reflexivity|reflexivity|reflexivity|reflexivity
    |vm_compute; reflexivity|reflexivity|not_among|discriminate|simpl; lia].
Defined.

(** X18, witness: a record last modified one second after the epoch whose
    4 bytes behind [mtime] hold the number 2^31 - 1: the [time_t] read is
    about 2^63 seconds, in a year no [int] holds, and [ctime_r] fails. *)
Lemma pushstat_ctime_failure_witness :
  table_of (pushstat (libc := linux_libc) (libixp := wire_9p) static_buf
              {| st_type := 0; st_dev := 0; st_mode := mode_0644;
                 st_atime := 0; st_mtime := 1; st_behind_mtime := 2 ^ 31 - 1;
                 st_length := 0;
                 st_name := Str "a"; st_uid := Str "u"; st_gid := Str "g";
                 st_muid := Str "m" |})
  = Ok (LTable [("type", LNumber 0); ("dev", LNumber 0);
                ("mode", LNumber mode_0644); ("atime", LNumber 0);
                ("mtime", LNumber 1); ("length", LNumber 0);
                ("name", LString "a"); ("uid", LString "u");
                ("gid", LString "g"); ("muid", LString "m");
                ("modestr", LString "--rw-r--r--");
                ("timestr", LString "--rw-r--r-")]%string).
Proof.
  apply (pushstat_ctime_failure (libc := linux_libc) (libixp := wire_9p)
           static_buf
           {| st_type := 0; st_dev := 0; st_mode := mode_0644;
              st_atime := 0; st_mtime := 1; st_behind_mtime := 2 ^ 31 - 1;
              st_length := 0;
              st_name := Str "a"; st_uid := Str "u"; st_gid := Str "g";
              st_muid := Str "m" |}
           "a" "u" "g" "m");
    [reflexivity|reflexivity|reflexivity|reflexivity|reflexivity
    |vm_compute; reflexivity].
Defined.
(** ** The directory iterator *)

Lemma le_value_nonneg (bs : list ascii) : 0 <= le_value bs.
Proof.
  induction bs as [|b bs IH]; cbn [le_value]; [lia|].
  pose proof (N2Z.is_nonneg (N_of_ascii b)). lia.
Qed.

(** A length the decoder reads is not negative. *)
Lemma pu_nonneg (width : Z) (mem : list ascii) (msg : IxpMsg) (old : Z) :
  0 <= old -> 0 <= snd (pu width mem msg old).
Proof.
  intros Hold. unfold pu. cbn [snd].
  destruct (window mem msg width) as [bs|]; cbn; [apply le_value_nonneg|exact Hold].
Qed.

(** A string moves the cursor by its two bytes of length at least. *)
Lemma pstring_advance (junk_len : Z) (mem : list ascii) (msg : IxpMsg)
    (old : char_p) :
  0 <= junk_len ->
  m_pos msg + 2 <= m_pos (fst (pstring junk_len mem msg old))
  /\ m_end (fst (pstring junk_len mem msg old)) = m_end msg.
Proof.
  intros Hjunk. unfold pstring.
  pose proof (pu_nonneg 2 mem msg junk_len Hjunk) as Hlen.
  unfold pu in *. cbn [fst snd advance m_pos m_end] in *. split; [lia|reflexivity].
Qed.


(** When the decoder of the 9P layout ends behind the limit, the last
    string was not stored: the pointer [muid] is the one the record held
    before. *)
Lemma pstat_9p_past_limit (junk_len : Z) (mem : list ascii) (msg : IxpMsg)
    (stack : IxpStat) :
  m_end msg < m_pos (fst (pstat_9p junk_len mem msg stack)) ->
  st_muid (snd (pstat_9p junk_len mem msg stack)) = st_muid stack.
Proof.
  unfold pstat_9p, pstring, pu. cbn [fst snd st_muid].
  match goal with
  | |- _ -> default _ (_ <$> window ?b ?c ?n) = _ =>
      set (cur := c); set (len := n)
  end.
  assert (Hend : m_end cur = m_end msg) by reflexivity.
  intros Hpast. change (m_end msg < m_pos cur + len) in Hpast.
  clearbody cur len. unfold window.
  destruct (Z.leb_spec (m_pos cur + len) (m_end cur)) as [Hfit|_];
    [lia|now rewrite andb_false_r].
Qed.

Section DirIterator.
Context {libc : Libc} {libixp : Libixp}.

(** While the cursor is before the limit no read is made. *)
Lemma idir_iter_buffered (sbuf : list ascii) (stack : IxpStat)
    (ctx : l_ixp_idir_s) :
  m_pos (m ctx) < m_end (m ctx) ->
  l_ixp_idir_iter sbuf stack ctx = idir_decode sbuf stack ctx.
Proof.
  intros H. unfold l_ixp_idir_iter.
  destruct (Z.leb_spec (m_end (m ctx)) (m_pos (m ctx))); [lia|reflexivity].
Qed.

(** With the cursor at the limit the buffer is refilled; the call ends the
    iteration when the read returns no byte or fails, and decodes at the
    start of a context over exactly the bytes read otherwise. *)
Lemma idir_iter_refill (sbuf : list ascii) (stack : IxpStat)
    (ctx : l_ixp_idir_s) (f f' : IxpCFid) (mem mem' : list ascii) (rc : Z) :
  m_end (m ctx) <= m_pos (m ctx) ->
  d_fid ctx = Some f ->
  d_buf ctx = Some mem ->
  ixp_read f mem (iounit f) = (f', mem', rc) ->
  l_ixp_idir_iter sbuf stack ctx
  = if rc <=? 0
    then Ok ([], {| d_fid := Some f'; d_buf := Some mem'; m := m ctx |}, sbuf)
    else idir_decode sbuf stack
           {| d_fid := Some f'; d_buf := Some mem';
              m := {| m_pos := 0; m_end := rc; m_size := rc |} |}.
Proof.
  intros Hend Hfid Hbuf Hread. unfold l_ixp_idir_iter.
  destruct (Z.leb_spec (m_end (m ctx)) (m_pos (m ctx))); [|lia].
  rewrite Hfid, Hbuf. simpl. rewrite Hread.
  destruct (Z.leb_spec rc 0) as [|Hrc]; [reflexivity|].
  unfold ixp_message. cbn [m m_end m_pos].
  destruct (Z.leb_spec rc 0); [lia|reflexivity].
Qed.

(** Decoding projects the record the call declared, as the decoder left
    it, and moves the cursor where the decoder left it. *)
Lemma idir_decode_stack (sbuf : list ascii) (stack : IxpStat)
    (ctx : l_ixp_idir_s) (mem : list ascii) :
  d_buf ctx = Some mem ->
  idir_decode sbuf stack ctx
  = ('(table, sbuf') ← pushstat sbuf (snd (ixp_pstat mem (m ctx) stack));
     Ok ([table],
         {| d_fid := d_fid ctx; d_buf := Some mem;
            m := fst (ixp_pstat mem (m ctx) stack) |}, sbuf')).
Proof.
  intros Hbuf. unfold idir_decode. rewrite Hbuf. cbn [defined mbind outcome_bind].
  destruct (ixp_pstat mem (m ctx) stack) as [msg stat]. reflexivity.
Qed.

Lemma defined_no_raise {A : Type} (o : option A) (e : lua_error) :
  defined o <> Raise e.
Proof. destruct o; discriminate. Qed.

Lemma bind_no_raise {A B : Type} (x : outcome A) (k : A -> outcome B) :
  (forall e, x <> Raise e) ->
  (forall a e, k a <> Raise e) ->
  forall e, (x ≫= k) <> Raise e.
Proof.
  intros Hx Hk e. destruct x as [a|e1|]; simpl.
  - apply Hk.
  - now destruct (Hx e1).
  - discriminate.
Qed.

Lemma setrwx_no_raise (g : Z) (b : list ascii) (off : nat) (e : lua_error) :
  setrwx g b off <> Raise e.
Proof.
  unfold setrwx. destruct (g <? 0); [discriminate|].
  apply bind_no_raise; intros; apply defined_no_raise.
Qed.

Lemma build_modestr_no_raise (b : list ascii) (stat : IxpStat) (e : lua_error) :
  build_modestr b stat <> Raise e.
Proof.
  unfold build_modestr.
  apply bind_no_raise; [intros; apply defined_no_raise|intros b0 e0].
  apply bind_no_raise;
    [intros; destruct (negb _); [apply defined_no_raise|discriminate]
    |intros b1 e1].
  apply bind_no_raise; [intros; apply defined_no_raise|intros b2 e2].
  apply bind_no_raise; [intros; apply setrwx_no_raise|intros b3 e3].
  apply bind_no_raise; [intros; apply setrwx_no_raise|intros b4 e4].
  apply bind_no_raise; [intros; apply setrwx_no_raise|intros b5 e5].
  apply defined_no_raise.
Qed.

Lemma build_timestr_no_raise (b : list ascii) (stat : IxpStat) (e : lua_error) :
  build_timestr b stat <> Raise e.
Proof.
  unfold build_timestr. apply bind_no_raise.
  - intros e0. destruct (ctime_r _); [apply defined_no_raise|discriminate].
  - intros b0 e0. apply bind_no_raise; [intros; apply defined_no_raise|].
    intros [|i] e1; [discriminate|apply defined_no_raise].
Qed.

Lemma lua_pushstring_no_raise (s : char_p) (e : lua_error) :
  lua_pushstring s <> Raise e.
Proof. destruct s; discriminate. Qed.

(** The projection raises no Lua error. *)
Lemma pushstat_no_raise (sbuf : list ascii) (stat : IxpStat) (e : lua_error) :
  pushstat sbuf stat <> Raise e.
Proof.
  unfold pushstat.
  apply bind_no_raise; [intros; apply lua_pushstring_no_raise|intros name e1].
  apply bind_no_raise; [intros; apply lua_pushstring_no_raise|intros uid e2].
  apply bind_no_raise; [intros; apply lua_pushstring_no_raise|intros gid e3].
  apply bind_no_raise; [intros; apply lua_pushstring_no_raise|intros muid e4].
  apply bind_no_raise; [intros; apply build_modestr_no_raise|intros b e5].
  apply bind_no_raise; [intros; apply defined_no_raise|intros ms e6].
  apply bind_no_raise; [intros; apply build_timestr_no_raise|intros b0 e7].
  apply bind_no_raise; [intros; apply defined_no_raise|intros ts e8].
  discriminate.
Qed.

(** Decoding raises no error and never ends the iteration: it returns one
    value, or the projection is undefined. *)
Lemma idir_decode_outcome (sbuf : list ascii) (stack : IxpStat)
    (ctx : l_ixp_idir_s) :
  (forall e, idir_decode sbuf stack ctx <> Raise e)
  /\ values_of (idir_decode sbuf stack ctx) <> Ok [].
Proof.
  unfold idir_decode. destruct (d_buf ctx) as [mem|]; simpl.
  - destruct (ixp_pstat mem (m ctx) stack) as [msg stat].
    pose proof (pushstat_no_raise sbuf stat) as Hp.
    destruct (pushstat sbuf stat) as [[table sbuf']|e1|]; simpl.
    + split; [discriminate|discriminate].
    + now destruct (Hp e1).
    + split; discriminate.
  - split; discriminate.
Qed.


(** C5, what the code does: when the record at the cursor declares a length
    that runs past the bytes read, be it a later record of the buffer or
    the first record of a refill, the iterator decodes at the cursor into
    its own record, which it has not initialised, and returns the
    projection of that record as the decoder left it: the cursor is where
    the decoder moved it, no error is raised and the iteration does not
    end.  With the decoder of the 9P layout, a record that takes the
    cursor behind the limit leaves the pointer [muid] as the call found
    it, and the call is undefined when that pointer is indeterminate. *)
Theorem idir_overlong_record :
  (forall sbuf stack ctx mem,
     d_buf ctx = Some mem ->
     m_pos (m ctx) < m_end (m ctx) ->
     runs_past_end mem (m ctx) = true ->
     l_ixp_idir_iter sbuf stack ctx
     = ('(table, sbuf') ← pushstat sbuf (snd (ixp_pstat mem (m ctx) stack));
        Ok ([table],
            {| d_fid := d_fid ctx; d_buf := Some mem;
               m := fst (ixp_pstat mem (m ctx) stack) |}, sbuf'))
     /\ (forall e, l_ixp_idir_iter sbuf stack ctx <> Raise e)
     /\ values_of (l_ixp_idir_iter sbuf stack ctx) <> Ok [])
  /\ (forall sbuf stack ctx f f' mem mem' rc,
        m_end (m ctx) <= m_pos (m ctx) ->
        d_fid ctx = Some f ->
        d_buf ctx = Some mem ->
        ixp_read f mem (iounit f) = (f', mem', rc) ->
        0 < rc ->
        runs_past_end mem' (ixp_message rc) = true ->
        l_ixp_idir_iter sbuf stack ctx
        = ('(table, sbuf') ← pushstat sbuf
                               (snd (ixp_pstat mem' (ixp_message rc) stack));
           Ok ([table],
               {| d_fid := Some f'; d_buf := Some mem';
                  m := fst (ixp_pstat mem' (ixp_message rc) stack) |}, sbuf'))
        /\ (forall e, l_ixp_idir_iter sbuf stack ctx <> Raise e)
        /\ values_of (l_ixp_idir_iter sbuf stack ctx) <> Ok [])
  /\ (forall junk_len sbuf stack ctx mem,
        ixp_pstat = pstat_9p junk_len ->
        d_buf ctx = Some mem ->
        m_pos (m ctx) < m_end (m ctx) ->
        m_end (m ctx) < m_pos (fst (ixp_pstat mem (m ctx) stack)) ->
        st_muid (snd (ixp_pstat mem (m ctx) stack)) = st_muid stack
        /\ (st_muid stack = Wild ->
            l_ixp_idir_iter sbuf stack ctx = Undefined)).
Proof.
  split; [|split].
  - intros sbuf stack ctx mem Hbuf Hpos _.
    rewrite (idir_iter_buffered sbuf stack ctx Hpos).
    split; [exact (idir_decode_stack sbuf stack ctx mem Hbuf)|].
    apply idir_decode_outcome.
  - intros sbuf stack ctx f f' mem mem' rc Hend Hfid Hbuf Hread Hrc _.
    rewrite (idir_iter_refill sbuf stack ctx f f' mem mem' rc
               Hend Hfid Hbuf Hread).
    destruct (Z.leb_spec rc 0); [lia|].
    split;
      [exact (idir_decode_stack sbuf stack
                {| d_fid := Some f'; d_buf := Some mem'; m := ixp_message rc |}
                mem' eq_refl)|].
    apply idir_decode_outcome.
  - intros junk_len sbuf stack ctx mem Hdecoder Hbuf Hpos Hpast.
    rewrite Hdecoder in Hpast |- *.
    pose proof (pstat_9p_past_limit junk_len mem (m ctx) stack Hpast) as Hmuid.
    split; [exact Hmuid|]. intros Hwild.
    rewrite (idir_iter_buffered sbuf stack ctx Hpos),
            (idir_decode_stack sbuf stack ctx mem Hbuf), Hdecoder.
    destruct (pushstat_strings (snd (pstat_9p junk_len mem (m ctx) stack)))
      as [(name & uid & gid & muid & _ & _ & _ & H4)|Hundef].
    + rewrite Hmuid, Hwild in H4. discriminate H4.
    + now rewrite Hundef.
Qed.


End DirIterator.

(** C5, witness: the first 20 bytes of a 53-byte record, which declares
    51 bytes after its size field.  Behind a whole record in the buffer,
    in a call that finds the record of an earlier call in its variable:
    the table has the type and the device of the record cut short and
    everything else of the earlier one.  As the only bytes of a refill, in
    a call that finds its variable never written, and behind the whole
    record in such a call: the projection reads through an indeterminate
    pointer. *)
Lemma idir_overlong_record_witness :
  (runs_past_end (whole_record ++ truncated_record) second_record = true
   /\ l_ixp_idir_iter (libc := linux_libc) (libixp := wire_9p) static_buf
        earlier_record at_second_record
      = Ok ([LTable [("type", LNumber 0); ("dev", LNumber 0);
                     ("mode", LNumber mode_0644); ("atime", LNumber 5);
                     ("mtime", LNumber 86400); ("length", LNumber 12);
                     ("name", LString "old"); ("uid", LString "u");
                     ("gid", LString "g"); ("muid", LString "m");
                     ("modestr", LString "--rw-r--r--");
                     ("timestr", LString "Fri Jan  2 00:00:00 1970")]%string],
            {| d_fid := Some (dir_handle []);
               d_buf := Some (whole_record ++ truncated_record);
               m := {| m_pos := 102; m_end := 73; m_size := 73 |} |},
            bytes "Fri Jan  2 00:00:00 1970" ++ replicate 8 NUL))
  /\ (runs_past_end (truncated_record ++ drop 20 (replicate 128 "x"%char))
        (ixp_message 20) = true
      /\ l_ixp_idir_iter (libc := linux_libc) (libixp := wire_9p) static_buf
           wild_stack (dir_reader [Bytes truncated_record])
         = Undefined)
  /\ l_ixp_idir_iter (libc := linux_libc) (libixp := wire_9p) static_buf
       wild_stack at_second_record
     = Undefined.
Proof.
  destruct (idir_overlong_record (libc := linux_libc) (libixp := wire_9p))
    as (Hbuffered & Hrefill & Hpast).
  split; [|split].
  - split; [reflexivity|].
    rewrite (proj1 (Hbuffered static_buf earlier_record at_second_record
                      (whole_record ++ truncated_record)
                      eq_refl eq_refl eq_refl)).
    vm_compute. reflexivity.
  - split; [reflexivity|].
    rewrite (proj1 (Hrefill static_buf wild_stack
                      (dir_reader [Bytes truncated_record])
                      (dir_handle [Bytes truncated_record]) (dir_handle [])
                      (replicate 128 "x"%char)
                      (truncated_record ++ drop 20 (replicate 128 "x"%char)) 20
                      ltac:(discriminate) eq_refl eq_refl eq_refl eq_refl
                      eq_refl)).
    vm_compute. reflexivity.
  - exact (proj2 (Hpast 0 static_buf wild_stack at_second_record
                    (whole_record ++ truncated_record)
                    eq_refl eq_refl eq_refl eq_refl) eq_refl).
Defined.

(** C5, as stated, fails: for a record cut short, read into a buffer by a
    call whose variable holds zeros, the call returns a status table, whose
    strings are missing; a read of a whole record followed by one cut
    short, in calls that find in their variable what the call before left
    there, yields the table of the whole record twice and then the end of
    the iteration. *)
Lemma idir_overlong_record_counterexample :
  runs_past_end (truncated_record ++ drop 20 (replicate 128 "x"%char))
    (ixp_message 20) = true
  /\ values_of (l_ixp_idir_iter (libc := linux_libc) (libixp := wire_9p)
                  static_buf zero_stack (dir_reader [Bytes truncated_record]))
     = Ok [LTable [("type", LNumber 0); ("dev", LNumber 0);
                   ("mode", LNumber 0); ("atime", LNumber 0);
                   ("mtime", LNumber 0); ("length", LNumber 0);
                   ("modestr", LString "-----------");
                   ("timestr", LString "Thu Jan  1 00:00:00 1970")]%string]
  /\ yields (idir_calls (libc := linux_libc) (libixp := wire_9p)
               [zero_stack; stat_with_mode mode_dir_0755;
                stat_with_mode mode_dir_0755]
               static_buf
               (dir_reader [Bytes (whole_record ++ truncated_record)]))
     = Ok [[LTable [("type", LNumber 0); ("dev", LNumber 0);
                    ("mode", LNumber mode_dir_0755); ("atime", LNumber 0);
                    ("mtime", LNumber 0); ("length", LNumber 0);
                    ("name", LString "a"); ("uid", LString "u");
                    ("gid", LString "g"); ("muid", LString "m");
                    ("modestr", LString "d-rwxr-xr-x");
                    ("timestr", LString "Thu Jan  1 00:00:00 1970")]%string];
           [LTable [("type", LNumber 0); ("dev", LNumber 0);
                    ("mode", LNumber mode_dir_0755); ("atime", LNumber 0);
                    ("mtime", LNumber 0); ("length", LNumber 0);
                    ("name", LString "a"); ("uid", LString "u");
                    ("gid", LString "g"); ("muid", LString "m");
                    ("modestr", LString "d-rwxr-xr-x");
                    ("timestr", LString "Thu Jan  1 00:00:00 1970")]%string];
           []].
Proof.
  split; [reflexivity|]. split; vm_compute; reflexivity.
Qed.


(** ** The directory iterator, several records *)

Section Listing.
Context {libc : Libc} {libixp : Libixp}.

Lemma idir_calls_records (mem : list ascii) (msg last : IxpMsg)
    (stacks stats : list IxpStat) :
  decodes mem msg stacks stats last ->
  forall sbuf ctx,
    length sbuf = 32%nat ->
    d_buf ctx = Some mem ->
    m ctx = msg ->
    idir_calls stacks sbuf ctx
    = (tables ← stat_tables stats;
       Ok (tables, {| d_fid := d_fid ctx; d_buf := d_buf ctx; m := last |})).
Proof.
  induction 1 as [msg|msg next last stack stat stacks stats Hpos Hdec _ IH];
    intros sbuf ctx Hlen Hbuf Hm.
  - destruct ctx. cbn in Hm |- *. now rewrite Hm.
  - cbn [idir_calls stat_tables]. rewrite <- Hm in Hpos, Hdec.
    rewrite (idir_iter_buffered sbuf stack ctx Hpos).
    unfold idir_decode. rewrite Hbuf. cbn [defined mbind outcome_bind].
    rewrite Hdec.
    pose proof (pushstat_from_static_buf sbuf stat Hlen) as Heq.
    pose proof (pushstat_buffer sbuf) as Hkeep.
    unfold table_of in Heq |- *.
    destruct (pushstat sbuf stat) as [[t1 b1]|e1|] eqn:Hpush;
      destruct (pushstat static_buf stat) as [[t2 b2]|e2|];
      cbn [mbind outcome_bind] in Heq |- *; try congruence.
    injection Heq as <-.
    rewrite (IH b1 {| d_fid := d_fid ctx; d_buf := Some mem; m := next |}
               (Hkeep b1 stat t1 Hlen Hpush) eq_refl eq_refl).
    cbn [d_fid d_buf]. destruct (stat_tables stats); reflexivity.
Qed.

(** X19. [l_ixp_stat] and the directory iterator project alike, and share the
    static buffer without harm: when the record [ixp_stat] returns and the
    record the decoder leaves in the iterator's variable are the same,
    in every field and in the 4 bytes behind [mtime], the value of the
    iterator's call is the value of [l_ixp_stat], whatever either found in
    the buffer. *)
Theorem l_ixp_stat_matches_idir (w : c_world) (sbuf1 sbuf2 : list ascii)
    (stack : IxpStat) (ctx : l_ixp_idir_s) (mem : list ascii) (msg : IxpMsg)
    (stat : IxpStat) :
  length sbuf1 = 32%nat ->
  length sbuf2 = 32%nat ->
  d_buf ctx = Some mem ->
  m_pos (m ctx) < m_end (m ctx) ->
  ixp_pstat mem (m ctx) stack = (msg, stat) ->
  values_of (l_ixp_idir_iter sbuf2 stack ctx)
  = ('(values, _) ← l_ixp_stat w sbuf1 (Some stat); Ok values).
Proof.
  intros H1 H2 Hbuf Hpos Hdec.
  rewrite (idir_iter_buffered sbuf2 stack ctx Hpos).
  unfold idir_decode, l_ixp_stat. rewrite Hbuf. cbn [defined mbind outcome_bind].
  rewrite Hdec.
  pose proof (pushstat_from_static_buf sbuf1 stat H1) as Heq.
  rewrite <- (pushstat_from_static_buf sbuf2 stat H2) in Heq.
  unfold table_of in Heq.
  destruct (pushstat sbuf1 stat) as [[t1 b1]| |];
    destruct (pushstat sbuf2 stat) as [[t2 b2]| |];
    cbn [mbind outcome_bind values_of] in Heq |- *; congruence.
Qed.

(** X20. The directory iterator over a buffer that holds several records: as
    many calls as there are records before the limit, each decoding into
    its own variable on what that variable holds when the call starts,
    return the tables of the records as the decoder left them, in order,
    leave the handle and the buffer as they were (no call reads), and
    leave the cursor behind the last record. *)
Theorem idir_iter_buffered_records (sbuf : list ascii) (ctx : l_ixp_idir_s)
    (mem : list ascii) (stacks stats : list IxpStat) (last : IxpMsg) :
  length sbuf = 32%nat ->
  d_buf ctx = Some mem ->
  decodes mem (m ctx) stacks stats last ->
  idir_calls stacks sbuf ctx
  = (tables ← stat_tables stats;
     Ok (tables, {| d_fid := d_fid ctx; d_buf := d_buf ctx; m := last |})).
Proof.
  intros Hlen Hbuf Hdec.
  exact (idir_calls_records mem (m ctx) last stacks stats Hdec sbuf ctx
           Hlen Hbuf eq_refl).
Qed.

(** X21. The directory iterator, a refill and its records: with the cursor at
    the limit, the first call reads, and as many calls as the bytes read
    hold records, each decoding into its own variable on what that
    variable holds when the call starts, return the tables of the records
    as the decoder left them, in order, and leave the cursor behind the
    last of them; the handle has given that one reply and the buffer holds
    its bytes. *)
Theorem idir_iter_refilled_records (sbuf : list ascii) (ctx : l_ixp_idir_s)
    (f : IxpCFid) (mem data : list ascii) (rest : list read_reply)
    (stacks stats : list IxpStat) (last : IxpMsg) :
  length sbuf = 32%nat ->
  d_fid ctx = Some f ->
  d_buf ctx = Some mem ->
  m_end (m ctx) <= m_pos (m ctx) ->
  replies f = Bytes data :: rest ->
  0 < Z.of_nat (length data) <= iounit f ->
  stacks <> [] ->
  decodes (data ++ drop (length data) mem)
    (ixp_message (Z.of_nat (length data))) stacks stats last ->
  idir_calls stacks sbuf ctx
  = (tables ← stat_tables stats;
     Ok (tables,
         {| d_fid := Some (with_replies f rest);
            d_buf := Some (data ++ drop (length data) mem);
            m := last |})).
Proof.
  intros Hlen Hfid Hbuf Hend Hrep Hdata Hne Hdec.
  set (ctx1 := {| d_fid := Some (with_replies f rest);
                  d_buf := Some (data ++ drop (length data) mem);
                  m := ixp_message (Z.of_nat (length data)) |}).
  assert (Hfirst : forall stack,
             l_ixp_idir_iter sbuf stack ctx = l_ixp_idir_iter sbuf stack ctx1).
  { intros stack.
    rewrite (idir_iter_refill sbuf stack ctx f _ mem _ _ Hend Hfid Hbuf
               (ixp_read_bytes f mem data (iounit f) rest Hrep ltac:(lia))).
    destruct (Z.leb_spec (Z.of_nat (length data)) 0); [lia|].
    symmetry. apply idir_iter_buffered. cbn. lia. }
  destruct stacks as [|stack stacks]; [congruence|].
  cbn [idir_calls]. rewrite Hfirst.
  exact (idir_calls_records _ _ last (stack :: stacks) stats Hdec sbuf ctx1
           Hlen eq_refl eq_refl).
Qed.

End Listing.

(** X19, witness: one whole record in the buffer of the directory reader,
    decoded by a call that finds zeros in its variable, and the same
    record from [ixp_stat] with zeros behind [mtime]. *)
Lemma l_ixp_stat_matches_idir_witness :
  values_of (l_ixp_idir_iter (libc := linux_libc) (libixp := wire_9p)
               (replicate 32 "x"%char) zero_stack
               {| d_fid := Some (dir_handle []);
                  d_buf := Some whole_record;
                  m := {| m_pos := 0; m_end := 53; m_size := 53 |} |})
  = ('(values, _) ← l_ixp_stat (libc := linux_libc) (libixp := wire_9p)
                      calm static_buf (Some (stat_with_mode mode_dir_0755));
     Ok values).
Proof.
  apply (l_ixp_stat_matches_idir (libc := linux_libc) (libixp := wire_9p)
           calm static_buf (replicate 32 "x"%char) zero_stack
           {| d_fid := Some (dir_handle []);
              d_buf := Some whole_record;
              m := {| m_pos := 0; m_end := 53; m_size := 53 |} |}
           whole_record {| m_pos := 53; m_end := 53; m_size := 53 |});
    [reflexivity|reflexivity|reflexivity|reflexivity|vm_compute; reflexivity].
Defined.

(** X20, witness: two whole records in the buffer; the first call finds
    zeros in its variable, the second finds it never written, and the
    time it converts is 2^32 seconds before the epoch. *)
Lemma idir_iter_buffered_records_witness :
  idir_calls (libc := linux_libc) (libixp := wire_9p)
    [zero_stack; wild_stack] static_buf
    {| d_fid := Some (dir_handle []);
       d_buf := Some (whole_record ++ whole_record);
       m := {| m_pos := 0; m_end := 106; m_size := 106 |} |}
  = Ok ([[LTable [("type", LNumber 0); ("dev", LNumber 0);
                  ("mode", LNumber mode_dir_0755); ("atime", LNumber 0);
                  ("mtime", LNumber 0); ("length", LNumber 0);
                  ("name", LString "a"); ("uid", LString "u");
                  ("gid", LString "g"); ("muid", LString "m");
                  ("modestr", LString "d-rwxr-xr-x");
                  ("timestr", LString "Thu Jan  1 00:00:00 1970")]%string];
         [LTable [("type", LNumber 0); ("dev", LNumber 0);
                  ("mode", LNumber mode_dir_0755); ("atime", LNumber 0);
                  ("mtime", LNumber 0); ("length", LNumber 0);
                  ("name", LString "a"); ("uid", LString "u");
                  ("gid", LString "g"); ("muid", LString "m");
                  ("modestr", LString "d-rwxr-xr-x");
                  ("timestr", LString "Sun Nov 24 17:31:44 1833")]%string]],
        {| d_fid := Some (dir_handle []);
           d_buf := Some (whole_record ++ whole_record);
           m := {| m_pos := 106; m_end := 106; m_size := 106 |} |}).
Proof.
  rewrite (idir_iter_buffered_records (libc := linux_libc) (libixp := wire_9p)
             static_buf
             {| d_fid := Some (dir_handle []);
                d_buf := Some (whole_record ++ whole_record);
                m := {| m_pos := 0; m_end := 106; m_size := 106 |} |}
             (whole_record ++ whole_record)
             [zero_stack; wild_stack]
             [stat_with_mode mode_dir_0755;
              {| st_type := 0; st_dev := 0; st_mode := mode_dir_0755;
                 st_atime := 0; st_mtime := 0;
                 st_behind_mtime := 2 ^ 32 - 1; st_length := 0;
                 st_name := Str "a"; st_uid := Str "u"; st_gid := Str "g";
                 st_muid := Str "m" |}]
             {| m_pos := 106; m_end := 106; m_size := 106 |}
             eq_refl eq_refl);
    [vm_compute; reflexivity|].
  apply (decodes_cons (H := wire_9p) _ _
           {| m_pos := 53; m_end := 106; m_size := 106 |});
    [reflexivity|vm_compute; reflexivity|].
  apply (decodes_cons (H := wire_9p) _ _
           {| m_pos := 106; m_end := 106; m_size := 106 |});
    [reflexivity|vm_compute; reflexivity|].
  apply decodes_nil.
Defined.

(** X21, witness: a read of one whole record, by a call that finds the
    record of an earlier call in its variable: every field is decoded
    anew. *)
Lemma idir_iter_refilled_records_witness :
  idir_calls (libc := linux_libc) (libixp := wire_9p) [earlier_record]
    static_buf (dir_reader [Bytes whole_record])
  = Ok ([[LTable [("type", LNumber 0); ("dev", LNumber 0);
                  ("mode", LNumber mode_dir_0755); ("atime", LNumber 0);
                  ("mtime", LNumber 0); ("length", LNumber 0);
                  ("name", LString "a"); ("uid", LString "u");
                  ("gid", LString "g"); ("muid", LString "m");
                  ("modestr", LString "d-rwxr-xr-x");
                  ("timestr", LString "Thu Jan  1 00:00:00 1970")]%string]],
        {| d_fid := Some (dir_handle []);
           d_buf := Some (whole_record ++ drop 53 (replicate 128 "x"%char));
           m := {| m_pos := 53; m_end := 53; m_size := 53 |} |}).
Proof.
  rewrite (idir_iter_refilled_records (libc := linux_libc) (libixp := wire_9p)
             static_buf (dir_reader [Bytes whole_record])
             (dir_handle [Bytes whole_record]) (replicate 128 "x"%char)
             whole_record [] [earlier_record] [stat_with_mode mode_dir_0755]
             {| m_pos := 53; m_end := 53; m_size := 53 |}
             eq_refl eq_refl eq_refl ltac:(discriminate) eq_refl
             ltac:(split; [reflexivity|discriminate]) ltac:(discriminate));
    [vm_compute; reflexivity|].
  apply (decodes_cons (H := wire_9p) _ _
           {| m_pos := 53; m_end := 53; m_size := 53 |});
    [reflexivity|vm_compute; reflexivity|].
  apply decodes_nil.
Defined.
(** ** The line iterator, the buffer in order *)

Section BufferedLine.
Context {libc : Libc} {lua : LuaRuntime}.

(** X22. The line iterator on a buffer whose next delimiter lies within the
    valid bytes: the call returns the bytes before the delimiter, makes no
    call to the transport or the alarm, and moves the consumed offset past
    the delimiter by as much as it shortens the valid length, so the
    invariant of the reader is kept and the end of the valid bytes stays
    where it was. *)
Theorem iread_buffered_line_keeps_invariant (w : c_world) (L : lua_stack)
    (ctx : l_ixp_iread_s) (t : Z) (mem : list ascii) (k : nat) :
  luaL_optnumber L 1 0 = Ok t ->
  buf ctx = Some mem ->
  buf_size ctx = Z.of_nat (length mem) ->
  buf_size ctx < 2 ^ 31 ->
  iread_invariant ctx ->
  strchr (drop (Z.to_nat (buf_pos ctx)) mem) LF = Found k ->
  Z.of_nat k < buf_len ctx ->
  exists ctx',
    l_ixp_iread_iter w L ctx
    = Ok ([LString (string_of_list_ascii
                      (take k (drop (Z.to_nat (buf_pos ctx)) mem)))],
          ctx', [])
    /\ iread_invariant ctx'
    /\ buf_pos ctx' = buf_pos ctx + Z.of_nat k + 1
    /\ buf_pos ctx' + buf_len ctx' = buf_pos ctx + buf_len ctx
    /\ buf_size ctx' = buf_size ctx
    /\ fid ctx' = fid ctx.
Proof.
  intros Ht Hbuf Hsize Hsmall (Hpos & Hlen & Hsum) Hfound Hk.
  rewrite (iread_iter_buffered w L ctx t mem Ht Hbuf ltac:(lia)).
  rewrite (iread_split_found ctx mem [] k ltac:(lia) Hfound).
  eexists. split; [reflexivity|].
  unfold iread_invariant. cbn [buf_pos buf_len buf_size fid].
  rewrite int_small by lia. rewrite !size_t_small by lia.
  repeat split; lia.
Qed.

End BufferedLine.

(** X22, witness: the buffer holds "a\nbb\n", of which the first line is
    returned. *)
Lemma iread_buffered_line_keeps_invariant_witness :
  exists ctx',
    l_ixp_iread_iter (libc := linux_libc) (lua := decimal_lua) calm []
      (reader 16 []
         (bytes "a" ++ [LF] ++ bytes "bb" ++ [LF] ++ replicate 11 "x"%char)
         0 5)
    = Ok ([LString "a"], ctx', [])
    /\ iread_invariant ctx'
    /\ buf_pos ctx' = 0 + Z.of_nat 1 + 1
    /\ buf_pos ctx' + buf_len ctx' = 0 + 5
    /\ buf_size ctx' = 16
    /\ fid ctx' = Some {| iounit := 16; replies := [] |}.
Proof.
  apply (iread_buffered_line_keeps_invariant
           (libc := linux_libc) (lua := decimal_lua) calm []
           (reader 16 []
              (bytes "a" ++ [LF] ++ bytes "bb" ++ [LF]
               ++ replicate 11 "x"%char) 0 5)
           0 (bytes "a" ++ [LF] ++ bytes "bb" ++ [LF] ++ replicate 11 "x"%char)
           1);
    [reflexivity|reflexivity|reflexivity|reflexivity
    |unfold iread_invariant; simpl; lia|reflexivity|reflexivity].
Defined.

(** X23, witness: the reads "a\nbb\n" and "cccc\n" through a handle of chunk
    size 16 on Linux. *)
Lemma iread_round_trip_whole_lines_witness :
  yields (iread_calls (libc := linux_libc) (lua := decimal_lua) 4 calm
            (fresh_reader 16
               [Bytes (bytes "a" ++ [LF] ++ bytes "bb" ++ [LF]);
                Bytes (bytes "cccc" ++ [LF])]))
  = Ok [[LString "a"]; [LString "bb"]; [LString "cccc"]; []]
  /\ reassemble [[LString "a"]; [LString "bb"]; [LString "cccc"]; []]
       [true; true; true]
     = bytes "a" ++ [LF] ++ bytes "bb" ++ [LF] ++ bytes "cccc" ++ [LF].
Proof.
  apply (iread_round_trip_whole_lines (libc := linux_libc) (lua := decimal_lua)
           calm 16 [[bytes "a"; bytes "bb"]; [bytes "cccc"]]);
    [reflexivity|split; [discriminate|reflexivity]|].
  repeat constructor; try discriminate; try not_among.
Defined.

(** X24, witness: a read of the 4 bytes "abc\n" on Linux, where [EINTR] is 4. *)
Lemma iread_eintr_sized_read_witness :
  l_ixp_iread_iter (libc := linux_libc) (lua := decimal_lua) calm []
    (reader 16 [Bytes (bytes "abc" ++ [LF])] (replicate 16 "x"%char) 0 0)
  = Ok ([LString "timeout"],
        reader 16 [] (bytes "abc" ++ [LF] ++ replicate 12 "x"%char) 0 0,
        [CallRead 16]).
Proof.
  exact (iread_eintr_sized_read (libc := linux_libc) (lua := decimal_lua)
           calm [] (reader 16 [Bytes (bytes "abc" ++ [LF])]
                      (replicate 16 "x"%char) 0 0)
           0 {| iounit := 16; replies := [Bytes (bytes "abc" ++ [LF])] |}
           (replicate 16 "x"%char) (bytes "abc" ++ [LF]) []
           eq_refl eq_refl eq_refl eq_refl eq_refl eq_refl
           ltac:(discriminate)).
Defined.

